(** * vector-crm: the workflow runner (trigger/src/jobs/workflow-runner.ts)

    A shallow embedding of the event router ([processEvent]), the automation
    orchestrator ([runAutomation]), the step executors, the condition
    evaluator and the template interpolator, together with the store helpers
    of trigger/src/lib/supabase.ts and the SMS helper of
    trigger/src/lib/twilio.ts, and of the routes that feed the runner:
    api/trigger-event.js, which stores an event and invokes the router,
    api/twilio-status.js, which updates the messages the runner has sent,
    and the table of messaging services of api/twilio-inbound.js.

    JavaScript values are an inductive type; numbers are IEEE-754 binary64
    values ([spec_float] at precision 53); strings are byte strings (the
    characters the code tests are ASCII); a thrown [Error] is its message.
    The store, the HTTP transports, the clock and the process environment
    are the host: their answers are fields of a [Host] record, each a
    function of the world reached so far, and every theorem holds for every
    host unless it says otherwise. *)

From Stdlib Require Import List String Ascii ZArith Bool Lia DecimalString.
From Stdlib Require Import Floats.SpecFloat.
Import ListNotations.
Open Scope string_scope.
Set Warnings "-register-all".

(* ================================================================== *)
(** ** Numbers *)
(* ================================================================== *)

Definition number : Type := spec_float.
Definition prec : Z := 53.
Definition emax : Z := 1024.

(** The double nearest to an integer (integers below 2^53 are exact). *)
Definition num (z : Z) : number := binary_normalize prec emax z 0 false.
Definition nan : number := S754_nan.
Definition num_mul : number -> number -> number := SFmul prec emax.
Definition num_add : number -> number -> number := SFadd prec emax.
(** [a > b] and [a < b] of JavaScript: false as soon as one side is NaN. *)
Definition num_gt (a b : number) : bool := SFltb b a.
Definition num_lt (a b : number) : bool := SFltb a b.

(* ================================================================== *)
(** ** Values *)
(* ================================================================== *)

(** Data as JSON carries it, plus [undefined]. An object is the list of its
    own properties in insertion order. *)
Inductive JSValue : Type :=
| JUndefined
| JNull
| JBool (b : bool)
| JNum (n : number)
| JStr (s : string)
| JArr (items : list JSValue)
| JObj (props : list (string * JSValue)).

(** What a property lookup can reach besides data: the built-in prototype
    objects and their methods. *)
Inductive Builtin : Type :=
| ObjectPrototype
| ArrayPrototype
| BuiltinFunction (name : string).

(** A value of type [unknown]. *)
Inductive Value : Type :=
| Data (v : JSValue)
| Native (b : Builtin).

(** The result of an expression that may throw; [Throw msg] is a thrown
    [Error] whose [message] is [msg]. *)
Inductive Outcome (A : Type) : Type :=
| Ret (a : A)
| Throw (msg : string).
Arguments Ret {A} a.
Arguments Throw {A} msg.

Definition obind {A B : Type} (c : Outcome A) (k : A -> Outcome B) : Outcome B :=
  match c with
  | Ret a => k a
  | Throw msg => Throw msg
  end.

Notation "x <-- c ;; k" := (obind c (fun x => k))
  (at level 61, c at next level, right associativity).

(** Own properties. *)
Fixpoint assoc {A : Type} (key : string) (l : list (string * A)) : option A :=
  match l with
  | [] => None
  | (k, v) :: rest => if k =? key then Some v else assoc key rest
  end.

Definition has_own (key : string) (props : list (string * JSValue)) : bool :=
  match assoc key props with Some _ => true | None => false end.

(** [o[key] = v] on the property list: an existing key keeps its place. *)
Fixpoint obj_set (key : string) (v : JSValue) (props : list (string * JSValue))
  : list (string * JSValue) :=
  match props with
  | [] => [(key, v)]
  | (k, x) :: rest =>
      if k =? key then (k, v) :: rest else (k, x) :: obj_set key v rest
  end.

(** Object spread [{...base, ...extra}]: the properties of [extra] are
    defined on the copy of [base] one after the other. *)
Definition spread (base extra : list (string * JSValue)) : list (string * JSValue) :=
  fold_left (fun acc kv => obj_set (fst kv) (snd kv) acc) extra base.

(** [v.key] for a key that no built-in prototype defines (every key the
    runner reads from a config, a row or a payload is such a key): the own
    property of an object, [undefined] otherwise. *)
Definition prop (v : JSValue) (key : string) : JSValue :=
  match v with
  | JObj props => match assoc key props with Some x => x | None => JUndefined end
  | _ => JUndefined
  end.

(** ToBoolean. *)
Definition truthy (v : JSValue) : bool :=
  match v with
  | JUndefined | JNull => false
  | JBool b => b
  | JNum (S754_zero _) | JNum S754_nan => false
  | JNum _ => true
  | JStr s => negb (s =? "")
  | JArr _ | JObj _ => true
  end.

Definition truthyV (v : Value) : bool :=
  match v with
  | Data d => truthy d
  | Native _ => true
  end.

(** [a || b]. *)
Definition js_or (a b : JSValue) : JSValue := if truthy a then a else b.

(** [v === "s"]. *)
Definition is_str (v : JSValue) (s : string) : bool :=
  match v with
  | JStr x => x =? s
  | _ => false
  end.

(* ================================================================== *)
(** ** Strings *)
(* ================================================================== *)

(** [hay.includes(needle)]. *)
Fixpoint includes (hay needle : string) : bool :=
  prefix needle hay
  || match hay with
     | EmptyString => false
     | String _ rest => includes rest needle
     end.

(** [s.split(".")]. *)
Fixpoint split_dot (s : string) : list string :=
  match s with
  | EmptyString => [""]
  | String c rest =>
      if (c =? ".")%char then "" :: split_dot rest
      else match split_dot rest with
           | x :: xs => String c x :: xs
           | [] => [String c ""]
           end
  end.

(** The regular expression class [\w]: [A-Za-z0-9_]. *)
Definition is_word (c : ascii) : bool :=
  let n := nat_of_ascii c in
  ((48 <=? n)%nat && (n <=? 57)%nat) || ((65 <=? n)%nat && (n <=? 90)%nat)
  || ((97 <=? n)%nat && (n <=? 122)%nat) || (n =? 95)%nat.

(** The canonical decimal name of an array index. *)
Definition index_key (i : nat) : string := NilZero.string_of_uint (Nat.to_uint i).

(* ================================================================== *)
(** ** The world and the host *)
(* ================================================================== *)

(** A request to the store (PostgREST through supabase-js). A filter is a
    column and the text of the value it must equal. *)
Inductive StoreOp : Type :=
| Select (table : string) (filters : list (string * string)) (order : option string)
| Insert (table : string) (row : JSValue) (returning_id : bool)
| Update (table : string) (updates : JSValue) (filters : list (string * string)).

Inductive Body : Type :=
| FormBody (fields : list (string * string))
| JsonBody (v : JSValue).

Record HttpRequest : Type := {
  url : string;
  basic_auth : option (string * string);
  body : Body
}.

(** [fetch]: a rejected promise, or a response with [ok], [status], the
    result of [text()] and the result of [json()]. *)
Inductive FetchResult : Type :=
| NetworkError (msg : string)
| Response (ok : bool) (status : JSValue) (text : string) (json : Outcome JSValue).

(** Everything the runner does to the outside, in order. *)
Inductive Effect : Type :=
| EStore (op : StoreOp)
| EFetch (req : HttpRequest)
| EWait (seconds : number).

Record World : Type := {
  db : list (string * list JSValue);
  trace : list Effect
}.

Record Host : Type := {
  (** Number::toString and StringToNumber of ECMAScript. *)
  NumberToString : number -> string;
  StringToNumber : string -> number;
  JSON_stringify : JSValue -> string;
  (** [process.env]. *)
  env : string -> option string;
  (** [new Date().toISOString()]. *)
  now : World -> string;
  (** The [YYYY-MM-DD] of today plus a number of days; [toISOString] throws
      a RangeError on an invalid date. *)
  due_date : World -> number -> Outcome string;
  (** The error the store answers a request with, if any. *)
  store_fault : World -> StoreOp -> option string;
  (** The [id] the store gives a row inserted into a table. *)
  new_id : World -> string -> JSValue;
  fetch_result : World -> HttpRequest -> FetchResult
}.

(** A computation that acts on the world and may throw. *)
Definition M (A : Type) : Type := World -> Outcome A * World.

Definition ret {A : Type} (a : A) : M A := fun w => (Ret a, w).
Definition throw {A : Type} (msg : string) : M A := fun w => (Throw msg, w).
Definition bind {A B : Type} (c : M A) (k : A -> M B) : M B :=
  fun w => match c w with
           | (Ret a, w') => k a w'
           | (Throw msg, w') => (Throw msg, w')
           end.
Definition lift {A : Type} (c : Outcome A) : M A := fun w => (c, w).

(** [try { body } catch (err) { handler(errMsg) }]: what [body] did before
    it threw stays done. *)
Definition try_catch {A : Type} (body : M A) (handler : string -> M A) : M A :=
  fun w => match body w with
           | (Ret a, w') => (Ret a, w')
           | (Throw msg, w') => handler msg w'
           end.

Notation "x <- c ;; k" := (bind c (fun x => k))
  (at level 61, c at next level, right associativity).
Notation "c ;;; k" := (bind c (fun _ => k))
  (at level 61, right associativity).

Definition emit (e : Effect) : M unit :=
  fun w => (Ret tt, {| db := db w; trace := trace w ++ [e] |}).

Definition table (name : string) (w : World) : list JSValue :=
  match assoc name (db w) with Some rows => rows | None => [] end.

Fixpoint set_rows (name : string) (rows : list JSValue) (d : list (string * list JSValue))
  : list (string * list JSValue) :=
  match d with
  | [] => [(name, rows)]
  | (k, x) :: rest =>
      if k =? name then (k, rows) :: rest else (k, x) :: set_rows name rows rest
  end.

Definition set_table (name : string) (rows : list JSValue) (w : World) : World :=
  {| db := set_rows name rows (db w); trace := trace w |}.

(* ================================================================== *)
(** ** Coercions and property lookup *)
(* ================================================================== *)

Definition TypeError_message : string := "Cannot convert object to primitive value".

(** V8 prints a built-in function this way. *)
Definition function_text (name : string) : string :=
  "function " ++ name ++ "() { [native code] }".

(** The methods of [Object.prototype]: property name and function name.
    The accessor [__proto__] is treated apart. *)
Definition object_prototype_methods : list (string * string) :=
  [ ("constructor", "Object");
    ("__defineGetter__", "__defineGetter__");
    ("__defineSetter__", "__defineSetter__");
    ("hasOwnProperty", "hasOwnProperty");
    ("__lookupGetter__", "__lookupGetter__");
    ("__lookupSetter__", "__lookupSetter__");
    ("isPrototypeOf", "isPrototypeOf");
    ("propertyIsEnumerable", "propertyIsEnumerable");
    ("toString", "toString");
    ("valueOf", "valueOf");
    ("toLocaleString", "toLocaleString") ].

(** The string-keyed methods of [Array.prototype] (ECMAScript 2023). *)
Definition array_prototype_methods : list (string * string) :=
  map (fun n => (n, n))
    [ "at"; "concat"; "copyWithin"; "fill"; "find"; "findIndex"; "findLast";
      "findLastIndex"; "lastIndexOf"; "pop"; "push"; "reverse"; "shift";
      "unshift"; "slice"; "sort"; "splice"; "includes"; "indexOf"; "join";
      "keys"; "entries"; "values"; "forEach"; "filter"; "flat"; "flatMap";
      "map"; "every"; "some"; "reduce"; "reduceRight"; "toLocaleString";
      "toString"; "toReversed"; "toSorted"; "toSpliced"; "with" ]
  ++ [ ("constructor", "Array") ].

Definition method_of (key : string) (methods : list (string * string)) : option Value :=
  match assoc key methods with
  | Some name => Some (Native (BuiltinFunction name))
  | None => None
  end.

(** A property of [Object.prototype] as an object inheriting from it sees
    it; [proto] is what the [__proto__] getter answers for the receiver. *)
Definition from_object_prototype (proto : Value) (key : string) : option Value :=
  if key =? "__proto__" then Some proto
  else method_of key object_prototype_methods.

Definition from_array_prototype (proto : Value) (key : string) : option Value :=
  match method_of key array_prototype_methods with
  | Some f => Some f
  | None => from_object_prototype proto key
  end.

Fixpoint array_item (items : list JSValue) (i : nat) (key : string) : option JSValue :=
  match items with
  | [] => None
  | x :: rest => if key =? index_key i then Some x else array_item rest (S i) key
  end.

(** [acc && typeof acc === "object"]. *)
Definition is_object (acc : Value) : bool :=
  match acc with
  | Data (JObj _) | Data (JArr _) => true
  | Native ObjectPrototype | Native ArrayPrototype => true
  | _ => false
  end.

(** The property [key] of an object, own or inherited; [None] when
    [key in acc] is false. *)
Definition lookup_property (acc : Value) (key : string) : option Value :=
  match acc with
  | Data (JObj props) =>
      match assoc key props with
      | Some v => Some (Data v)
      | None => from_object_prototype (Native ObjectPrototype) key
      end
  | Data (JArr items) =>
      if key =? "length" then Some (Data (JNum (num (Z.of_nat (List.length items)))))
      else match array_item items 0 key with
           | Some v => Some (Data v)
           | None => from_array_prototype (Native ArrayPrototype) key
           end
  | Native ObjectPrototype => from_object_prototype (Data JNull) key
  | Native ArrayPrototype =>
      if key =? "length" then Some (Data (JNum (num 0)))
      else from_array_prototype (Native ObjectPrototype) key
  | _ => None
  end.

(** [key in acc]. *)
Definition has_property (key : string) (acc : Value) : bool :=
  match lookup_property acc key with Some _ => true | None => false end.

(** [acc[key]]. *)
Definition get (acc : Value) (key : string) : Value :=
  match lookup_property acc key with Some v => v | None => Data JUndefined end.

(** workflow-runner.ts, [getNestedValue]. *)
Definition getNestedValue (obj : JSValue) (path : string) : Value :=
  fold_left
    (fun acc key =>
       if is_object acc && has_property key acc then get acc key
       else Data JUndefined)
    (split_dot path) (Data obj).

Section Coercions.
Variable h : Host.

(** [String(v)]. An object is converted by its [toString]: the inherited
    one answers "[object Object]"; an own property of that name is data,
    not a function, and then neither [toString] nor the inherited
    [valueOf] yields a primitive: a TypeError. An array is joined. *)
Fixpoint ToString (v : JSValue) : Outcome string :=
  match v with
  | JUndefined => Ret "undefined"
  | JNull => Ret "null"
  | JBool true => Ret "true"
  | JBool false => Ret "false"
  | JNum n => Ret (NumberToString h n)
  | JStr s => Ret s
  | JArr items =>
      (fix join (l : list JSValue) : Outcome string :=
         match l with
         | [] => Ret ""
         | x :: rest =>
             s <-- match x with
                   | JUndefined | JNull => Ret ""
                   | _ => ToString x
                   end ;;
             match rest with
             | [] => Ret s
             | _ :: _ => r <-- join rest ;; Ret (s ++ "," ++ r)
             end
         end) items
  | JObj props =>
      if has_own "toString" props then Throw TypeError_message
      else Ret "[object Object]"
  end.

(** [Number(v)]. *)
Definition ToNumber (v : JSValue) : Outcome number :=
  match v with
  | JUndefined => Ret nan
  | JNull => Ret (num 0)
  | JBool true => Ret (num 1)
  | JBool false => Ret (num 0)
  | JNum n => Ret n
  | JStr s => Ret (StringToNumber h s)
  | JArr _ | JObj _ => s <-- ToString v ;; Ret (StringToNumber h s)
  end.

Definition native_text (b : Builtin) : string :=
  match b with
  | ObjectPrototype => "[object Object]"
  | ArrayPrototype => ""
  | BuiltinFunction name => function_text name
  end.

Definition ToStringV (v : Value) : Outcome string :=
  match v with
  | Data d => ToString d
  | Native b => Ret (native_text b)
  end.

Definition ToNumberV (v : Value) : Outcome number :=
  match v with
  | Data d => ToNumber d
  | Native b => Ret (StringToNumber h (native_text b))
  end.

(* ================================================================== *)
(** ** Condition evaluator *)
(* ================================================================== *)

(** workflow-runner.ts, [evaluateCondition]. The warning logged for an
    unknown operator is not modelled. *)
Definition evaluateCondition (config context : JSValue) : Outcome bool :=
  field <-- ToString (js_or (prop config "field") (JStr "")) ;;
  operator <-- ToString (js_or (prop config "operator") (JStr "equals")) ;;
  let value := prop config "value" in
  let actual := getNestedValue context field in
  if operator =? "equals" then
    a <-- ToStringV actual ;; v <-- ToString value ;; Ret (a =? v)
  else if operator =? "not_equals" then
    a <-- ToStringV actual ;; v <-- ToString value ;; Ret (negb (a =? v))
  else if operator =? "contains" then
    a <-- ToStringV actual ;; v <-- ToString value ;; Ret (includes a v)
  else if operator =? "not_contains" then
    a <-- ToStringV actual ;; v <-- ToString value ;; Ret (negb (includes a v))
  else if operator =? "greater_than" then
    a <-- ToNumberV actual ;; v <-- ToNumber value ;; Ret (num_gt a v)
  else if operator =? "less_than" then
    a <-- ToNumberV actual ;; v <-- ToNumber value ;; Ret (num_lt a v)
  else if operator =? "is_empty" then
    Ret (negb (truthyV actual)
         || match actual with Data (JStr "") => true | _ => false end
         || match actual with Data JNull => true | _ => false end
         || match actual with Data JUndefined => true | _ => false end)
  else if operator =? "is_not_empty" then
    Ret (truthyV actual
         && negb match actual with Data (JStr "") => true | _ => false end
         && negb match actual with Data JNull => true | _ => false end
         && negb match actual with Data JUndefined => true | _ => false end)
  else Ret false.

(* ================================================================== *)
(** ** Template interpolation *)
(* ================================================================== *)

(** The longest prefix of [s] that is a dotted path (one or more word
    characters, then any number of groups made of a dot and one or more
    word characters) when [fresh], or the rest of such a match once a word
    character has been read, with what follows it. A dot is taken only
    when a word character follows. The match is the greedy one; a shorter
    one ends before a word character or a dot, never before a closing
    brace, so backtracking adds nothing. *)
Fixpoint scan_path (s : string) (fresh : bool) : option (string * string) :=
  match s with
  | EmptyString => if fresh then None else Some ("", "")
  | String c rest =>
      if is_word c then
        match scan_path rest false with
        | Some (p, tail) => Some (String c p, tail)
        | None => None
        end
      else if fresh then None
      else if (c =? ".")%char then
        match scan_path rest true with
        | Some (p, tail) => Some (String c p, tail)
        | None => Some ("", s)
        end
      else Some ("", s)
  end.

(** A match of the placeholder pattern at the start of [s] (two opening
    braces, a dotted path, two closing braces): the path captured and the
    text after the match. *)
Definition match_placeholder (s : string) : option (string * string) :=
  match s with
  | String c1 (String c2 inner) =>
      if (c1 =? "{")%char && (c2 =? "{")%char then
        match scan_path inner true with
        | Some (path, String c3 (String c4 tail)) =>
            if (c3 =? "}")%char && (c4 =? "}")%char then Some (path, tail) else None
        | _ => None
        end
      else None
  | _ => None
  end.

(** The replacement callback of [interpolate]. *)
Definition placeholder_value (context : JSValue) (path : string) : Outcome string :=
  match getNestedValue context path with
  | Data JUndefined | Data JNull => Ret ""
  | val => ToStringV val
  end.

(** [template.replace(/.../g, callback)]: matches are taken left to right
    and the scan resumes after each match; what the callback returns is
    copied to the result and not scanned. Every step consumes at least one
    character, so [fuel] above the length of the template is never used
    up. *)
Fixpoint replace_placeholders (fuel : nat) (context : JSValue) (template : string)
  : Outcome string :=
  match fuel with
  | O => Ret template
  | S fuel' =>
      match match_placeholder template with
      | Some (path, tail) =>
          v <-- placeholder_value context path ;;
          r <-- replace_placeholders fuel' context tail ;;
          Ret (v ++ r)
      | None =>
          match template with
          | EmptyString => Ret ""
          | String c rest =>
              r <-- replace_placeholders fuel' context rest ;;
              Ret (String c r)
          end
      end
  end.

(** workflow-runner.ts, [interpolate]. *)
Definition interpolate (template : string) (context : JSValue) : Outcome string :=
  replace_placeholders (S (String.length template)) context template.

End Coercions.

(* ================================================================== *)
(** ** The store (trigger/src/lib/supabase.ts) *)
(* ================================================================== *)

Section Runner.
Variable h : Host.

(** The text a cell is compared by; a null, absent or structured cell
    equals nothing. *)
Definition cell_text (cell : JSValue) : option string :=
  match cell with
  | JStr s => Some s
  | JNum n => Some (NumberToString h n)
  | JBool true => Some "true"
  | JBool false => Some "false"
  | _ => None
  end.

Definition row_matches (filters : list (string * string)) (row : JSValue) : bool :=
  forallb
    (fun f => match cell_text (prop row (fst f)) with
              | Some s => s =? snd f
              | None => false
              end)
    filters.

(** Ascending order on a numeric column, rows without a number last. *)
Definition row_le (col : string) (a b : JSValue) : bool :=
  match prop a col, prop b col with
  | JNum x, JNum y => SFleb x y
  | JNum _, _ => true
  | _, JNum _ => false
  | _, _ => true
  end.

Fixpoint insert_row (col : string) (x : JSValue) (l : list JSValue) : list JSValue :=
  match l with
  | [] => [x]
  | y :: rest => if row_le col x y then x :: l else y :: insert_row col x rest
  end.

Definition order_by (col : string) (rows : list JSValue) : list JSValue :=
  fold_right (insert_row col) [] rows.

Definition with_prop (key : string) (v : JSValue) (row : JSValue) : JSValue :=
  match row with
  | JObj props => JObj (obj_set key v props)
  | _ => row
  end.

Definition merge (row updates : JSValue) : JSValue :=
  match row, updates with
  | JObj props, JObj us => JObj (spread props us)
  | _, _ => row
  end.

(** What a request the store accepts answers ([data]) and does. *)
Definition apply_op (op : StoreOp) (w : World) : JSValue * World :=
  match op with
  | Select t filters order =>
      let rows := filter (row_matches filters) (table t w) in
      (JArr (match order with Some col => order_by col rows | None => rows end), w)
  | Insert t row returning_id =>
      if returning_id then
        let id := new_id h w t in
        (JObj [("id", id)], set_table t (table t w ++ [with_prop "id" id row]) w)
      else (JNull, set_table t (table t w ++ [row]) w)
  | Update t updates filters =>
      (JNull,
       set_table t
         (map (fun r => if row_matches filters r then merge r updates else r) (table t w))
         w)
  end.

(** One awaited query: the request is recorded; the store refuses it with
    an error or carries it out. The answer is [{ data, error }]; awaiting
    it does not throw. *)
Definition request (op : StoreOp) : M (JSValue * option string) :=
  fun w =>
    let w1 := {| db := db w; trace := trace w ++ [EStore op] |} in
    match store_fault h w op with
    | Some msg => (Ret (JNull, Some msg), w1)
    | None => let (data, w2) := apply_op op w1 in (Ret (data, None), w2)
    end.

(** [.eq(column, value)]: the value enters the query as its text. *)
Definition eq_filter (column : string) (value : JSValue) : M (string * string) :=
  lift (s <-- ToString h value ;; Ret (column, s)).

(** supabase.ts, [getSupabase]. *)
Definition getSupabase : M unit :=
  match env h "SUPABASE_SERVICE_ROLE_KEY" with
  | Some key => if key =? "" then throw "Missing SUPABASE_SERVICE_ROLE_KEY" else ret tt
  | None => throw "Missing SUPABASE_SERVICE_ROLE_KEY"
  end.

Definition now_iso : M JSValue := fun w => (Ret (JStr (now h w)), w).

(** [data || []]. *)
Definition rows_of (data : JSValue) : list JSValue :=
  match data with
  | JArr rows => rows
  | _ => []
  end.

(** supabase.ts, [loadWorkflowSteps]. *)
Definition loadWorkflowSteps (automationId : JSValue) : M (list JSValue) :=
  getSupabase ;;;
  f <- eq_filter "automation_id" automationId ;;
  r <- request (Select "workflow_steps" [f] (Some "stepOrder")) ;;
  match snd r with
  | Some msg => throw ("loadWorkflowSteps failed: " ++ msg)
  | None => ret (rows_of (fst r))
  end.

(** supabase.ts, [loadMatchingAutomations]. *)
Definition loadMatchingAutomations (orgId : JSValue) (triggerType : string)
    (triggerValue : JSValue) : M (list JSValue) :=
  getSupabase ;;;
  f1 <- eq_filter "org_id" orgId ;;
  f2 <- eq_filter "status" (JStr "published") ;;
  f3 <- eq_filter "triggerType" (JStr triggerType) ;;
  fs <- (if truthy triggerValue
         then f4 <- eq_filter "triggerValue" triggerValue ;; ret [f1; f2; f3; f4]
         else ret [f1; f2; f3]) ;;
  r <- request (Select "automations" fs None) ;;
  match snd r with
  | Some msg => throw ("loadMatchingAutomations failed: " ++ msg)
  | None => ret (rows_of (fst r))
  end.

(** supabase.ts, [createWorkflowRun]. *)
Definition createWorkflowRun (params : JSValue) : M JSValue :=
  getSupabase ;;;
  r <- request (Insert "workflow_runs" params true) ;;
  match snd r with
  | Some msg => throw ("createWorkflowRun failed: " ++ msg)
  | None => ret (fst r)
  end.

(** supabase.ts, [updateWorkflowRun]. *)
Definition updateWorkflowRun (runId : JSValue) (updates : JSValue) : M unit :=
  getSupabase ;;;
  f <- eq_filter "id" runId ;;
  r <- request (Update "workflow_runs" updates [f]) ;;
  match snd r with
  | Some msg => throw ("updateWorkflowRun failed: " ++ msg)
  | None => ret tt
  end.

(** supabase.ts, [logStepExecution]. *)
Definition logStepExecution (params : JSValue) : M unit :=
  getSupabase ;;;
  r <- request (Insert "workflow_run_steps" params false) ;;
  match snd r with
  | Some msg => throw ("logStepExecution failed: " ++ msg)
  | None => ret tt
  end.

(* ================================================================== *)
(** ** Transports *)
(* ================================================================== *)

Record FetchResponse : Type := {
  resp_ok : bool;
  resp_status : JSValue;
  resp_text : string;
  resp_json : Outcome JSValue
}.

(** [await fetch(url, { method: "POST", ... })]. *)
Definition fetch (req : HttpRequest) : M FetchResponse :=
  fun w =>
    let w1 := {| db := db w; trace := trace w ++ [EFetch req] |} in
    match fetch_result h w req with
    | NetworkError msg => (Throw msg, w1)
    | Response ok status text json =>
        (Ret {| resp_ok := ok; resp_status := status; resp_text := text;
                resp_json := json |}, w1)
    end.

(** [data.key] where [data] is what [resp.json()] gave: reading a property
    of [null] or [undefined] throws. *)
Definition member (data : JSValue) (key : string) : Outcome JSValue :=
  match data with
  | JNull => Throw ("Cannot read properties of null (reading '" ++ key ++ "')")
  | JUndefined => Throw ("Cannot read properties of undefined (reading '" ++ key ++ "')")
  | _ => Ret (prop data key)
  end.

Definition env_or_empty (name : string) : string :=
  match env h name with Some v => v | None => "" end.

(** twilio.ts, [sendSms]; the result keeps [sid] and [status], the two
    fields the runner reads. *)
Definition sendSms (messagingServiceSid to body : string) : M (JSValue * JSValue) :=
  let accountSid := env_or_empty "TWILIO_ACCOUNT_SID" in
  let authToken := env_or_empty "TWILIO_AUTH_TOKEN" in
  if (accountSid =? "") || (authToken =? "") then
    throw "Missing TWILIO_ACCOUNT_SID or TWILIO_AUTH_TOKEN"
  else if match env h "TWILIO_DISABLED" with Some v => v =? "true" | None => false end then
    throw "Twilio is disabled via TWILIO_DISABLED env var"
  else
    resp <- fetch {| url := "https://api.twilio.com/2010-04-01/Accounts/"
                            ++ accountSid ++ "/Messages.json";
                     basic_auth := Some (accountSid, authToken);
                     body := FormBody [("MessagingServiceSid", messagingServiceSid);
                                       ("To", to); ("Body", body)] |} ;;
    data <- lift (resp_json resp) ;;
    if negb (resp_ok resp) then
      message <- lift (member data "message") ;;
      text <- lift (ToString h (js_or message (JStr (JSON_stringify h data)))) ;;
      throw ("Twilio send failed: " ++ text)
    else
      sid <- lift (member data "sid") ;;
      status <- lift (member data "status") ;;
      _ <- lift (member data "to") ;;
      _ <- lift (member data "body") ;;
      ret (sid, status).

(** twilio.ts, [ORG_MESSAGING_SERVICES] and [getMessagingServiceForOrg].
    The table is an object literal, so a slug that names a property of
    [Object.prototype] finds that property; the result is used as text. *)
Definition ORG_MESSAGING_SERVICES : JSValue :=
  JObj [ ("vector", JStr (env_or_empty "TWILIO_MS_VECTOR"));
         ("bmg", JStr (env_or_empty "TWILIO_MS_BMG"));
         ("stucco", JStr (env_or_empty "TWILIO_MS_STUCCO")) ].

Definition getMessagingServiceForOrg (orgSlug : string) : Outcome string :=
  let sid := get (Data ORG_MESSAGING_SERVICES) orgSlug in
  if negb (truthyV sid) then
    Throw ("No Messaging Service SID configured for org: " ++ orgSlug)
  else ToStringV h sid.

(* ================================================================== *)
(** ** Step executors (workflow-runner.ts) *)
(* ================================================================== *)

(** [Number(config.camel || config.snake || 0)]. *)
Definition delay (config : JSValue) (camel snake : string) : Outcome number :=
  ToNumber h (js_or (js_or (prop config camel) (prop config snake)) (JNum (num 0))).

Definition total_seconds (delayMinutes delayHours delayDays : number) : number :=
  num_add
    (num_add (num_mul delayMinutes (num 60)) (num_mul delayHours (num 3600)))
    (num_mul delayDays (num 86400)).

(** [executeWaitStep]; [wait.for] is the effect [EWait]. *)
Definition executeWaitStep (config : JSValue) : M JSValue :=
  delayMinutes <- lift (delay config "delayMinutes" "delay_minutes") ;;
  delayHours <- lift (delay config "delayHours" "delay_hours") ;;
  delayDays <- lift (delay config "delayDays" "delay_days") ;;
  let totalSeconds := total_seconds delayMinutes delayHours delayDays in
  if num_gt totalSeconds (num 0) then
    emit (EWait totalSeconds) ;;;
    ret (JObj [("waited", JBool true); ("seconds", JNum totalSeconds)])
  else
    ret (JObj [("waited", JBool false); ("reason", JStr "no delay configured")]).

Definition skipped (reason : string) : JSValue :=
  JObj [("skipped", JBool true); ("reason", JStr reason)].

(** [interpolate(String(v), context)]. *)
Definition interpolated (v context : JSValue) : M string :=
  lift (template <-- ToString h v ;; interpolate h template context).

(** [executeActionStep]; the warning logged for an unknown action type is
    not modelled. *)
Definition executeActionStep (actionType config context : JSValue) (orgSlug : string)
  : M JSValue :=
  if is_str actionType "send_sms" then
      to <- interpolated (js_or (prop config "to") (JStr "")) context ;;
      body <- interpolated
                (js_or (js_or (prop config "body") (prop config "message")) (JStr ""))
                context ;;
      if (to =? "") || (body =? "") then ret (skipped "missing to or body")
      else
        msSid <- lift (getMessagingServiceForOrg orgSlug) ;;
        result <- sendSms msSid to body ;;
        getSupabase ;;;
        _ <- request
               (Insert "messages"
                  (JObj [ ("org_id", prop context "orgId");
                          ("direction", JStr "outbound");
                          ("to_number", JStr to);
                          ("body", JStr body);
                          ("status", snd result);
                          ("twilio_sid", fst result);
                          ("channel", JStr "sms");
                          ("contact_id", js_or (prop context "contactId") JNull);
                          ("automation_id", js_or (prop context "automationId") JNull) ])
                  false) ;;
        ret (JObj [("sent", JBool true); ("sid", fst result); ("status", snd result)])
  else if is_str actionType "send_email" then
      to <- interpolated (js_or (prop config "to") (JStr "")) context ;;
      subject <- interpolated (js_or (prop config "subject") (JStr "")) context ;;
      body <- interpolated (js_or (prop config "body") (JStr "")) context ;;
      if (to =? "") || (subject =? "") || (body =? "") then
        ret (skipped "missing to, subject, or body")
      else
        let baseUrl :=
          match env h "CRM_BASE_URL" with
          | Some u => if u =? "" then "https://vector-crm.vercel.app" else u
          | None => "https://vector-crm.vercel.app"
          end in
        resp <- fetch {| url := baseUrl ++ "/api/send-email";
                         basic_auth := None;
                         body := JsonBody (JObj [ ("to", JStr to);
                                                  ("subject", JStr subject);
                                                  ("body", JStr body) ]) |} ;;
        if negb (resp_ok resp) then throw ("send-email failed: " ++ resp_text resp)
        else ret (JObj [("sent", JBool true); ("to", JStr to); ("subject", JStr subject)])
  else if is_str actionType "create_task" then
      title <- interpolated (js_or (prop config "title") (JStr "Follow up")) context ;;
      description <- interpolated (js_or (prop config "description") (JStr "")) context ;;
      dueInDays <- lift (ToNumber h (js_or (prop config "dueInDays") (JNum (num 1)))) ;;
      getSupabase ;;;
      due <- (fun w => (due_date h w dueInDays, w)) ;;
      entity <- lift (if truthy (prop context "entityId")
                      then e <-- ToString h (prop context "entityId") ;; Ret (JStr e)
                      else Ret JNull) ;;
      r <- request
             (Insert "tasks"
                (JObj [ ("org_id", prop context "orgId");
                        ("title", JStr title);
                        ("description", JStr description);
                        ("due_date", JStr due);
                        ("status", JStr "pending");
                        ("entity_type", js_or (prop context "entityType") JNull);
                        ("entity_id", entity);
                        ("assigned_to", js_or (prop config "assignedTo") JNull) ])
                true) ;;
      match snd r with
      | Some msg => throw ("create_task failed: " ++ msg)
      | None => ret (JObj [("created", JBool true); ("taskId", prop (fst r) "id")])
      end
  else if is_str actionType "update_field" then
      tbl <- lift (ToString h (js_or (prop config "table") (JStr ""))) ;;
      field <- lift (ToString h (js_or (prop config "field") (JStr ""))) ;;
      let value := prop config "value" in
      let entityId := prop context "entityId" in
      if (tbl =? "") || (field =? "") || negb (truthy entityId) then
        ret (skipped "missing table, field, or entityId")
      else
        getSupabase ;;;
        f <- eq_filter "id" entityId ;;
        r <- request (Update tbl (JObj [(field, value)]) [f]) ;;
        match snd r with
        | Some msg => throw ("update_field failed: " ++ msg)
        | None => ret (JObj [ ("updated", JBool true); ("table", JStr tbl);
                              ("field", JStr field); ("value", value) ])
        end
  else if is_str actionType "webhook" then
      target <- lift (ToString h (js_or (prop config "url") (JStr ""))) ;;
      if target =? "" then ret (skipped "no webhook URL")
      else
        resp <- fetch {| url := target; basic_auth := None; body := JsonBody context |} ;;
        ret (JObj [("sent", JBool true); ("status", resp_status resp)])
  else
      t <- lift (ToString h actionType) ;;
      ret (skipped ("unknown actionType: " ++ t)).

(* ================================================================== *)
(** ** The automation orchestrator *)
(* ================================================================== *)

Record WorkflowEventPayload : Type := {
  eventId : JSValue;
  orgId : JSValue;
  orgSlug : string;
  eventType : string;
  entityType : string;
  entityId : JSValue;
  payload : list (string * JSValue)
}.

(** [RunAutomationParams]: the automation and the fields of the event. *)
Record RunAutomationParams : Type := {
  automationId : JSValue;
  automationName : JSValue;
  event : WorkflowEventPayload
}.

(** The two variables of the loop. *)
Record LoopState : Type := {
  stepsExecuted : nat;
  shouldContinue : bool
}.

(** [{ orgId, orgSlug, entityId, ...payload }]. *)
Definition initial_context (e : WorkflowEventPayload) : JSValue :=
  JObj (spread [ ("orgId", orgId e); ("orgSlug", JStr (orgSlug e));
                 ("entityId", entityId e) ]
               (payload e)).

Definition stepTypeOf (step : JSValue) : JSValue :=
  js_or (js_or (prop step "stepType") (prop step "step_type")) (JStr "").
Definition actionTypeOf (step : JSValue) : JSValue :=
  js_or (js_or (prop step "actionType") (prop step "action_type")) (JStr "").
Definition configOf (step : JSValue) : JSValue :=
  js_or (prop step "config") (JObj []).
Definition stepOrderOf (step : JSValue) : JSValue :=
  js_or (prop step "stepOrder") (prop step "step_order").

(** The [switch (stepType)]: the result of the step and the new value of
    [shouldContinue]. *)
Definition executeStep (step context : JSValue) (slug : string) : M (JSValue * bool) :=
  let stepType := stepTypeOf step in
  let config := configOf step in
  if is_str stepType "Trigger" then
    ret (JObj [("skipped", JBool true); ("reason", JStr "trigger step")], true)
  else if is_str stepType "Wait" then
    result <- executeWaitStep config ;; ret (result, true)
  else if is_str stepType "Action" then
    result <- executeActionStep (actionTypeOf step) config context slug ;;
    ret (result, true)
  else if is_str stepType "Condition" then
    passed <- lift (evaluateCondition h config context) ;;
    if negb passed && truthy (prop config "stopOnFalse") then
      ret (JObj [("conditionPassed", JBool passed); ("stopped", JBool true)], false)
    else ret (JObj [("conditionPassed", JBool passed)], true)
  else
    t <- lift (ToString h stepType) ;;
    ret (skipped ("unknown stepType: " ++ t), true).

Definition step_log (runId step : JSValue) (status : string)
    (outcome : list (string * JSValue)) (startedAt completedAt : JSValue) : JSValue :=
  JObj ([ ("run_id", runId);
          ("step_id", prop step "id");
          ("step_order", stepOrderOf step);
          ("step_type", stepTypeOf step);
          ("action_type", actionTypeOf step);
          ("status", JStr status) ]
        ++ outcome
        ++ [ ("started_at", startedAt); ("completed_at", completedAt) ]).

(** The [try] block of one iteration. The message of [logger.info] is
    built first: its template converts three values to text. *)
Definition tryStep (runId context : JSValue) (slug : string) (step startedAt : JSValue)
    (st : LoopState) : M LoopState :=
  _ <- lift (ToString h (prop step "stepOrder")) ;;
  _ <- lift (ToString h (stepTypeOf step)) ;;
  _ <- lift (ToString h (actionTypeOf step)) ;;
  r <- executeStep step context slug ;;
  t <- now_iso ;;
  logStepExecution (step_log runId step "completed" [("result", fst r)] startedAt t) ;;;
  ret {| stepsExecuted := S (stepsExecuted st); shouldContinue := snd r |}.

(** The [catch] block: it logs the step as failed, fails the run and
    throws. *)
Definition catchStep (runId step startedAt : JSValue) (errMsg : string) : M LoopState :=
  _ <- lift (ToString h (prop step "stepOrder")) ;;
  t <- now_iso ;;
  logStepExecution
    (step_log runId step "failed" [("error_message", JStr errMsg)] startedAt t) ;;;
  t' <- now_iso ;;
  updateWorkflowRun runId
    (JObj [("status", JStr "failed"); ("error", JStr errMsg); ("completed_at", t')]) ;;;
  order <- lift (ToString h (prop step "stepOrder")) ;;
  action <- lift (ToString h (actionTypeOf step)) ;;
  throw ("Step " ++ order ++ " (" ++ action ++ ") failed: " ++ errMsg).

(** One iteration of [for (const step of steps)] past the [break]. *)
Definition runStep (runId context : JSValue) (slug : string) (step : JSValue)
    (st : LoopState) : M LoopState :=
  startedAt <- now_iso ;;
  try_catch (tryStep runId context slug step startedAt st)
            (catchStep runId step startedAt).

Fixpoint runSteps (runId context : JSValue) (slug : string) (steps : list JSValue)
    (st : LoopState) : M LoopState :=
  match steps with
  | [] => ret st
  | step :: rest =>
      if negb (shouldContinue st) then ret st
      else
        st' <- runStep runId context slug step st ;;
        runSteps runId context slug rest st'
  end.

Definition run_result (runId : JSValue) (n : nat) : JSValue :=
  JObj [("runId", runId); ("stepsExecuted", JNum (num (Z.of_nat n)))].

Definition complete_run (runId : JSValue) : M unit :=
  t <- now_iso ;;
  updateWorkflowRun runId (JObj [("status", JStr "completed"); ("completed_at", t)]).

(** The task [run-automation]. The message of the first [logger.info]
    converts the automation's name to text. *)
Definition runAutomation (params : RunAutomationParams) : M JSValue :=
  let e := event params in
  _ <- lift (ToString h (automationName params)) ;;
  run <- createWorkflowRun
           (JObj [ ("org_id", orgId e);
                   ("automation_id", automationId params);
                   ("event_id", eventId e);
                   ("status", JStr "running") ]) ;;
  let runId := prop run "id" in
  steps <- loadWorkflowSteps (automationId params) ;;
  match steps with
  | [] =>
      complete_run runId ;;;
      ret (run_result runId 0)
  | _ :: _ =>
      st <- runSteps runId (initial_context e) (orgSlug e) steps
              {| stepsExecuted := 0; shouldContinue := true |} ;;
      complete_run runId ;;;
      ret (run_result runId (stepsExecuted st))
  end.

(* ================================================================== *)
(** ** The event router *)
(* ================================================================== *)

Definition triggerTypeMap : JSValue :=
  JObj [ ("lead.created", JStr "contact_created");
         ("pipeline.stage_changed", JStr "pipeline_stage_change");
         ("quote.viewed", JStr "quote_viewed");
         ("quote.sent", JStr "quote_sent");
         ("quote.signed", JStr "quote_signed");
         ("sms.inbound", JStr "sms_received");
         ("project.status_changed", JStr "project_status_change");
         ("project.created", JStr "project_created");
         ("email.received", JStr "email_received") ].

(** [triggerTypeMap[eventType] || eventType], as the text the filter
    receives. *)
Definition triggerTypeOf (eventType : string) : string :=
  match get (Data triggerTypeMap) eventType with
  | Data (JStr t) => if t =? "" then eventType else t
  | Native b => native_text b
  | Data _ => eventType
  end.

(** [.update({ processed_at }).eq("id", eventId)]; the answer is not
    looked at. *)
Definition mark_processed (eventId : JSValue) : M unit :=
  getSupabase ;;;
  t <- now_iso ;;
  f <- eq_filter "id" eventId ;;
  _ <- request (Update "workflow_events" (JObj [("processed_at", t)]) [f]) ;;
  ret tt.

(** The first statements of [process-crm-event]: the automations the
    event is matched to. *)
Definition matchingAutomations (e : WorkflowEventPayload) : M (list JSValue) :=
  let triggerType := triggerTypeOf (eventType e) in
  let triggerValue := js_or (prop (JObj (payload e)) "triggerValue") JUndefined in
  loadMatchingAutomations (orgId e) triggerType triggerValue.

Definition automation_params (e : WorkflowEventPayload) (automation : JSValue)
  : RunAutomationParams :=
  {| automationId := prop automation "id";
     automationName := prop automation "name";
     event := e |}.

(** The loop over the matched automations: each is run as a child task
    and awaited; a child that throws is recorded as failed, after the
    message of [logger.error] has converted the automation's id to text. *)
Fixpoint dispatch (e : WorkflowEventPayload) (automations : list JSValue)
    (results : list JSValue) : M (list JSValue) :=
  match automations with
  | [] => ret results
  | automation :: rest =>
      entry <- try_catch
                 (result <- runAutomation (automation_params e automation) ;;
                  ret (JObj [ ("automationId", prop automation "id");
                              ("status", JStr "completed");
                              ("result", result) ]))
                 (fun errMsg =>
                    _ <- lift (ToString h (prop automation "id")) ;;
                    ret (JObj [ ("automationId", prop automation "id");
                                ("status", JStr "failed");
                                ("error", JStr errMsg) ])) ;;
      dispatch e rest (results ++ [entry])
  end.

(** The task [process-crm-event]. *)
Definition processEvent (e : WorkflowEventPayload) : M JSValue :=
  automations <- matchingAutomations e ;;
  match automations with
  | [] =>
      mark_processed (eventId e) ;;;
      ret (JObj [("matched", JNum (num 0))])
  | _ :: _ =>
      results <- dispatch e automations [] ;;
      mark_processed (eventId e) ;;;
      ret (JObj [ ("matched", JNum (num (Z.of_nat (List.length automations))));
                  ("results", JArr results) ])
  end.

End Runner.

(* ================================================================== *)
(** ** The event emitter (trigger/src/lib/supabase.ts) *)
(* ================================================================== *)

(** [Omit<CrmEvent, "id" | "created_at" | "processed_at">]. *)
Record CrmEvent : Type := {
  org_id : JSValue;
  event_type : string;
  entity_type : string;
  entity_id : JSValue;
  event_payload : JSValue
}.

Section Emitter.
Variable h : Host.

(** The row [emitEvent] inserts; [entity] is [String(event.entity_id)]. *)
Definition event_row (event : CrmEvent) (entity : string) : JSValue :=
  JObj [ ("org_id", org_id event);
         ("event_type", JStr (event_type event));
         ("entity_type", JStr (entity_type event));
         ("entity_id", JStr entity);
         ("payload", event_payload event) ].

(** supabase.ts, [emitEvent]. *)
Definition emitEvent (event : CrmEvent) : M JSValue :=
  getSupabase h ;;;
  entity <- lift (ToString h (entity_id event)) ;;
  r <- request h (Insert "workflow_events" (event_row event entity) true) ;;
  match snd r with
  | Some msg => throw ("emitEvent failed: " ++ msg)
  | None => ret (fst r)
  end.

End Emitter.

(* ================================================================== *)
(** ** The API routes *)
(* ================================================================== *)

(** An HTTP request a route sends: [fetch(url, { method, headers, body })].
    [call_body] is the value given to [JSON.stringify], [None] when the
    request has no body. The answer to a call is a [FetchResult], whose
    [json] is the parse of its [text]. *)
Record Call : Type := {
  call_url : string;
  call_method : string;
  call_headers : list (string * JSValue);
  call_body : option JSValue
}.

(** What a route reads of the request it serves. *)
Record Request : Type := {
  method : string;
  req_body : JSValue
}.

Inductive Payload : Type :=
| NoPayload
| Text (s : string)
| Json (v : JSValue).

(** [res.status(code)] with the headers set before, ended by [end()],
    [send(text)] or [json(value)]. *)
Record Reply : Type := {
  status : nat;
  reply_headers : list (string * string);
  content : Payload
}.

(** The services a route calls and its clock, each a function of the
    calls made so far. *)
Record Remote : Type := {
  answer : list Call -> Call -> FetchResult;
  clock : list Call -> string
}.

(** A route acts by the calls it makes and may throw. *)
Definition Route (A : Type) : Type := list Call -> Outcome A * list Call.

Definition pure {A : Type} (a : A) : Route A := fun calls => (Ret a, calls).
Definition raise {A : Type} (c : Outcome A) : Route A := fun calls => (c, calls).
Definition and_then {A B : Type} (c : Route A) (k : A -> Route B) : Route B :=
  fun calls => match c calls with
               | (Ret a, calls') => k a calls'
               | (Throw msg, calls') => (Throw msg, calls')
               end.
(** [try { body } catch (e) { handler(e.message) }]. *)
Definition attempt {A : Type} (body : Route A) (handler : string -> Route A) : Route A :=
  fun calls => match body calls with
               | (Ret a, calls') => (Ret a, calls')
               | (Throw msg, calls') => handler msg calls'
               end.

Notation "x <~ c ;; k" := (and_then c (fun x => k))
  (at level 61, c at next level, right associativity).

Definition DEFAULT_SUPABASE_URL : string := "https://ilbrtyoeqrbkbbotoopu.supabase.co".

(** [process.env.SUPABASE_URL || DEFAULT_SUPABASE_URL]. *)
Definition supabase_url (h : Host) : string :=
  match env h "SUPABASE_URL" with
  | Some u => if u =? "" then DEFAULT_SUPABASE_URL else u
  | None => DEFAULT_SUPABASE_URL
  end.

(** A variable of the environment that is set and not empty. *)
Definition variable (h : Host) (name : string) : option string :=
  match env h name with
  | Some v => if v =? "" then None else Some v
  | None => None
  end.

(** [await fetch(...)]. *)
Definition call (r : Remote) (c : Call) : Route FetchResponse :=
  fun calls =>
    match answer r calls c with
    | NetworkError msg => (Throw msg, (calls ++ [c])%list)
    | Response ok status text json =>
        (Ret {| resp_ok := ok; resp_status := status; resp_text := text;
                resp_json := json |}, (calls ++ [c])%list)
    end.

(** [v[0]]. *)
Definition first_item (v : JSValue) : JSValue :=
  match v with
  | JArr (x :: _) => x
  | JObj props => prop v "0"
  | JStr (String c _) => JStr (String c "")
  | _ => JUndefined
  end.

(** encodeURIComponent keeps [A-Z a-z 0-9 - _ . ! ~ * ' ( )] and writes
    every other byte of the UTF-8 text as a percent sign and two
    upper-case hexadecimal digits. *)
Definition unreserved (c : ascii) : bool :=
  let n := nat_of_ascii c in
  ((48 <=? n)%nat && (n <=? 57)%nat) || ((65 <=? n)%nat && (n <=? 90)%nat)
  || ((97 <=? n)%nat && (n <=? 122)%nat)
  || existsb (Ascii.eqb c) ["-"; "_"; "."; "!"; "~"; "*"; "'"; "("; ")"]%char.

Definition hex_digit (n : nat) : ascii :=
  nth n ["0"; "1"; "2"; "3"; "4"; "5"; "6"; "7"; "8"; "9";
         "A"; "B"; "C"; "D"; "E"; "F"]%char "0"%char.

Definition percent_encoded (c : ascii) : string :=
  let n := nat_of_ascii c in
  String "%" (String (hex_digit (n / 16)) (String (hex_digit (n mod 16)) "")).

Fixpoint encodeURIComponent (s : string) : string :=
  match s with
  | EmptyString => ""
  | String c rest =>
      (if unreserved c then String c "" else percent_encoded c)
      ++ encodeURIComponent rest
  end.

(** *** api/trigger-event.js *)

Module TriggerEvent.

(** What [sbRest] returns. *)
Record Answer : Type := {
  ok : bool;
  answer_status : JSValue;
  json : JSValue;
  text : string
}.

Definition cors : list (string * string) :=
  [ ("Access-Control-Allow-Origin", "*");
    ("Access-Control-Allow-Methods", "POST, OPTIONS");
    ("Access-Control-Allow-Headers", "Content-Type, Authorization") ].

Definition reply (code : nat) (body : Payload) : Reply :=
  {| status := code; reply_headers := cors; content := body |}.

Definition error (message : string) : Payload := Json (JObj [("error", JStr message)]).

Section Routes.
Variable h : Host.
Variable r : Remote.

(** [sbRest]: one request to the store's REST interface. A body that
    cannot be read counts as the empty text, and a text that is not JSON
    leaves [json] null. *)
Definition sbRest (supabaseUrl serviceKey path method : string) (body : JSValue)
    (headers : list (string * JSValue)) : Route Answer :=
  resp <~ call r {| call_url := supabaseUrl ++ path;
                    call_method := method;
                    call_headers :=
                      spread [ ("apikey", JStr serviceKey);
                               ("Authorization", JStr ("Bearer " ++ serviceKey));
                               ("Content-Type", JStr "application/json") ]
                             headers;
                    call_body := if truthy body then Some body else None |} ;;
  pure {| ok := resp_ok resp;
          answer_status := resp_status resp;
          json := if resp_text resp =? "" then JNull
                  else match resp_json resp with
                       | Ret v => v
                       | Throw _ => JNull
                       end;
          text := resp_text resp |}.

(** The row the route inserts. *)
Definition event_record (orgId eventType entityType : JSValue) (entity : string)
    (payload : JSValue) : JSValue :=
  JObj [ ("org_id", orgId);
         ("event_type", eventType);
         ("entity_type", entityType);
         ("entity_id", JStr entity);
         ("payload", js_or payload (JObj [])) ].

(** The payload the task [process-crm-event] is triggered with. *)
Definition task_payload (eventId orgId orgSlug eventType entityType entityId payload : JSValue)
  : JSValue :=
  JObj [ ("payload",
          JObj [ ("eventId", eventId);
                 ("orgId", orgId);
                 ("orgSlug", js_or orgSlug (JStr ""));
                 ("eventType", eventType);
                 ("entityType", entityType);
                 ("entityId", js_or entityId (JStr ""));
                 ("payload", js_or payload (JObj [])) ]) ].

Definition trigger_call (triggerApiKey : string) (body : JSValue) : Call :=
  {| call_url := "https://api.trigger.dev/api/v1/tasks/process-crm-event/trigger";
     call_method := "POST";
     call_headers := [ ("Content-Type", JStr "application/json");
                       ("Authorization", JStr ("Bearer " ++ triggerApiKey)) ];
     call_body := Some body |}.

(** The [try] block that invokes the task: the JSON of an answer that is
    ok, a note of the status of one that is not, or the message of the
    error, is the [trigger] field of the reply. The text of an answer
    that is not ok is read for the log only. *)
Definition invoke (triggerApiKey : string) (body : JSValue) : Route JSValue :=
  attempt
    (triggerResp <~ call r (trigger_call triggerApiKey body) ;;
     if resp_ok triggerResp then raise (resp_json triggerResp)
     else pure (JObj [ ("error", JStr "Trigger.dev call failed");
                       ("status", resp_status triggerResp) ]))
    (fun message => pure (JObj [("error", JStr message)])).

(** trigger-event.js, [handler]. *)
Definition handler (req : Request) : Route Reply :=
  if method req =? "OPTIONS" then pure (reply 200 NoPayload)
  else if negb (method req =? "POST") then pure (reply 405 (error "Method not allowed"))
  else
    match variable h "SUPABASE_SERVICE_ROLE_KEY" with
    | None => pure (reply 500 (error "Missing SUPABASE_SERVICE_ROLE_KEY"))
    | Some serviceKey =>
        attempt
          (let body := js_or (req_body req) (JObj []) in
           let orgId := prop body "orgId" in
           let orgSlug := prop body "orgSlug" in
           let eventType := prop body "eventType" in
           let entityType := prop body "entityType" in
           let entityId := prop body "entityId" in
           let payload := prop body "payload" in
           if negb (truthy orgId) || negb (truthy eventType) || negb (truthy entityType)
           then pure (reply 400 (error "Missing required: orgId, eventType, entityType"))
           else
             entity <~ raise (ToString h (js_or entityId (JStr ""))) ;;
             insertResp <~ sbRest (supabase_url h) serviceKey "/rest/v1/workflow_events"
                             "POST" (event_record orgId eventType entityType entity payload)
                             [("Prefer", JStr "return=representation")] ;;
             if negb (ok insertResp) then
               pure (reply 500 (Json (JObj [ ("error", JStr "Failed to insert event");
                                             ("details", JStr (text insertResp)) ])))
             else
               let eventRow := first_item (js_or (json insertResp) (JArr [])) in
               let eventId := prop eventRow "id" in
               triggerResult <~
                 match variable h "TRIGGER_SECRET_KEY" with
                 | Some triggerApiKey =>
                     invoke triggerApiKey
                       (task_payload eventId orgId orgSlug eventType entityType entityId
                                     payload)
                 | None =>
                     pure (JObj [ ("skipped", JBool true);
                                  ("reason", JStr "TRIGGER_SECRET_KEY not configured") ])
                 end ;;
               pure (reply 200 (Json (JObj [ ("ok", JBool true); ("eventId", eventId);
                                             ("trigger", triggerResult) ]))))
          (fun message =>
             pure (reply 500 (Json (JObj [ ("error", JStr "Server error");
                                           ("details", JStr message) ]))))
    end.

End Routes.
End TriggerEvent.

(** *** api/twilio-status.js *)

Module TwilioStatus.

Definition done : Reply := {| status := 200; reply_headers := []; content := NoPayload |}.

Section Routes.
Variable h : Host.
Variable r : Remote.

(** [{ status, ...(errorCode ? { error_code } : {}),
       ...(errorMessage ? { error_message } : {}), updated_at }]. *)
Definition updateBody (messageStatus errorCode errorMessage : JSValue) (time : string)
  : JSValue :=
  JObj (obj_set "updated_at" (JStr time)
          (spread
             (spread [("status", messageStatus)]
                     (if truthy errorCode then [("error_code", errorCode)] else []))
             (if truthy errorMessage then [("error_message", errorMessage)] else []))).

Definition update_call (serviceKey sid : string) (body : JSValue) : Call :=
  {| call_url := supabase_url h ++ "/rest/v1/messages?twilio_sid=eq."
                 ++ encodeURIComponent sid;
     call_method := "PATCH";
     call_headers := [ ("apikey", JStr serviceKey);
                       ("Authorization", JStr ("Bearer " ++ serviceKey));
                       ("Content-Type", JStr "application/json");
                       ("Prefer", JStr "return=minimal") ];
     call_body := Some body |}.

(** twilio-status.js, [handler]. *)
Definition handler (req : Request) : Route Reply :=
  if negb (method req =? "POST") then
    pure {| status := 405; reply_headers := []; content := Text "Method not allowed" |}
  else
    match variable h "SUPABASE_SERVICE_ROLE_KEY" with
    | None => pure done
    | Some serviceKey =>
        attempt
          (let body := js_or (req_body req) (JObj []) in
           let messageSid := prop body "MessageSid" in
           let messageStatus := prop body "MessageStatus" in
           let errorCode := prop body "ErrorCode" in
           let errorMessage := prop body "ErrorMessage" in
           if negb (truthy messageSid) || negb (truthy messageStatus) then pure done
           else
             sid <~ raise (ToString h messageSid) ;;
             time <~ (fun calls => (Ret (clock r calls), calls)) ;;
             _ <~ call r (update_call serviceKey sid
                            (updateBody messageStatus errorCode errorMessage time)) ;;
             pure done)
          (fun _ => pure done)
    end.

End Routes.
End TwilioStatus.

(** *** api/twilio-inbound.js *)

Module TwilioInbound.

Section Routes.
Variable h : Host.

(** [Number(process.env.NAME || fallback)]. *)
Definition org_number (name : string) (fallback : Z) : JSValue :=
  match variable h name with
  | Some v => JNum (StringToNumber h v)
  | None => JNum (num fallback)
  end.

Definition org_entry (slug : string) (name : string) (fallback : Z) : JSValue :=
  JObj [("slug", JStr slug); ("orgId", org_number name fallback)].

(** The object literal with computed keys: a key written twice keeps its
    place and takes the later value. *)
Definition org_map : JSValue :=
  JObj (spread []
          [ (env_or_empty h "TWILIO_MS_VECTOR", org_entry "vector" "ORG_ID_VECTOR" 1);
            (env_or_empty h "TWILIO_MS_BMG", org_entry "bmg" "ORG_ID_BMG" 2);
            (env_or_empty h "TWILIO_MS_STUCCO", org_entry "stucco" "ORG_ID_STUCCO" 3) ]).

(** twilio-inbound.js, [getOrgForMessagingService]: [map[msSid] || null]. *)
Definition getOrgForMessagingService (msSid : JSValue) : Outcome Value :=
  key <-- ToString h msSid ;;
  let found := get (Data org_map) key in
  Ret (if truthyV found then found else Data JNull).

End Routes.
End TwilioInbound.

(* ================================================================== *)
(** ** Notions the statements use *)
(* ================================================================== *)

(** [x > 0] fails exactly on NaN, the zeros and the negative numbers. *)
Definition not_positive (x : number) : Prop := num_gt x (num 0) = false.

(** The store client can be built: the service key is in the environment. *)
Definition configured (h : Host) : Prop := getSupabase h = ret tt.

(** The store refuses no request. *)
Definition reliable (h : Host) : Prop := forall w op, store_fault h w op = None.

(** The world after a request that the store accepts. *)
Definition stored (h : Host) (op : StoreOp) (w : World) : World :=
  snd (apply_op h op {| db := db w; trace := trace w ++ [EStore op] |}).


(** The run record exists and the steps of the automation are loaded:
    [runId] is the id of the run, [steps] the steps in execution order and
    [w2] the world in which the loop starts. *)
Definition run_started (h : Host) (params : RunAutomationParams) (w : World)
    (runId : JSValue) (steps : list JSValue) (w2 : World) : Prop :=
  exists name run w1,
    ToString h (automationName params) = Ret name
    /\ createWorkflowRun h
         (JObj [ ("org_id", orgId (event params));
                 ("automation_id", automationId params);
                 ("event_id", eventId (event params));
                 ("status", JStr "running") ]) w = (Ret run, w1)
    /\ runId = prop run "id"
    /\ loadWorkflowSteps h (automationId params) w1 = (Ret steps, w2).

(** The loop starts with no step executed and [shouldContinue] set. *)
Definition first_state : LoopState := {| stepsExecuted := 0; shouldContinue := true |}.

(** The world after the matched automations have been run one after the
    other. *)
Definition dispatched (h : Host) (e : WorkflowEventPayload) (automations : list JSValue)
    (w : World) : World :=
  fold_left (fun w a => snd (runAutomation h (automation_params e a) w)) automations w.

(* ================================================================== *)
(** ** The operator table of the specification *)
(* ================================================================== *)

Definition known_operators : list string :=
  [ "equals"; "not_equals"; "contains"; "not_contains";
    "greater_than"; "less_than"; "is_empty"; "is_not_empty" ].

(** The falsy-or-nullish test. *)
Definition falsy_or_nullish (actual : Value) : bool :=
  negb (truthyV actual)
  || match actual with Data JNull | Data JUndefined => true | _ => false end.

(** The table as the specification words it: [a] and [v] are the texts of
    the resolved value and of [config.value], [na] and [nv] their numbers.
    An operator outside the table answers false. *)
Definition spec_operator_table (operator : string) (actual : Value)
    (a v : string) (na nv : number) : bool :=
  if operator =? "equals" then a =? v
  else if operator =? "not_equals" then negb (a =? v)
  else if operator =? "contains" then includes a v
  else if operator =? "not_contains" then negb (includes a v)
  else if operator =? "greater_than" then num_gt na nv
  else if operator =? "less_than" then num_lt na nv
  else if operator =? "is_empty" then falsy_or_nullish actual
  else if operator =? "is_not_empty" then negb (falsy_or_nullish actual)
  else false.

(* ================================================================== *)
(** ** Templates as the specification reads them *)
(* ================================================================== *)









(* ================================================================== *)
(** ** Notions of the further properties *)
(* ================================================================== *)

(** The world after one more effect. *)
Definition after (e : Effect) (w : World) : World :=
  {| db := db w; trace := trace w ++ [e] |}.

(** A key: a property name without a dot. *)
Fixpoint dot_free (s : string) : bool :=
  match s with
  | EmptyString => true
  | String c rest => negb (c =? ".")%char && dot_free rest
  end.

(** [c] relates every world to the world it leaves, whether it returns or
    throws. *)
Definition keeps {A : Type} (R : World -> World -> Prop) (c : M A) : Prop :=
  forall w, R w (snd (c w)).

(** The number of step records. *)
Definition logged (w : World) : nat := List.length (table "workflow_run_steps" w).

Definition same_log (w w' : World) : Prop := logged w' = logged w.

(** The request [sendSms] posts. *)
Definition sms_request (h : Host) (messagingServiceSid to body : string) : HttpRequest :=
  {| url := "https://api.twilio.com/2010-04-01/Accounts/"
            ++ env_or_empty h "TWILIO_ACCOUNT_SID" ++ "/Messages.json";
     basic_auth := Some (env_or_empty h "TWILIO_ACCOUNT_SID",
                         env_or_empty h "TWILIO_AUTH_TOKEN");
     body := FormBody [("MessagingServiceSid", messagingServiceSid);
                       ("To", to); ("Body", body)] |}.

(** The credentials are set and the kill switch is off. *)
Definition sms_enabled (h : Host) : Prop :=
  env_or_empty h "TWILIO_ACCOUNT_SID" <> ""
  /\ env_or_empty h "TWILIO_AUTH_TOKEN" <> ""
  /\ env h "TWILIO_DISABLED" <> Some "true".

(** The organisations of [ORG_MESSAGING_SERVICES] and the variables that
    configure them. *)
Definition messaging_service_variables : list (string * string) :=
  [ ("vector", "TWILIO_MS_VECTOR"); ("bmg", "TWILIO_MS_BMG");
    ("stucco", "TWILIO_MS_STUCCO") ].

(** The row a [send_sms] action records. *)
Definition message_row (context : JSValue) (to body : string) (sid status : JSValue)
  : JSValue :=
  JObj [ ("org_id", prop context "orgId");
         ("direction", JStr "outbound");
         ("to_number", JStr to);
         ("body", JStr body);
         ("status", status);
         ("twilio_sid", sid);
         ("channel", JStr "sms");
         ("contact_id", js_or (prop context "contactId") JNull);
         ("automation_id", js_or (prop context "automationId") JNull) ].

(** [process.env.CRM_BASE_URL || "https://vector-crm.vercel.app"]. *)
Definition crm_base_url (h : Host) : string :=
  match env h "CRM_BASE_URL" with
  | Some u => if u =? "" then "https://vector-crm.vercel.app" else u
  | None => "https://vector-crm.vercel.app"
  end.

(** The request a [send_email] action posts. *)
Definition email_request (h : Host) (to subject body : string) : HttpRequest :=
  {| url := crm_base_url h ++ "/api/send-email";
     basic_auth := None;
     body := JsonBody (JObj [("to", JStr to); ("subject", JStr subject);
                             ("body", JStr body)]) |}.

(** The row a [create_task] action inserts. *)
Definition task_row (config context : JSValue) (title description due : string)
    (entity : JSValue) : JSValue :=
  JObj [ ("org_id", prop context "orgId");
         ("title", JStr title);
         ("description", JStr description);
         ("due_date", JStr due);
         ("status", JStr "pending");
         ("entity_type", js_or (prop context "entityType") JNull);
         ("entity_id", entity);
         ("assigned_to", js_or (prop config "assignedTo") JNull) ].




(* ================================================================== *)
(** ** A host and data for the examples *)
(* ================================================================== *)

(** The examples run on a host whose store never refuses a request and
    whose transports answer every request with success. Numbers are
    printed and read as decimal integers, which is all the examples use. *)
Module Example.

Definition integer_value (n : number) : option Z :=
  match n with
  | S754_zero _ => Some 0%Z
  | S754_finite s m e =>
      if (0 <=? e)%Z
      then Some ((if s then -1 else 1) * (Z.pos m * 2 ^ e))%Z
      else if (Z.pos m mod 2 ^ (- e) =? 0)%Z
           then Some ((if s then -1 else 1) * (Z.pos m / 2 ^ (- e)))%Z
           else None
  | _ => None
  end.

Definition print_number (n : number) : string :=
  match integer_value n with
  | Some z => NilZero.string_of_int (Z.to_int z)
  | None =>
      match n with
      | S754_infinity false => "Infinity"
      | S754_infinity true => "-Infinity"
      | _ => "NaN"
      end
  end.

Definition read_number (s : string) : number :=
  match s with
  | EmptyString => num 0
  | _ => match NilEmpty.int_of_string s with
         | Some d => num (Z.of_int d)
         | None => nan
         end
  end.

Definition environment (name : string) : option string :=
  if name =? "SUPABASE_SERVICE_ROLE_KEY" then Some "service-role-key"
  else if name =? "TWILIO_ACCOUNT_SID" then Some "AC0001"
  else if name =? "TWILIO_AUTH_TOKEN" then Some "token"
  else if name =? "TWILIO_MS_VECTOR" then Some "MG0001"
  else None.

Definition host : Host :=
  {| NumberToString := print_number;
     StringToNumber := read_number;
     JSON_stringify := fun _ => "{}";
     env := environment;
     now := fun w => "T" ++ index_key (List.length (trace w));
     due_date := fun _ _ => Ret "2026-01-02";
     store_fault := fun _ _ => None;
     new_id := fun w t => JNum (num (Z.of_nat (S (List.length (table t w)))));
     fetch_result := fun _ _ =>
       Response true (JNum (num 200)) "ok"
                (Ret (JObj [("sid", JStr "SM0001"); ("status", JStr "queued")])) |}.

(** The context of the condition table: [{ count: 5 }]. *)
Definition count_context : JSValue := JObj [("count", JNum (num 5))].

Definition condition (field operator : string) (value : JSValue) : JSValue :=
  JObj [("field", JStr field); ("operator", JStr operator); ("value", value)].

Definition empty_world : World := {| db := []; trace := [] |}.

(** An event whose payload names [orgId] itself. *)
Definition hijacking_event : WorkflowEventPayload :=
  {| eventId := JNum (num 7);
     orgId := JStr "org-1";
     orgSlug := "vector";
     eventType := "pipeline.stage_changed";
     entityType := "project";
     entityId := JStr "p-9";
     payload := [("orgId", JStr "org-2"); ("stage", JStr "won")] |}.

(** A store with one published automation that names a trigger value. *)
Definition won_automation : JSValue :=
  JObj [ ("id", JStr "a-1"); ("org_id", JStr "org-1"); ("name", JStr "Deal won");
         ("status", JStr "published");
         ("triggerType", JStr "pipeline_stage_change");
         ("triggerValue", JStr "won") ].

Definition crm_world : World :=
  {| db := [("automations", [won_automation])]; trace := [] |}.

(** A stage change that carries no [triggerValue], and one that does. *)
Definition stage_event (fields : list (string * JSValue)) : WorkflowEventPayload :=
  {| eventId := JNum (num 7);
     orgId := JStr "org-1";
     orgSlug := "vector";
     eventType := "pipeline.stage_changed";
     entityType := "project";
     entityId := JStr "p-9";
     payload := fields |}.

(** An automation of four steps for inbound SMS: the entry marker, a
    condition that stops the run unless the body contains STOP, a reply,
    and a wait. *)
Definition trigger_step : JSValue :=
  JObj [ ("id", JNum (num 11)); ("automation_id", JStr "a-2");
         ("stepOrder", JNum (num 1)); ("stepType", JStr "Trigger") ].

Definition condition_step : JSValue :=
  JObj [ ("id", JNum (num 12)); ("automation_id", JStr "a-2");
         ("stepOrder", JNum (num 2)); ("stepType", JStr "Condition");
         ("config", JObj [ ("field", JStr "body"); ("operator", JStr "contains");
                           ("value", JStr "STOP"); ("stopOnFalse", JBool true) ]) ].

Definition reply_step : JSValue :=
  JObj [ ("id", JNum (num 13)); ("automation_id", JStr "a-2");
         ("stepOrder", JNum (num 3)); ("stepType", JStr "Action");
         ("actionType", JStr "send_sms");
         ("config", JObj [("to", JStr "{{from}}"); ("body", JStr "Goodbye")]) ].

Definition wait_step : JSValue :=
  JObj [ ("id", JNum (num 14)); ("automation_id", JStr "a-2");
         ("stepOrder", JNum (num 4)); ("stepType", JStr "Wait");
         ("config", JObj [("delayMinutes", JNum (num 5))]) ].

Definition sms_automation : JSValue :=
  JObj [ ("id", JStr "a-2"); ("org_id", JStr "org-1"); ("name", JStr "Opt out");
         ("status", JStr "published"); ("triggerType", JStr "sms_received") ].

Definition sms_world : World :=
  {| db := [ ("automations", [sms_automation]);
             ("workflow_steps", [wait_step; condition_step; trigger_step; reply_step]);
             ("workflow_events", [JObj [("id", JNum (num 7))]]) ];
     trace := [] |}.

(** An inbound SMS with the given body, for the organisation with the
    given slug. *)
Definition sms_event (text slug : string) : WorkflowEventPayload :=
  {| eventId := JNum (num 7);
     orgId := JStr "org-1";
     orgSlug := slug;
     eventType := "sms.inbound";
     entityType := "contact";
     entityId := JStr "c-9";
     payload := [("body", JStr text); ("from", JStr "+15550100")] |}.

Definition sms_run (text slug : string) : RunAutomationParams :=
  automation_params (sms_event text slug) sms_automation.

(** An automation without steps. *)
Definition empty_automation : JSValue :=
  JObj [ ("id", JStr "a-3"); ("org_id", JStr "org-1"); ("name", JStr "Nothing yet");
         ("status", JStr "published"); ("triggerType", JStr "sms_received") ].

Definition empty_run : RunAutomationParams :=
  automation_params (sms_event "hello" "vector") empty_automation.



(** The world in which the loop of that run starts: the run record is
    created and the steps are loaded. *)
Definition sms_run_record (text slug : string) : JSValue :=
  JObj [ ("org_id", orgId (sms_event text slug));
         ("automation_id", JStr "a-2");
         ("event_id", eventId (sms_event text slug));
         ("status", JStr "running") ].

Definition sms_run_created (text slug : string) : World :=
  snd (createWorkflowRun host (sms_run_record text slug) sms_world).

Definition sms_run_loaded (text slug : string) : World :=
  snd (loadWorkflowSteps host (JStr "a-2") (sms_run_created text slug)).


End Example.

(** Other hosts and data, for the further properties. *)
Module Cases.

Definition with_env (h : Host) (variables : string -> option string) : Host :=
  {| NumberToString := NumberToString h;
     StringToNumber := StringToNumber h;
     JSON_stringify := JSON_stringify h;
     env := variables;
     now := now h;
     due_date := due_date h;
     store_fault := store_fault h;
     new_id := new_id h;
     fetch_result := fetch_result h |}.

Definition with_store_fault (h : Host) (fault : World -> StoreOp -> option string) : Host :=
  {| NumberToString := NumberToString h;
     StringToNumber := StringToNumber h;
     JSON_stringify := JSON_stringify h;
     env := env h;
     now := now h;
     due_date := due_date h;
     store_fault := fault;
     new_id := new_id h;
     fetch_result := fetch_result h |}.

Definition with_fetch_result (h : Host) (answer : World -> HttpRequest -> FetchResult)
  : Host :=
  {| NumberToString := NumberToString h;
     StringToNumber := StringToNumber h;
     JSON_stringify := JSON_stringify h;
     env := env h;
     now := now h;
     due_date := due_date h;
     store_fault := store_fault h;
     new_id := new_id h;
     fetch_result := answer |}.

(** A process without any variable. *)
Definition bare_host : Host := with_env Example.host (fun _ => None).

(** A store that refuses every request. *)
Definition refusing_host : Host :=
  with_store_fault Example.host (fun _ _ => Some "timeout").

(** Services that answer every request with an error status. *)
Definition failing_host : Host :=
  with_fetch_result Example.host
    (fun _ _ => Response false (JNum (num 503)) "unavailable"
                         (Ret (JObj [("message", JStr "Service unavailable")]))).

(** The context of an inbound SMS. *)
Definition sms_context : JSValue := initial_context (Example.sms_event "STOP" "vector").

Definition reply_config : JSValue :=
  JObj [("to", JStr "{{from}}"); ("body", JStr "Goodbye")].

Definition email_config : JSValue :=
  JObj [ ("to", JStr "ops@example.com"); ("subject", JStr "SMS from {{from}}");
         ("body", JStr "{{body}}") ].

Definition task_config : JSValue :=
  JObj [("title", JStr "Call {{from}}"); ("dueInDays", JNum (num 2))].



Definition sms_crm_event : CrmEvent :=
  {| org_id := JStr "org-1";
     event_type := "sms.inbound";
     entity_type := "contact";
     entity_id := JNum (num 9);
     event_payload := JObj [("body", JStr "STOP")] |}.

(** A process that also holds the key of the task service. *)
Definition triggering_host : Host :=
  with_env Example.host
    (fun name => if name =? "TRIGGER_SECRET_KEY" then Some "tr_secret"
                 else Example.environment name).

(** A store that returns the inserted row, and a task service that cannot
    be reached. *)
Definition remote : Remote :=
  {| answer := fun _ c =>
       if prefix "https://api.trigger.dev/" (call_url c)
       then NetworkError "fetch failed"
       else Response true (JNum (num 201)) "[{}]"
                     (Ret (JArr [JObj [("id", JNum (num 42))]]));
     clock := fun _ => "2026-01-01T00:00:00.000Z" |}.

Definition inbound_request : Request :=
  {| method := "POST";
     req_body := JObj [ ("orgId", JNum (num 1)); ("orgSlug", JStr "vector");
                        ("eventType", JStr "sms.inbound");
                        ("entityType", JStr "message");
                        ("entityId", JStr "SM0001");
                        ("payload", JObj [("body", JStr "STOP")]) ] |}.

Definition status_request : Request :=
  {| method := "POST";
     req_body := JObj [ ("MessageSid", JStr "SM0001");
                        ("MessageStatus", JStr "undelivered");
                        ("ErrorCode", JStr "30003") ] |}.

End Cases.

(* ================================================================== *)
(** * Properties *)
(* ================================================================== *)

(** ** Objects *)

Lemma assoc_app {A : Type} (key : string) (l1 l2 : list (string * A)) :
  assoc key (l1 ++ l2)
  = match assoc key l1 with Some v => Some v | None => assoc key l2 end.
Proof.
  induction l1 as [|[k v] l1 IH]; simpl; [reflexivity|].
  destruct (k =? key); [reflexivity | exact IH].
Qed.

Lemma assoc_obj_set (key k : string) (v : JSValue) (props : list (string * JSValue)) :
  assoc key (obj_set k v props) = if k =? key then Some v else assoc key props.
Proof.
  induction props as [|[k0 x] rest IH]; simpl.
  - destruct (k =? key); reflexivity.
  - destruct (k0 =? k) eqn:E0; simpl.
    + apply String.eqb_eq in E0; subst k0.
      destruct (k =? key); reflexivity.
    + destruct (k0 =? key) eqn:E1.
      * apply String.eqb_eq in E1; subst k0.
        rewrite String.eqb_sym, E0. reflexivity.
      * exact IH.
Qed.

(** In a spread the last definition of a key wins. *)
Lemma assoc_spread (key : string) (extra base : list (string * JSValue)) :
  assoc key (spread base extra)
  = match assoc key (rev extra) with Some v => Some v | None => assoc key base end.
Proof.
  unfold spread. revert base.
  induction extra as [|[k v] rest IH]; intro base; simpl; [reflexivity|].
  rewrite IH, assoc_app, assoc_obj_set. simpl.
  destruct (assoc key (rev rest)); [reflexivity|].
  destruct (k =? key); reflexivity.
Qed.

Lemma assoc_not_in {A : Type} (key : string) (l : list (string * A)) :
  ~ In key (map fst l) -> assoc key l = None.
Proof.
  induction l as [|[k v] l IH]; simpl; intro H; [reflexivity|].
  destruct (k =? key) eqn:E.
  - apply String.eqb_eq in E. tauto.
  - apply IH. tauto.
Qed.

(** An object names each of its properties once; then first and last
    definition agree. *)
Lemma assoc_rev {A : Type} (key : string) (l : list (string * A)) :
  NoDup (map fst l) -> assoc key (rev l) = assoc key l.
Proof.
  induction l as [|[k v] l IH]; simpl; intro H; [reflexivity|].
  inversion H as [|? ? Hnot Hrest]; subst.
  rewrite assoc_app, (IH Hrest). simpl.
  destruct (k =? key) eqn:E.
  - apply String.eqb_eq in E; subst k.
    rewrite (assoc_not_in _ _ Hnot). reflexivity.
  - destruct (assoc key l); reflexivity.
Qed.

(** ** Numbers *)

Lemma num_0 : num 0 = S754_zero false.
Proof. reflexivity. Qed.

Lemma not_positive_iff (x : number) :
  not_positive x
  <-> match x with
      | S754_nan | S754_zero _ | S754_infinity true | S754_finite true _ _ => True
      | _ => False
      end.
Proof.
  unfold not_positive, num_gt. rewrite num_0.
  destruct x as [s|s| |s m e]; try destruct s; simpl; split; intro H;
    try exact I; try reflexivity; try discriminate; try contradiction.
Qed.

(** Rounding keeps the sign it is given. *)
Lemma binary_round_aux_sign (s : bool) (m e : Z) (l : location) :
  match binary_round_aux prec emax s m e l with
  | S754_zero s' | S754_infinity s' | S754_finite s' _ _ => s' = s
  | S754_nan => True
  end.
Proof.
  unfold binary_round_aux.
  destruct (shr_fexp prec emax m e l) as [mrs1 e1].
  destruct (shr_fexp prec emax _ e1 loc_Exact) as [mrs2 e2].
  destruct (shr_m mrs2); [reflexivity | | exact I].
  destruct (Z.leb e2 (Z.sub emax prec)); reflexivity.
Qed.

Lemma binary_round_sign (s : bool) (m : positive) (e : Z) :
  match binary_round prec emax s m e with
  | S754_zero s' | S754_infinity s' | S754_finite s' _ _ => s' = s
  | S754_nan => True
  end.
Proof.
  unfold binary_round.
  destruct (shl_align m e _) as [mz ez].
  apply binary_round_aux_sign.
Qed.

Lemma not_positive_mul (x : number) (m : positive) (e : Z) :
  not_positive x -> not_positive (num_mul x (S754_finite false m e)).
Proof.
  rewrite !not_positive_iff.
  destruct x as [s|s| |s mx ex]; try destruct s; try contradiction; intros _;
    unfold num_mul, SFmul; try exact I.
  pose proof (binary_round_aux_sign (xorb true false) (Zpos (Pos.mul mx m)) (Z.add ex e) loc_Exact) as H.
  destruct (binary_round_aux prec emax (xorb true false) _ _ _) as [s|s| |s m' e'];
    simpl in H; subst; exact I.
Qed.

Lemma not_positive_add (x y : number) :
  not_positive x -> not_positive y -> not_positive (num_add x y).
Proof.
  rewrite !not_positive_iff.
  destruct x as [s|s| |s mx ex]; try destruct s; try contradiction; intros _;
    destruct y as [t|t| |t my ey]; try destruct t; try contradiction; intros _;
    unfold num_add, SFadd; try exact I.
  unfold cond_Zopp, binary_normalize. simpl Z.add. cbv beta iota.
  match goal with
  | |- context [binary_round prec emax true ?p ?z] =>
      pose proof (binary_round_sign true p z) as H;
      destruct (binary_round prec emax true p z) as [s|s| |s m' e']
  end; simpl in H; subst; exact I.
Qed.

Lemma nan_mul (y : number) : num_mul nan y = nan.
Proof. reflexivity. Qed.

Lemma nan_add_l (y : number) : num_add nan y = nan.
Proof. reflexivity. Qed.

Lemma nan_add_r (x : number) : num_add x nan = nan.
Proof. destruct x as [s|s| |s m e]; reflexivity. Qed.

Lemma num_60 : exists m e, num 60 = S754_finite false m e.
Proof. eexists. eexists. reflexivity. Qed.

Lemma num_3600 : exists m e, num 3600 = S754_finite false m e.
Proof. eexists. eexists. reflexivity. Qed.

Lemma num_86400 : exists m e, num 86400 = S754_finite false m e.
Proof. eexists. eexists. reflexivity. Qed.

Lemma total_seconds_not_positive (a b c : number) :
  not_positive a -> not_positive b -> not_positive c ->
  not_positive (total_seconds a b c).
Proof.
  intros Ha Hb Hc. unfold total_seconds.
  destruct num_60 as (m1 & e1 & ->).
  destruct num_3600 as (m2 & e2 & ->).
  destruct num_86400 as (m3 & e3 & ->).
  repeat apply not_positive_add; apply not_positive_mul; assumption.
Qed.

Lemma total_seconds_nan (a b c : number) :
  a = nan \/ b = nan \/ c = nan -> total_seconds a b c = nan.
Proof.
  unfold total_seconds.
  intros [-> | [-> | ->]].
  - reflexivity.
  - rewrite nan_mul, nan_add_r. reflexivity.
  - rewrite nan_mul. apply nan_add_r.
Qed.

(** ** The initial context *)

(** C1, as the code has it. The initial context holds the keys [orgId],
    [orgSlug], [entityId] and the keys of the payload, and every key of the
    payload has its payload value there, the three names included: the
    run's own [orgId], [orgSlug] and [entityId] are what the context binds
    only when the payload does not define them. *)
Theorem initial_context_lookup (e : WorkflowEventPayload) (key : string) :
  NoDup (map fst (payload e)) ->
  prop (initial_context e) key
  = match assoc key (payload e) with
    | Some v => v
    | None =>
        if key =? "orgId" then orgId e
        else if key =? "orgSlug" then JStr (orgSlug e)
        else if key =? "entityId" then entityId e
        else JUndefined
    end.
Proof.
  intro Hobj. unfold initial_context, prop.
  rewrite assoc_spread, (assoc_rev _ _ Hobj).
  destruct (assoc key (payload e)); [reflexivity|].
  cbn [assoc]. rewrite !(String.eqb_sym key).
  destruct ("orgId" =? key); [reflexivity|].
  destruct ("orgSlug" =? key); [reflexivity|].
  destruct ("entityId" =? key); reflexivity.
Qed.

(** ** The condition evaluator *)

Section ConditionEvaluator.
Variable h : Host.

Lemma ToString_ToNumber (v : JSValue) (s : string) :
  ToString h v = Ret s -> exists n, ToNumber h v = Ret n.
Proof.
  intro H. destruct v as [| |b|n|x|items|props];
    try (eexists; reflexivity); try (destruct b; eexists; reflexivity).
  - change (ToNumber h (JArr items))
      with (x <-- ToString h (JArr items) ;; Ret (StringToNumber h x)).
    rewrite H. eexists; reflexivity.
  - change (ToNumber h (JObj props))
      with (x <-- ToString h (JObj props) ;; Ret (StringToNumber h x)).
    rewrite H. eexists; reflexivity.
Qed.

Lemma ToStringV_ToNumberV (v : Value) (s : string) :
  ToStringV h v = Ret s -> exists n, ToNumberV h v = Ret n.
Proof.
  destruct v as [d|b]; simpl.
  - apply ToString_ToNumber.
  - intros _. eexists; reflexivity.
Qed.

(** The four disjuncts of the [is_empty] case say no more than the first. *)
Lemma is_empty_test (actual : Value) :
  negb (truthyV actual)
  || match actual with Data (JStr EmptyString) => true | _ => false end
  || match actual with Data JNull => true | _ => false end
  || match actual with Data JUndefined => true | _ => false end
  = falsy_or_nullish actual.
Proof.
  unfold falsy_or_nullish.
  destruct actual as [[| |b|n|s|items|props]|b]; simpl;
    try reflexivity; try (destruct b; reflexivity).
  - destruct n as [[]|[]| |[] ? ?]; reflexivity.
  - destruct s; reflexivity.
Qed.

Lemma is_not_empty_test (actual : Value) :
  truthyV actual
  && negb match actual with Data (JStr EmptyString) => true | _ => false end
  && negb match actual with Data JNull => true | _ => false end
  && negb match actual with Data JUndefined => true | _ => false end
  = negb (falsy_or_nullish actual).
Proof.
  unfold falsy_or_nullish.
  destruct actual as [[| |b|n|s|items|props]|b]; simpl;
    try reflexivity; try (destruct b; reflexivity).
  - destruct n as [[]|[]| |[] ? ?]; reflexivity.
  - destruct s; reflexivity.
Qed.

(** With the coercions done, the evaluator is the table. *)
Lemma evaluateCondition_spec (config context : JSValue) (field operator a v : string) :
  ToString h (js_or (prop config "field") (JStr "")) = Ret field ->
  ToString h (js_or (prop config "operator") (JStr "equals")) = Ret operator ->
  ToStringV h (getNestedValue context field) = Ret a ->
  ToString h (prop config "value") = Ret v ->
  exists na nv,
    ToNumberV h (getNestedValue context field) = Ret na
    /\ ToNumber h (prop config "value") = Ret nv
    /\ evaluateCondition h config context
       = Ret (spec_operator_table operator (getNestedValue context field) a v na nv).
Proof.
  intros Hf Ho Ha Hv.
  destruct (ToStringV_ToNumberV _ _ Ha) as [na Hna].
  destruct (ToString_ToNumber _ _ Hv) as [nv Hnv].
  exists na, nv. split; [exact Hna|]. split; [exact Hnv|].
  unfold evaluateCondition, spec_operator_table.
  rewrite Hf, Ho. cbn [obind].
  rewrite Ha, Hv, Hna, Hnv, is_empty_test, is_not_empty_test. cbn [obind].
  repeat match goal with
         | |- context [if ?c then _ else _] => destruct c; [reflexivity|]
         end.
  reflexivity.
Qed.

Lemma unknown_operator (operator : string) :
  existsb (String.eqb operator) known_operators = false ->
  forall actual a v na nv, spec_operator_table operator actual a v na nv = false.
Proof.
  unfold known_operators, spec_operator_table. simpl existsb.
  intros H actual a v na nv.
  repeat (apply orb_false_elim in H; destruct H as [-> H]).
  reflexivity.
Qed.

End ConditionEvaluator.

(** C5. The condition evaluator is a function of the config and the
    context alone (its type has no world), and it satisfies the operator
    table. On the context [{ count: 5 }]: [greater_than] with value 3 is
    true, [equals] with value 5 is true, [is_empty] is false. Whenever the
    texts of the field, the operator, the resolved value and [config.value]
    exist, the answer is the entry of the table; and for every operator
    outside the table the answer is false. *)
Theorem evaluateCondition_table (h : Host) :
  evaluateCondition h (Example.condition "count" "greater_than" (JNum (num 3)))
                    Example.count_context = Ret true
  /\ evaluateCondition h (Example.condition "count" "equals" (JNum (num 5)))
                       Example.count_context = Ret true
  /\ evaluateCondition h (JObj [("field", JStr "count"); ("operator", JStr "is_empty")])
                       Example.count_context = Ret false
  /\ (forall (config context : JSValue) (field operator a v : string),
        ToString h (js_or (prop config "field") (JStr "")) = Ret field ->
        ToString h (js_or (prop config "operator") (JStr "equals")) = Ret operator ->
        ToStringV h (getNestedValue context field) = Ret a ->
        ToString h (prop config "value") = Ret v ->
        exists na nv,
          ToNumberV h (getNestedValue context field) = Ret na
          /\ ToNumber h (prop config "value") = Ret nv
          /\ evaluateCondition h config context
             = Ret (spec_operator_table operator (getNestedValue context field) a v na nv))
  /\ (forall (config context : JSValue) (field operator : string),
        ToString h (js_or (prop config "field") (JStr "")) = Ret field ->
        ToString h (js_or (prop config "operator") (JStr "equals")) = Ret operator ->
        existsb (String.eqb operator) known_operators = false ->
        evaluateCondition h config context = Ret false).
Proof.
  split; [reflexivity|].
  split; [vm_compute; rewrite String.eqb_refl; reflexivity|].
  split; [reflexivity|].
  split; [apply evaluateCondition_spec|].
  intros config context field operator Hf Ho Hunknown.
  unfold evaluateCondition. rewrite Hf, Ho. cbn [obind].
  unfold known_operators in Hunknown. simpl existsb in Hunknown.
  repeat (apply orb_false_elim in Hunknown; destruct Hunknown as [-> Hunknown]).
  reflexivity.
Qed.

(** C9. When [config.operator] is absent or empty (falsy), the evaluator
    compares the text of the resolved field value with the text of
    [config.value], as for [equals]; it does not answer false as it does
    for an unknown operator. *)
Theorem evaluateCondition_default_operator
    (h : Host) (config context : JSValue) (field a v : string) :
  truthy (prop config "operator") = false ->
  ToString h (js_or (prop config "field") (JStr "")) = Ret field ->
  ToStringV h (getNestedValue context field) = Ret a ->
  ToString h (prop config "value") = Ret v ->
  evaluateCondition h config context = Ret (a =? v)
  /\ evaluateCondition h config context
     = evaluateCondition h (with_prop "operator" (JStr "equals") config) context.
Proof.
  intros Hop Hf Ha Hv.
  assert (E : evaluateCondition h config context = Ret (a =? v)).
  { unfold evaluateCondition, js_or at 2. rewrite Hop, Hf. cbn [obind ToString].
    rewrite String.eqb_refl, Ha, Hv. reflexivity. }
  split; [exact E|]. rewrite E.
  destruct config as [| |b|n|s|items|props]; try exact (eq_sym E).
  unfold with_prop, evaluateCondition, prop.
  rewrite !assoc_obj_set. cbn [String.eqb Ascii.eqb Bool.eqb].
  unfold prop in Hf, Hv. cbv beta iota. 
  unfold js_or at 2. cbn [truthy String.eqb negb].
  rewrite Hf. cbn [obind ToString].
  rewrite String.eqb_refl, Ha, Hv. reflexivity.
Qed.

(** ** The Wait step *)

Section WaitStep.
Variable h : Host.

Lemma executeWaitStep_eq (config : JSValue) (w : World) (m hr d : number) :
  delay h config "delayMinutes" "delay_minutes" = Ret m ->
  delay h config "delayHours" "delay_hours" = Ret hr ->
  delay h config "delayDays" "delay_days" = Ret d ->
  executeWaitStep h config w
  = if num_gt (total_seconds m hr d) (num 0)
    then (Ret (JObj [("waited", JBool true); ("seconds", JNum (total_seconds m hr d))]),
          {| db := db w; trace := trace w ++ [EWait (total_seconds m hr d)] |})
    else (Ret (JObj [("waited", JBool false); ("reason", JStr "no delay configured")]), w).
Proof.
  intros Hm Hh Hd. unfold executeWaitStep, bind, lift.
  rewrite Hm, Hh, Hd.
  destruct (num_gt (total_seconds m hr d) (num 0)); reflexivity.
Qed.

Lemma zero_not_positive (x : number) : SFeqb x (num 0) = true -> not_positive x.
Proof.
  rewrite not_positive_iff, num_0.
  destruct x as [s|s| |s m e]; try destruct s; simpl; intro H;
    try exact I; discriminate.
Qed.

End WaitStep.

(** C7. The total delay of a Wait step is
    [delayMinutes * 60 + delayHours * 3600 + delayDays * 86400] seconds.
    When the total is above zero the step suspends for it ([wait.for]) and
    returns [{ waited: true, seconds: total }]; when it is zero the step
    returns [{ waited: false }] and suspends nothing. With
    [delayMinutes = 5] the step waits 300 seconds. *)
Theorem executeWaitStep_total (h : Host) (w : World) :
  (forall (config : JSValue) (delayMinutes delayHours delayDays : number),
      delay h config "delayMinutes" "delay_minutes" = Ret delayMinutes ->
      delay h config "delayHours" "delay_hours" = Ret delayHours ->
      delay h config "delayDays" "delay_days" = Ret delayDays ->
      let total :=
        num_add (num_add (num_mul delayMinutes (num 60)) (num_mul delayHours (num 3600)))
                (num_mul delayDays (num 86400)) in
      (num_gt total (num 0) = true ->
       executeWaitStep h config w
       = (Ret (JObj [("waited", JBool true); ("seconds", JNum total)]),
          {| db := db w; trace := trace w ++ [EWait total] |}))
      /\ (SFeqb total (num 0) = true ->
          executeWaitStep h config w
          = (Ret (JObj [("waited", JBool false); ("reason", JStr "no delay configured")]),
             w)))
  /\ executeWaitStep h (JObj [("delayMinutes", JNum (num 5))]) w
     = (Ret (JObj [("waited", JBool true); ("seconds", JNum (num 300))]),
        {| db := db w; trace := trace w ++ [EWait (num 300)] |}).
Proof.
  split.
  - intros config m hr d Hm Hh Hd total.
    pose proof (executeWaitStep_eq h config w m hr d Hm Hh Hd) as E.
    fold total in E. change (total_seconds m hr d) with total in E.
    split; intro H.
    + rewrite E, H. reflexivity.
    + apply zero_not_positive in H. unfold not_positive in H.
      rewrite E, H. reflexivity.
  - rewrite (executeWaitStep_eq h _ w (num 5) (num 0) (num 0));
      reflexivity.
Qed.

(** C10, as the code has it. When each delay of a Wait config coerces to
    NaN or to a number that is not above zero, or when one of them coerces
    to NaN, the total is not above zero and the step returns
    [{ waited: false }] without suspending and without throwing. The step
    returns whenever the three delays coerce to numbers; it is not total
    over arbitrary configs, since the coercion itself can throw. *)
Theorem executeWaitStep_no_delay
    (h : Host) (config : JSValue) (w : World) (delayMinutes delayHours delayDays : number) :
  delay h config "delayMinutes" "delay_minutes" = Ret delayMinutes ->
  delay h config "delayHours" "delay_hours" = Ret delayHours ->
  delay h config "delayDays" "delay_days" = Ret delayDays ->
  (not_positive delayMinutes /\ not_positive delayHours /\ not_positive delayDays
   \/ delayMinutes = nan \/ delayHours = nan \/ delayDays = nan ->
   executeWaitStep h config w
   = (Ret (JObj [("waited", JBool false); ("reason", JStr "no delay configured")]), w))
  /\ exists result w', executeWaitStep h config w = (Ret result, w').
Proof.
  intros Hm Hh Hd.
  pose proof (executeWaitStep_eq h config w _ _ _ Hm Hh Hd) as E.
  split.
  - intro H.
    assert (N : not_positive (total_seconds delayMinutes delayHours delayDays)).
    { destruct H as [(H1 & H2 & H3) | H].
      - apply total_seconds_not_positive; assumption.
      - rewrite (total_seconds_nan _ _ _ H). reflexivity. }
    unfold not_positive in N. rewrite E, N. reflexivity.
  - rewrite E. destruct (num_gt _ _); eexists; eexists; reflexivity.
Qed.

(** ** The interpolator *)



Lemma append_assoc (a b c : string) : ((a ++ b) ++ c = a ++ (b ++ c))%string.
Proof. induction a as [|x a IH]; simpl; [reflexivity | rewrite IH; reflexivity]. Qed.

Lemma split_dot_cons (s : string) :
  exists first others, split_dot s = first :: others.
Proof.
  induction s as [|c rest (first & others & IH)]; cbn [split_dot].
  - eexists; eexists; reflexivity.
  - destruct (c =? ".")%char; [eexists; eexists; reflexivity|].
    rewrite IH. eexists; eexists; reflexivity.
Qed.



Section Interpolator.
Variable h : Host.
Variable context : JSValue.









End Interpolator.


(** ** The store *)

Section Store.
Variable h : Host.

Lemma getSupabase_cases :
  configured h \/ getSupabase h = throw "Missing SUPABASE_SERVICE_ROLE_KEY".
Proof.
  unfold configured, getSupabase.
  destruct (env h "SUPABASE_SERVICE_ROLE_KEY") as [key|]; [|right; reflexivity].
  destruct (key =? ""); [right | left]; reflexivity.
Qed.

(** A helper that starts with [getSupabase()] returns only when the client
    can be built. *)
Lemma returns_configured {A : Type} (k : unit -> M A) (w w' : World) (a : A) :
  bind (getSupabase h) k w = (Ret a, w') -> configured h.
Proof.
  destruct getSupabase_cases as [H|H]; [intros _; exact H|].
  rewrite H. unfold bind, throw. discriminate.
Qed.

Lemma apply_op_trace (op : StoreOp) (w : World) :
  trace (snd (apply_op h op w)) = trace w.
Proof.
  destruct op as [t fs o|t row [|]|t u fs]; reflexivity.
Qed.


Lemma request_accepted (op : StoreOp) (w : World) :
  store_fault h w op = None ->
  request h op w
  = (Ret (fst (apply_op h op {| db := db w; trace := trace w ++ [EStore op] |}), None),
     stored h op w).
Proof.
  intro H. unfold request, stored. rewrite H.
  destruct (apply_op h op _); reflexivity.
Qed.

Lemma request_trace (op : StoreOp) (w : World) :
  exists answer w', request h op w = (Ret answer, w')
                    /\ trace w' = (trace w ++ [EStore op])%list.
Proof.
  unfold request. destruct (store_fault h w op).
  - eexists; eexists; split; reflexivity.
  - destruct (apply_op h op _) as [data w2] eqn:E.
    eexists; eexists; split; [reflexivity|].
    change w2 with (snd (data, w2)). rewrite <- E. apply apply_op_trace.
Qed.


Lemma updateWorkflowRun_accepted (runId updates : JSValue) (id : string) (w : World) :
  configured h -> reliable h -> ToString h runId = Ret id ->
  updateWorkflowRun h runId updates w
  = (Ret tt, stored h (Update "workflow_runs" updates [("id", id)]) w).
Proof.
  intros Hc Hr Hid. unfold updateWorkflowRun, eq_filter. rewrite Hc, Hid.
  unfold bind at 1 2 3. unfold ret at 1. unfold lift. cbn [obind].
  rewrite (request_accepted _ _ (Hr _ _)). reflexivity.
Qed.

Lemma complete_run_accepted (runId : JSValue) (id : string) (w : World) :
  configured h -> reliable h -> ToString h runId = Ret id ->
  complete_run h runId w
  = (Ret tt,
     stored h (Update "workflow_runs"
               (JObj [("status", JStr "completed"); ("completed_at", JStr (now h w))])
               [("id", id)]) w).
Proof.
  intros Hc Hr Hid. unfold complete_run, now_iso. unfold bind at 1.
  apply updateWorkflowRun_accepted; assumption.
Qed.

Lemma truthy_js_or_undefined (v : JSValue) :
  truthy (js_or v JUndefined) = truthy v.
Proof. unfold js_or. destruct (truthy v) eqn:E; [exact E | reflexivity]. Qed.

Lemma row_matches_cons (column text : string) (filters : list (string * string))
    (row : JSValue) :
  row_matches h ((column, text) :: filters) row = true
  <-> cell_text h (prop row column) = Some text /\ row_matches h filters row = true.
Proof.
  unfold row_matches. cbn [forallb fst snd]. rewrite andb_true_iff.
  destruct (cell_text h (prop row column)) as [s|].
  - rewrite String.eqb_eq. split; intros [H1 H2]; split; congruence.
  - split; intros [H1 H2]; discriminate.
Qed.

(** The query of the router: the three filters, narrowed by the trigger
    value of the payload when it carries one; the store is only read. *)
Lemma matchingAutomations_eq (e : WorkflowEventPayload) (w w1 : World)
    (rows : list JSValue) :
  matchingAutomations h e w = (Ret rows, w1) ->
  configured h
  /\ exists org,
       ToString h (orgId e) = Ret org
       /\ exists narrowing,
            (if truthy (prop (JObj (payload e)) "triggerValue")
             then exists value,
                 ToString h (prop (JObj (payload e)) "triggerValue") = Ret value
                 /\ narrowing = [("triggerValue", value)]
             else narrowing = [])
            /\ rows
               = filter
                   (row_matches h
                      (("org_id", org) :: ("status", "published")
                       :: ("triggerType", triggerTypeOf (eventType e)) :: narrowing))
                   (table "automations" w)
            /\ w1
               = {| db := db w;
                    trace :=
                      trace w
                      ++ [EStore
                            (Select "automations"
                               (("org_id", org) :: ("status", "published")
                                :: ("triggerType", triggerTypeOf (eventType e))
                                :: narrowing)
                               None)] |}.
Proof.
  unfold matchingAutomations, loadMatchingAutomations. intro H.
  pose proof (returns_configured _ _ _ _ H) as Hc. split; [exact Hc|].
  rewrite Hc in H.
  unfold eq_filter, bind at 1, ret at 1 in H.
  destruct (ToString h (orgId e)) as [org|msg] eqn:Eorg;
    [|unfold bind, lift in H; discriminate H].
  exists org. split; [reflexivity|].
  rewrite truthy_js_or_undefined in H.
  set (tv := prop (JObj (payload e)) "triggerValue") in *.
  unfold bind at 1 2 3, lift at 1 2 3 in H. cbn [obind ToString] in H.
  destruct (truthy tv) eqn:Etv.
  - unfold js_or in H. rewrite Etv in H.
    destruct (ToString h tv) as [value|msg] eqn:Evalue;
      [|unfold bind, lift in H; discriminate H].
    unfold bind, lift, ret in H. cbn [obind] in H.
    unfold request in H. destruct (store_fault h w _); [discriminate H|].
    cbn [apply_op snd fst rows_of] in H. inversion H; subst rows w1; clear H.
    exists [("triggerValue", value)].
    split; [exists value; split; reflexivity|]. split; reflexivity.
  - unfold bind, lift, ret in H. cbn [obind] in H.
    unfold request in H. destruct (store_fault h w _); [discriminate H|].
    cbn [apply_op snd fst rows_of] in H. inversion H; subst rows w1; clear H.
    exists []. split; [reflexivity|]. split; reflexivity.
Qed.

End Store.

(** C2, as the code has it. The automations an event is matched to are
    the rows of the table with the event's organisation, status
    [published] and the trigger type of the event; when the payload carries
    a [triggerValue] (a truthy one), they are narrowed to the rows whose
    [triggerValue] equals it. An event that carries none is matched to
    such an automation whatever its [triggerValue]. *)
Theorem matching_automations
    (h : Host) (e : WorkflowEventPayload) (w w' : World) (rows : list JSValue) :
  matchingAutomations h e w = (Ret rows, w') ->
  exists org,
    ToString h (orgId e) = Ret org
    /\ forall row,
        In row rows <->
        In row (table "automations" w)
        /\ cell_text h (prop row "org_id") = Some org
        /\ cell_text h (prop row "status") = Some "published"
        /\ cell_text h (prop row "triggerType") = Some (triggerTypeOf (eventType e))
        /\ (truthy (prop (JObj (payload e)) "triggerValue") = true ->
            exists value,
              ToString h (prop (JObj (payload e)) "triggerValue") = Ret value
              /\ cell_text h (prop row "triggerValue") = Some value).
Proof.
  intro H.
  destruct (matchingAutomations_eq h e w w' rows H)
    as (_ & org & Horg & narrowing & Hnarrow & -> & _).
  exists org. split; [exact Horg|]. intro row.
  rewrite filter_In, !row_matches_cons.
  destruct (truthy (prop (JObj (payload e)) "triggerValue")).
  - destruct Hnarrow as (value & Hvalue & ->). rewrite row_matches_cons.
    split.
    + intros (Hin & H1 & H2 & H3 & H4 & _). repeat split; try assumption.
      intros _. exists value. split; assumption.
    + intros (Hin & H1 & H2 & H3 & H4). repeat split; try assumption.
      destruct (H4 eq_refl) as (value' & Hv & Hcell). congruence.
  - subst narrowing. split.
    + intros (Hin & H1 & H2 & H3 & _). repeat split; try assumption.
      intro Habs; discriminate Habs.
    + intros (Hin & H1 & H2 & H3 & _). repeat split; assumption.
Qed.

(** ** The orchestrator *)

Lemma bind_eq {A B : Type} (c : M A) (k : A -> M B) (w : World) :
  bind c k w
  = match c w with
    | (Ret a, w') => k a w'
    | (Throw msg, w') => (Throw msg, w')
    end.
Proof. reflexivity. Qed.

Lemma assoc_set_rows_same (name : string) (rows : list JSValue)
    (d : list (string * list JSValue)) :
  assoc name (set_rows name rows d) = Some rows.
Proof.
  induction d as [|[k x] rest IH]; cbn [set_rows assoc].
  - rewrite String.eqb_refl. reflexivity.
  - destruct (k =? name) eqn:E; cbn [assoc]; rewrite E; [reflexivity | exact IH].
Qed.

Lemma assoc_set_rows_other (name other : string) (rows : list JSValue)
    (d : list (string * list JSValue)) :
  name <> other -> assoc other (set_rows name rows d) = assoc other d.
Proof.
  intro Hne. induction d as [|[k x] rest IH]; cbn [set_rows assoc].
  - apply String.eqb_neq in Hne. rewrite Hne. reflexivity.
  - destruct (k =? name) eqn:E; cbn [assoc].
    + apply String.eqb_eq in E; subst k.
      apply String.eqb_neq in Hne. rewrite Hne. reflexivity.
    + destruct (k =? other); [reflexivity | exact IH].
Qed.

Lemma table_set_table_same (name : string) (rows : list JSValue) (w : World) :
  table name (set_table name rows w) = rows.
Proof. unfold table, set_table. cbn [db]. rewrite assoc_set_rows_same. reflexivity. Qed.

Lemma table_set_table_other (name other : string) (rows : list JSValue) (w : World) :
  name <> other -> table other (set_table name rows w) = table other w.
Proof.
  intro Hne. unfold table, set_table. cbn [db].
  rewrite (assoc_set_rows_other _ _ _ _ Hne). reflexivity.
Qed.

Section Orchestrator.
Variable h : Host.

Lemma run_started_configured params w runId steps w2 :
  run_started h params w runId steps w2 -> configured h.
Proof.
  intros (name & run & w1 & _ & H & _). unfold createWorkflowRun in H.
  exact (returns_configured h _ _ _ _ H).
Qed.

(** Once started, the run is the loop followed by the completion. *)
Lemma runAutomation_started params w runId steps w2 :
  run_started h params w runId steps w2 ->
  runAutomation h params w
  = match runSteps h runId (initial_context (event params)) (orgSlug (event params))
            steps first_state w2 with
    | (Ret st, w3) =>
        match complete_run h runId w3 with
        | (Ret _, w4) => (Ret (run_result runId (stepsExecuted st)), w4)
        | (Throw msg, w4) => (Throw msg, w4)
        end
    | (Throw msg, w3) => (Throw msg, w3)
    end.
Proof.
  intros (name & run & w1 & Hname & Hrun & -> & Hsteps).
  unfold runAutomation. rewrite Hname.
  rewrite bind_eq. unfold lift at 1. rewrite bind_eq, Hrun, bind_eq, Hsteps.
  destruct steps as [|step rest].
  - cbn [runSteps]. unfold ret at 2. rewrite bind_eq.
    destruct (complete_run h (prop run "id") w2) as [[[]|msg] w4]; reflexivity.
  - rewrite bind_eq. fold first_state.
    destruct (runSteps h _ _ _ (step :: rest) first_state w2) as [[st|msg] w3];
      [|reflexivity].
    rewrite bind_eq.
    destruct (complete_run h (prop run "id") w3) as [[[]|msg] w4]; reflexivity.
Qed.

Variables (runId context : JSValue) (slug : string).

Lemma runSteps_stopped (steps : list JSValue) (st : LoopState) (w : World) :
  shouldContinue st = false ->
  runSteps h runId context slug steps st w = (Ret st, w).
Proof.
  intro H. destruct steps as [|step rest]; cbn [runSteps]; [reflexivity|].
  rewrite H. reflexivity.
Qed.

Lemma runSteps_cons (step : JSValue) (rest : list JSValue) (st : LoopState) (w : World) :
  shouldContinue st = true ->
  runSteps h runId context slug (step :: rest) st w
  = match runStep h runId context slug step st w with
    | (Ret st', w') => runSteps h runId context slug rest st' w'
    | (Throw msg, w') => (Throw msg, w')
    end.
Proof. intro H. cbn [runSteps]. rewrite H. reflexivity. Qed.


Lemma runStep_eq (step : JSValue) (st : LoopState) (w : World) :
  runStep h runId context slug step st w
  = match tryStep h runId context slug step (JStr (now h w)) st w with
    | (Ret st', w') => (Ret st', w')
    | (Throw msg, w') => catchStep h runId step (JStr (now h w)) msg w'
    end.
Proof. reflexivity. Qed.





End Orchestrator.

Lemma table_stored_insert (h : Host) (t : string) (row : JSValue) (w : World) :
  table t (stored h (Insert t row false) w) = (table t w ++ [row])%list.
Proof. unfold stored. cbn [apply_op snd]. apply table_set_table_same. Qed.




(** ** The event router *)

Section Router.
Variable h : Host.
Variable e : WorkflowEventPayload.

(** The loop returns whether or not the runs fail, and does nothing but
    run them. *)
Lemma dispatch_total (automations : list JSValue) :
  (forall a, In a automations -> exists s, ToString h (prop a "id") = Ret s) ->
  forall (results : list JSValue) (w : World),
    exists results',
      dispatch h e automations results w = (Ret results', dispatched h e automations w)
      /\ List.length results' = List.length results + List.length automations.
Proof.
  induction automations as [|a rest IH]; intros Hids results w.
  - exists results. split; [reflexivity | cbn; lia].
  - destruct (Hids a (or_introl eq_refl)) as [s Hs].
    cbn [dispatch]. rewrite bind_eq. unfold try_catch. rewrite bind_eq.
    unfold dispatched. cbn [fold_left].
    destruct (runAutomation h (automation_params e a) w) as [[r|m] w'];
      cbn [snd].
    + unfold ret at 1.
      match goal with
      | |- context [dispatch h e rest ?rs ?ww] =>
          destruct (IH (fun x Hx => Hids x (or_intror Hx)) rs ww)
            as (results' & Hd & Hl)
      end.
      exists results'. split; [exact Hd|].
      rewrite Hl, length_app. cbn [List.length]. lia.
    + rewrite Hs. unfold lift. rewrite bind_eq. unfold ret at 1.
      match goal with
      | |- context [dispatch h e rest ?rs ?ww] =>
          destruct (IH (fun x Hx => Hids x (or_intror Hx)) rs ww)
            as (results' & Hd & Hl)
      end.
      exists results'. split; [exact Hd|].
      rewrite Hl, length_app. cbn [List.length]. lia.
Qed.

(** Marking the event: the update is sent once, and its answer is not
    looked at. *)
Lemma mark_processed_eq (w : World) (text : string) :
  configured h -> ToString h (eventId e) = Ret text ->
  let mark := Update "workflow_events" (JObj [("processed_at", JStr (now h w))])
                     [("id", text)] in
  exists w',
    mark_processed h (eventId e) w = (Ret tt, w')
    /\ trace w' = (trace w ++ [EStore mark])%list
    /\ (store_fault h w mark = None -> w' = stored h mark w).
Proof.
  intros Hc Hid mark. unfold mark_processed, eq_filter, now_iso.
  rewrite Hc, Hid. unfold lift. rewrite !bind_eq. cbn [obind]. unfold ret at 1.
  rewrite !bind_eq. fold mark.
  destruct (request_trace h mark w) as (answer & w' & Hreq & Htrace).
  rewrite Hreq. exists w'. split; [reflexivity|]. split; [exact Htrace|].
  intro Hok. rewrite (request_accepted h _ _ Hok) in Hreq.
  inversion Hreq. reflexivity.
Qed.

(** The query changes nothing in the store and is one request. *)
Lemma matchingAutomations_world (w w1 : World) (automations : list JSValue) :
  matchingAutomations h e w = (Ret automations, w1) ->
  configured h
  /\ db w1 = db w
  /\ exists filters,
       trace w1 = (trace w ++ [EStore (Select "automations" filters None)])%list.
Proof.
  intro H.
  destruct (matchingAutomations_eq h e w w1 automations H)
    as (Hc & org & _ & narrowing & _ & _ & ->).
  split; [exact Hc|]. split; [reflexivity|]. eexists. reflexivity.
Qed.

End Router.

(** C8. For every inbound event whose automations are found, the router
    writes [processed_at] once, as its last act: after every matched
    automation has been run and whether or not runs failed. With no
    matching automation the event is still marked, nothing else is done
    (no run is created), and the task returns [{ matched: 0 }]. *)
Theorem processed_once
    (h : Host) (e : WorkflowEventPayload) (w w1 : World) (automations : list JSValue)
    (text : string) :
  matchingAutomations h e w = (Ret automations, w1) ->
  (forall a, In a automations -> exists s, ToString h (prop a "id") = Ret s) ->
  ToString h (eventId e) = Ret text ->
  let w2 := dispatched h e automations w1 in
  let mark :=
    Update "workflow_events" (JObj [("processed_at", JStr (now h w2))])
           [("id", text)] in
  exists result w3,
    processEvent h e w = (Ret result, w3)
    /\ prop result "matched" = JNum (num (Z.of_nat (List.length automations)))
    /\ trace w3 = (trace w2 ++ [EStore mark])%list
    /\ (store_fault h w2 mark = None -> w3 = stored h mark w2)
    /\ (automations = [] ->
        result = JObj [("matched", JNum (num 0))]
        /\ db w2 = db w
        /\ exists filters,
             trace w3
             = (trace w ++ [ EStore (Select "automations" filters None);
                             EStore mark ])%list).
Proof.
  intros Hmatch Hids Hid w2 mark.
  destruct (matchingAutomations_world h e _ _ _ Hmatch) as (Hc & Hdb & filters & Htrace).
  destruct (mark_processed_eq h e w2 text Hc Hid) as (w3 & Hmark & Hmt & Hstored).
  fold mark in Hmt, Hstored.
  unfold processEvent. rewrite bind_eq, Hmatch.
  destruct automations as [|a rest].
  - change w2 with w1 in *.
    rewrite bind_eq, Hmark. unfold ret at 1.
    eexists. exists w3. split; [reflexivity|].
    split; [reflexivity|]. split; [exact Hmt|]. split; [exact Hstored|].
    intros _. split; [reflexivity|]. split; [exact Hdb|].
    exists filters. rewrite Hmt, Htrace, <- app_assoc. reflexivity.
  - destruct (dispatch_total h e (a :: rest) Hids [] w1) as (results & Hd & _).
    fold w2 in Hd. rewrite bind_eq, Hd, bind_eq, Hmark. unfold ret at 1.
    eexists. exists w3. split; [reflexivity|].
    split; [reflexivity|]. split; [exact Hmt|]. split; [exact Hstored|].
    intro Habs. discriminate Habs.
Qed.

(** ** Further properties of the runner *)

(** An automation without steps: the run is completed at once and returns
    [stepsExecuted = 0]. *)
Theorem empty_automation_completes
    (h : Host) (params : RunAutomationParams) (w w2 : World) (runId : JSValue)
    (id : string) :
  run_started h params w runId [] w2 ->
  reliable h ->
  ToString h runId = Ret id ->
  runAutomation h params w
  = (Ret (run_result runId 0),
     stored h
       (Update "workflow_runs"
          (JObj [("status", JStr "completed"); ("completed_at", JStr (now h w2))])
          [("id", id)]) w2).
Proof.
  intros Hstart Hr Hid.
  pose proof (run_started_configured h _ _ _ _ _ Hstart) as Hc.
  rewrite (runAutomation_started h _ _ _ _ _ Hstart). cbn [runSteps].
  unfold ret. rewrite (complete_run_accepted h _ id _ Hc Hr Hid). reflexivity.
Qed.

(** A Trigger step does nothing and is skipped; a step whose type is a
    string other than the four known ones is skipped with a reason, does
    nothing and does not throw. Neither stops the loop. *)
Theorem marker_and_unknown_steps
    (h : Host) (step context : JSValue) (slug : string) (w : World) :
  (stepTypeOf step = JStr "Trigger" ->
   executeStep h step context slug w
   = (Ret (JObj [("skipped", JBool true); ("reason", JStr "trigger step")], true), w))
  /\ (forall kind : string,
        stepTypeOf step = JStr kind ->
        existsb (String.eqb kind) ["Trigger"; "Wait"; "Action"; "Condition"] = false ->
        executeStep h step context slug w
        = (Ret (skipped ("unknown stepType: " ++ kind), true), w)).
Proof.
  split.
  - intro H. unfold executeStep. rewrite H. reflexivity.
  - intros kind H Hunknown. unfold executeStep. rewrite H.
    cbn [existsb] in Hunknown.
    repeat (apply orb_false_elim in Hunknown; destruct Hunknown as [? Hunknown]).
    cbn [is_str].
    repeat match goal with
           | E : (kind =? _) = false |- _ => rewrite E; clear E
           end.
    reflexivity.
Qed.

(** The trigger type of an event: the nine entries of the table, and the
    event type itself when the table, an object literal, has no property
    of that name. A name that [Object.prototype] defines is not passed
    through: the lookup finds the built-in. *)
Theorem trigger_type_mapping :
  map triggerTypeOf
      [ "lead.created"; "pipeline.stage_changed"; "quote.viewed"; "quote.sent";
        "quote.signed"; "sms.inbound"; "project.status_changed"; "project.created";
        "email.received" ]
  = [ "contact_created"; "pipeline_stage_change"; "quote_viewed"; "quote_sent";
      "quote_signed"; "sms_received"; "project_status_change"; "project_created";
      "email_received" ]
  /\ (forall eventType : string,
        has_property eventType (Data triggerTypeMap) = false ->
        triggerTypeOf eventType = eventType)
  /\ triggerTypeOf "task.created" = "task.created"
  /\ triggerTypeOf "constructor" = function_text "Object".
Proof.
  split; [reflexivity|]. split; [|split; reflexivity].
  intros eventType H. unfold triggerTypeOf, get.
  unfold has_property in H.
  destruct (lookup_property (Data triggerTypeMap) eventType); [discriminate H|].
  reflexivity.
Qed.

(** An action without its required fields, or of an unknown type, is
    skipped: a [send_sms] whose [to] or [body] is empty after
    interpolation and an action type that is a string outside the five
    known ones do nothing and return [{ skipped: true, reason }]. *)
Theorem skipped_actions
    (h : Host) (config context : JSValue) (slug : string) (w : World) :
  (forall to body : string,
      interpolated h (js_or (prop config "to") (JStr "")) context w = (Ret to, w) ->
      interpolated h
        (js_or (js_or (prop config "body") (prop config "message")) (JStr ""))
        context w = (Ret body, w) ->
      to = "" \/ body = "" ->
      executeActionStep h (JStr "send_sms") config context slug w
      = (Ret (skipped "missing to or body"), w))
  /\ (forall kind : string,
        existsb (String.eqb kind)
                ["send_sms"; "send_email"; "create_task"; "update_field"; "webhook"]
        = false ->
        executeActionStep h (JStr kind) config context slug w
        = (Ret (skipped ("unknown actionType: " ++ kind)), w)).
Proof.
  split.
  - intros to body Hto Hbody Hempty. unfold executeActionStep.
    change (is_str (JStr "send_sms") "send_sms") with true. cbv beta iota.
    rewrite bind_eq, Hto, bind_eq, Hbody.
    destruct Hempty as [-> | ->]; [reflexivity|].
    rewrite orb_true_r. reflexivity.
  - intros kind Hunknown. unfold executeActionStep.
    cbn [existsb] in Hunknown.
    repeat (apply orb_false_elim in Hunknown; destruct Hunknown as [? Hunknown]).
    cbn [is_str].
    repeat match goal with
           | E : (kind =? _) = false |- _ => rewrite E; clear E
           end.
    reflexivity.
Qed.


(** ** Paths and conditions *)

Lemma split_dot_dot_free (k : string) : dot_free k = true -> split_dot k = [k].
Proof.
  induction k as [|c rest IH]; cbn [dot_free split_dot]; [reflexivity|].
  intro H. apply andb_prop in H. destruct H as [Hc Hrest].
  apply negb_true_iff in Hc. rewrite Hc, (IH Hrest). reflexivity.
Qed.

Lemma split_dot_app (p q : string) :
  split_dot (p ++ String "." q) = (split_dot p ++ split_dot q)%list.
Proof.
  induction p as [|c rest IH]; cbn [append split_dot].
  - reflexivity.
  - rewrite IH. destruct (c =? ".")%char; [reflexivity|].
    destruct (split_dot_cons rest) as (first & others & E). rewrite E. reflexivity.
Qed.

(** Below a value that is not an object the walk finds nothing. *)
Lemma walk_undefined (keys : list string) (acc : Value) :
  is_object acc = false ->
  keys <> [] ->
  fold_left
    (fun acc key =>
       if is_object acc && has_property key acc then get acc key else Data JUndefined)
    keys acc
  = Data JUndefined.
Proof.
  destruct keys as [|k rest]; [intros _ H; contradiction H; reflexivity|].
  intros H _. cbn [fold_left]. rewrite H. cbn [andb].
  induction rest as [|k' rest IH]; [reflexivity | exact IH].
Qed.

(** The walk of [getNestedValue]. A value that is not an object (a
    string, a number, a boolean, [null], [undefined]) resolves every path
    to [undefined]; a path [p.q] resolves [q] in the value [p] resolves
    to; a key without a dot resolves to the own property of that name, and
    to [undefined] when the object has no property of that name, own or
    inherited. *)
Theorem getNestedValue_paths :
  (forall (v : JSValue) (path : string),
      is_object (Data v) = false -> getNestedValue v path = Data JUndefined)
  /\ (forall (obj v : JSValue) (path rest : string),
        getNestedValue obj path = Data v ->
        getNestedValue obj (path ++ "." ++ rest) = getNestedValue v rest)
  /\ (forall (props : list (string * JSValue)) (key : string) (v : JSValue),
        dot_free key = true -> assoc key props = Some v ->
        getNestedValue (JObj props) key = Data v)
  /\ (forall (obj : JSValue) (key : string),
        dot_free key = true -> has_property key (Data obj) = false ->
        getNestedValue obj key = Data JUndefined).
Proof.
  split; [|split; [|split]].
  - intros v path H. unfold getNestedValue. apply walk_undefined; [exact H|].
    destruct (split_dot_cons path) as (f & o & E). rewrite E. discriminate.
  - intros obj v path rest H. unfold getNestedValue in *.
    change ("." ++ rest) with (String "." rest).
    rewrite split_dot_app, fold_left_app, H. reflexivity.
  - intros props key v Hk Ha. unfold getNestedValue.
    rewrite (split_dot_dot_free _ Hk). cbn [fold_left].
    unfold has_property, get, lookup_property. rewrite Ha. reflexivity.
  - intros obj key Hk Hp. unfold getNestedValue.
    rewrite (split_dot_dot_free _ Hk). cbn [fold_left].
    rewrite Hp, andb_false_r. reflexivity.
Qed.

Lemma num_gt_nan_l (x : number) : num_gt nan x = false.
Proof. destruct x as [[]|[]| |[] ? ?]; reflexivity. Qed.

Lemma num_lt_nan_l (x : number) : num_lt nan x = false.
Proof. destruct x as [[]|[]| |[] ? ?]; reflexivity. Qed.

(** A condition on a field the context does not have: [is_empty] is true
    and [is_not_empty] false; [greater_than] and [less_than] are false
    whatever the value, the missing field counting as NaN; [equals] and
    [contains] compare with the text [undefined]. *)
Theorem missing_field_conditions
    (h : Host) (config context : JSValue) (field operator : string) :
  ToString h (js_or (prop config "field") (JStr "")) = Ret field ->
  ToString h (js_or (prop config "operator") (JStr "equals")) = Ret operator ->
  getNestedValue context field = Data JUndefined ->
  (operator = "is_empty" -> evaluateCondition h config context = Ret true)
  /\ (operator = "is_not_empty" -> evaluateCondition h config context = Ret false)
  /\ (operator = "greater_than" \/ operator = "less_than" ->
      forall n, ToNumber h (prop config "value") = Ret n ->
      evaluateCondition h config context = Ret false)
  /\ (forall v, ToString h (prop config "value") = Ret v ->
      (operator = "equals" -> evaluateCondition h config context = Ret ("undefined" =? v))
      /\ (operator = "contains" ->
          evaluateCondition h config context = Ret (includes "undefined" v))).
Proof.
  intros Hf Ho Ha. unfold evaluateCondition. rewrite Hf. cbn [obind].
  rewrite Ho. cbn [obind]. rewrite Ha.
  split; [intros ->; reflexivity|].
  split; [intros ->; reflexivity|].
  split.
  - intros [-> | ->] n Hn; cbn [String.eqb Ascii.eqb Bool.eqb ToNumberV ToNumber obind];
      rewrite Hn; cbn [obind].
    + rewrite num_gt_nan_l. reflexivity.
    + rewrite num_lt_nan_l. reflexivity.
  - intros v Hv. split; intros ->;
      cbn [String.eqb Ascii.eqb Bool.eqb ToStringV ToString obind]; rewrite Hv; reflexivity.
Qed.

(** The operators come in pairs: on the same config and context,
    [not_equals] answers the negation of [equals], [not_contains] that of
    [contains] and [is_not_empty] that of [is_empty]. *)
Theorem complementary_operators
    (h : Host) (props : list (string * JSValue)) (context : JSValue) (b : bool) :
  let test operator :=
    evaluateCondition h (JObj (obj_set "operator" (JStr operator) props)) context in
  (test "equals" = Ret b -> test "not_equals" = Ret (negb b))
  /\ (test "contains" = Ret b -> test "not_contains" = Ret (negb b))
  /\ (test "is_empty" = Ret b -> test "is_not_empty" = Ret (negb b)).
Proof.
  intro test. unfold test, evaluateCondition, prop. rewrite !assoc_obj_set.
  cbn [String.eqb Ascii.eqb Bool.eqb].
  unfold js_or at 2 4 6 8 10 12. cbn [truthy String.eqb negb ToString].
  destruct (ToString h _) as [field|msg]; cbn [obind];
    [|repeat split; intro H; discriminate H].
  cbn [String.eqb Ascii.eqb Bool.eqb].
  split; [|split].
  - destruct (ToStringV h _) as [a|m]; cbn [obind]; [|intro H; discriminate H].
    destruct (ToString h _) as [v|m]; cbn [obind]; [|intro H; discriminate H].
    intro H. inversion H. reflexivity.
  - destruct (ToStringV h _) as [a|m]; cbn [obind]; [|intro H; discriminate H].
    destruct (ToString h _) as [v|m]; cbn [obind]; [|intro H; discriminate H].
    intro H. inversion H. reflexivity.
  - intro H. inversion H. rewrite !negb_orb, !negb_involutive. reflexivity.
Qed.

(** ** The SMS helper (trigger/src/lib/twilio.ts) *)

(** [sendSms] sends at most one request, the one of [sms_request]. *)
Lemma sendSms_world (h : Host) (ms to body : string) (w : World) :
  snd (sendSms h ms to body w) = w
  \/ snd (sendSms h ms to body w) = after (EFetch (sms_request h ms to body)) w.
Proof.
  unfold sendSms.
  destruct ((env_or_empty h "TWILIO_ACCOUNT_SID" =? "")
            || (env_or_empty h "TWILIO_AUTH_TOKEN" =? ""));
    [left; reflexivity|].
  destruct (match env h "TWILIO_DISABLED" with Some v => v =? "true" | None => false end);
    [left; reflexivity|].
  right. fold (sms_request h ms to body). rewrite bind_eq. unfold fetch, after.
  destruct (fetch_result h w _) as [msg|ok status text json]; [reflexivity|].
  rewrite bind_eq. unfold lift at 1. cbn [resp_json resp_ok].
  destruct json as [data|msg]; [|reflexivity].
  destruct ok; cbn [negb].
  - repeat (rewrite bind_eq; unfold lift at 1;
            destruct (member data _); [|reflexivity]).
    reflexivity.
  - rewrite bind_eq; unfold lift at 1.
    destruct (member data _); [|reflexivity].
    rewrite bind_eq; unfold lift at 1.
    destruct (ToString h _); reflexivity.
Qed.

(** Past its two guards, [sendSms] is the request and the reading of the
    answer. *)
Lemma sendSms_enabled (h : Host) (ms to body : string) (w : World) :
  sms_enabled h ->
  sendSms h ms to body w
  = bind (fetch h (sms_request h ms to body))
         (fun resp =>
            data <- lift (resp_json resp) ;;
            if negb (resp_ok resp) then
              message <- lift (member data "message") ;;
              text <- lift (ToString h (js_or message (JStr (JSON_stringify h data)))) ;;
              throw ("Twilio send failed: " ++ text)
            else
              sid <- lift (member data "sid") ;;
              status <- lift (member data "status") ;;
              _ <- lift (member data "to") ;;
              _ <- lift (member data "body") ;;
              ret (sid, status)) w.
Proof.
  intros (Ha & Ht & Hd). unfold sendSms.
  apply String.eqb_neq in Ha, Ht. rewrite Ha, Ht. cbn [orb].
  destruct (env h "TWILIO_DISABLED") as [v|]; [|reflexivity].
  destruct (v =? "true") eqn:Ev; [|reflexivity].
  apply String.eqb_eq in Ev. subst v. contradiction Hd. reflexivity.
Qed.

Lemma member_defined (data : JSValue) (key : string) :
  data <> JNull -> data <> JUndefined -> member data key = Ret (prop data key).
Proof. intros Hn Hu. destruct data; try reflexivity; contradiction. Qed.

(** The guards of [sendSms]: without the account SID or the auth token it
    throws and sends nothing; with both, the kill switch
    [TWILIO_DISABLED=true] makes it throw and send nothing; and whatever
    happens it sends at most one request. *)
Theorem sendSms_guards (h : Host) (ms to body : string) (w : World) :
  (env_or_empty h "TWILIO_ACCOUNT_SID" = "" \/ env_or_empty h "TWILIO_AUTH_TOKEN" = "" ->
   sendSms h ms to body w = (Throw "Missing TWILIO_ACCOUNT_SID or TWILIO_AUTH_TOKEN", w))
  /\ (env_or_empty h "TWILIO_ACCOUNT_SID" <> "" ->
      env_or_empty h "TWILIO_AUTH_TOKEN" <> "" ->
      env h "TWILIO_DISABLED" = Some "true" ->
      sendSms h ms to body w = (Throw "Twilio is disabled via TWILIO_DISABLED env var", w))
  /\ (forall r w', sendSms h ms to body w = (r, w') ->
      w' = w \/ w' = after (EFetch (sms_request h ms to body)) w).
Proof.
  split; [|split].
  - unfold sendSms. intros [H | H]; rewrite H; [reflexivity|].
    rewrite orb_true_r. reflexivity.
  - unfold sendSms. intros Ha Ht Hd. apply String.eqb_neq in Ha, Ht.
    rewrite Ha, Ht, Hd. reflexivity.
  - intros r w' H. pose proof (sendSms_world h ms to body w) as L.
    rewrite H in L. exact L.
Qed.

(** The answers of the SMS service, once the guards are passed. A
    request that cannot be made, or an answer whose body is not JSON,
    makes [sendSms] throw that error; an answer that is ok gives the
    [sid] and the [status] of its body; one that is not ok throws
    [Twilio send failed:] with the [message] of the body, or with the
    whole body when it has none. One request is sent in each case. *)
Theorem sendSms_responses (h : Host) (ms to body : string) (w : World) :
  sms_enabled h ->
  let req := sms_request h ms to body in
  let w1 := after (EFetch req) w in
  (forall msg, fetch_result h w req = NetworkError msg ->
               sendSms h ms to body w = (Throw msg, w1))
  /\ (forall ok status text msg,
        fetch_result h w req = Response ok status text (Throw msg) ->
        sendSms h ms to body w = (Throw msg, w1))
  /\ (forall status text data,
        fetch_result h w req = Response true status text (Ret data) ->
        data <> JNull -> data <> JUndefined ->
        sendSms h ms to body w = (Ret (prop data "sid", prop data "status"), w1))
  /\ (forall status text data m,
        fetch_result h w req = Response false status text (Ret data) ->
        data <> JNull -> data <> JUndefined ->
        ToString h (js_or (prop data "message") (JStr (JSON_stringify h data))) = Ret m ->
        sendSms h ms to body w = (Throw ("Twilio send failed: " ++ m), w1)).
Proof.
  intros He req w1. rewrite (sendSms_enabled h ms to body w He).
  rewrite bind_eq. unfold fetch. fold req w1.
  split; [|split; [|split]].
  - intros msg ->. reflexivity.
  - intros ok status text msg ->. reflexivity.
  - intros status text data -> Hn Hu.
    rewrite bind_eq. unfold lift at 1. cbn [resp_json resp_ok negb].
    rewrite !bind_eq. unfold lift. rewrite !(member_defined _ _ Hn Hu). reflexivity.
  - intros status text data m -> Hn Hu Hm.
    rewrite bind_eq. unfold lift at 1. cbn [resp_json resp_ok negb].
    rewrite !bind_eq. unfold lift. rewrite (member_defined _ _ Hn Hu), Hm. reflexivity.
Qed.

Lemma getMessagingServiceForOrg_known (h : Host) (slug variable : string) :
  In (slug, variable) messaging_service_variables ->
  getMessagingServiceForOrg h slug
  = if env_or_empty h variable =? ""
    then Throw ("No Messaging Service SID configured for org: " ++ slug)
    else Ret (env_or_empty h variable).
Proof.
  intro H. unfold messaging_service_variables in H. cbn [In] in H.
  destruct H as [H|[H|[H|[]]]]; inversion H; subst slug variable;
    unfold getMessagingServiceForOrg, get, lookup_property, ORG_MESSAGING_SERVICES;
    cbn [assoc String.eqb Ascii.eqb Bool.eqb truthyV truthy ToStringV ToString];
    destruct (env_or_empty h _ =? ""); reflexivity.
Qed.

(** The messaging service of an organisation: for [vector], [bmg] and
    [stucco] it is the value of the organisation's variable, and an error
    when the variable is unset or empty; a slug the table has no property
    for is an error; and the service returned is never the empty text. *)
Theorem getMessagingServiceForOrg_cases (h : Host) :
  (forall slug variable,
      In (slug, variable) messaging_service_variables ->
      getMessagingServiceForOrg h slug
      = if env_or_empty h variable =? ""
        then Throw ("No Messaging Service SID configured for org: " ++ slug)
        else Ret (env_or_empty h variable))
  /\ (forall slug,
        has_property slug (Data (ORG_MESSAGING_SERVICES h)) = false ->
        getMessagingServiceForOrg h slug
        = Throw ("No Messaging Service SID configured for org: " ++ slug))
  /\ (forall slug sid, getMessagingServiceForOrg h slug = Ret sid -> sid <> "").
Proof.
  split; [|split].
  - exact (getMessagingServiceForOrg_known h).
  - intros slug H. unfold getMessagingServiceForOrg, get.
    unfold has_property in H.
    destruct (lookup_property _ slug); [discriminate H | reflexivity].
  - intros slug sid. unfold getMessagingServiceForOrg, get, lookup_property,
      ORG_MESSAGING_SERVICES. cbn [assoc].
    destruct ("vector" =? slug).
    { cbn [truthyV truthy ToStringV ToString].
      destruct (env_or_empty h "TWILIO_MS_VECTOR" =? "") eqn:E; cbn [negb];
        [discriminate|]. intro H; inversion H; subst sid. apply String.eqb_neq, E. }
    destruct ("bmg" =? slug).
    { cbn [truthyV truthy ToStringV ToString].
      destruct (env_or_empty h "TWILIO_MS_BMG" =? "") eqn:E; cbn [negb];
        [discriminate|]. intro H; inversion H; subst sid. apply String.eqb_neq, E. }
    destruct ("stucco" =? slug).
    { cbn [truthyV truthy ToStringV ToString].
      destruct (env_or_empty h "TWILIO_MS_STUCCO" =? "") eqn:E; cbn [negb];
        [discriminate|]. intro H; inversion H; subst sid. apply String.eqb_neq, E. }
    unfold from_object_prototype.
    destruct (slug =? "__proto__").
    { cbn. intro H; inversion H. discriminate. }
    unfold method_of. destruct (assoc slug object_prototype_methods).
    + cbn. intro H; inversion H. discriminate.
    + cbn. discriminate.
Qed.

(** ** The actions *)

Lemma request_world (h : Host) (op : StoreOp) (w : World) :
  snd (request h op w)
  = match store_fault h w op with
    | Some _ => after (EStore op) w
    | None => stored h op w
    end.
Proof.
  unfold request, stored, after. destruct (store_fault h w op); [reflexivity|].
  destruct (apply_op h op _); reflexivity.
Qed.

Lemma request_returns (h : Host) (op : StoreOp) (w : World) :
  exists answer, request h op w = (Ret answer, snd (request h op w)).
Proof.
  unfold request. destruct (store_fault h w op); [eexists; reflexivity|].
  destruct (apply_op h op _); eexists; reflexivity.
Qed.



Lemma update_accepted_table (h : Host) (t : string) (updates : JSValue)
    (filters : list (string * string)) (w : World) :
  table t (stored h (Update t updates filters) w)
  = map (fun r => if row_matches h filters r then merge r updates else r) (table t w).
Proof. unfold stored. cbn [apply_op snd]. apply table_set_table_same. Qed.

(** A [send_sms] action whose [to] and [body] are not empty. When the
    organisation has no messaging service the action throws and nothing
    is sent or stored; when [sendSms] throws the action throws the same
    error and no message is recorded; when the SMS is sent the action
    returns [{ sent: true, sid, status }] and asks the store to record the
    outbound message, and a store that refuses the record does not fail
    the action. *)
Theorem send_sms_action
    (h : Host) (config context : JSValue) (slug : string) (w : World) (to body : string) :
  interpolated h (js_or (prop config "to") (JStr "")) context w = (Ret to, w) ->
  interpolated h (js_or (js_or (prop config "body") (prop config "message")) (JStr ""))
               context w = (Ret body, w) ->
  to <> "" -> body <> "" ->
  let run := executeActionStep h (JStr "send_sms") config context slug w in
  (forall msg, getMessagingServiceForOrg h slug = Throw msg -> run = (Throw msg, w))
  /\ (forall ms msg w1,
        getMessagingServiceForOrg h slug = Ret ms ->
        sendSms h ms to body w = (Throw msg, w1) ->
        run = (Throw msg, w1) /\ db w1 = db w)
  /\ (forall ms sid status w1,
        getMessagingServiceForOrg h slug = Ret ms ->
        sendSms h ms to body w = (Ret (sid, status), w1) ->
        configured h ->
        let record := Insert "messages" (message_row context to body sid status) false in
        run = (Ret (JObj [("sent", JBool true); ("sid", sid); ("status", status)]),
               match store_fault h w1 record with
               | Some _ => after (EStore record) w1
               | None => stored h record w1
               end)).
Proof.
  intros Hto Hb Hn1 Hn2 run.
  assert (E : run
              = (msSid <- lift (getMessagingServiceForOrg h slug) ;;
                 result <- sendSms h msSid to body ;;
                 getSupabase h ;;;
                 _ <- request h
                        (Insert "messages"
                           (message_row context to body (fst result) (snd result))
                           false) ;;
                 ret (JObj [("sent", JBool true); ("sid", fst result);
                            ("status", snd result)])) w).
  { unfold run, executeActionStep.
    change (is_str (JStr "send_sms") "send_sms") with true. cbv beta iota.
    rewrite bind_eq, Hto, bind_eq, Hb.
    apply String.eqb_neq in Hn1, Hn2. rewrite Hn1, Hn2. reflexivity. }
  rewrite E. clear E. split; [|split].
  - intros msg ->. reflexivity.
  - intros ms msg w1 -> Hs. split.
    + unfold lift. rewrite !bind_eq, Hs. reflexivity.
    + destruct (sendSms_world h ms to body w) as [L|L]; rewrite Hs in L;
        cbn [snd] in L; subst w1; reflexivity.
  - intros ms sid status w1 -> Hs Hc record. unfold lift.
    rewrite !bind_eq, Hs, bind_eq, Hc. unfold ret at 1. rewrite bind_eq.
    cbn [fst snd]. fold record.
    rewrite <- (request_world h record w1).
    destruct (request_returns h record w1) as [answer ->]. reflexivity.
Qed.

(** A [send_email] action. When [to], [subject] or [body] is empty after
    interpolation the action is skipped and nothing is sent. Otherwise one
    request is posted to [/api/send-email] of the CRM: an answer that is
    ok gives [{ sent: true, to, subject }], one that is not ok throws
    [send-email failed:] with the text of the answer, and a request that
    cannot be made throws its error. *)
Theorem send_email_action
    (h : Host) (config context : JSValue) (slug : string) (w : World)
    (to subject body : string) :
  interpolated h (js_or (prop config "to") (JStr "")) context w = (Ret to, w) ->
  interpolated h (js_or (prop config "subject") (JStr "")) context w = (Ret subject, w) ->
  interpolated h (js_or (prop config "body") (JStr "")) context w = (Ret body, w) ->
  let run := executeActionStep h (JStr "send_email") config context slug w in
  let req := email_request h to subject body in
  (to = "" \/ subject = "" \/ body = "" ->
   run = (Ret (skipped "missing to, subject, or body"), w))
  /\ (to <> "" -> subject <> "" -> body <> "" ->
      match fetch_result h w req with
      | NetworkError msg => run = (Throw msg, after (EFetch req) w)
      | Response true _ _ _ =>
          run = (Ret (JObj [("sent", JBool true); ("to", JStr to);
                            ("subject", JStr subject)]),
                 after (EFetch req) w)
      | Response false _ text _ =>
          run = (Throw ("send-email failed: " ++ text), after (EFetch req) w)
      end).
Proof.
  intros Hto Hs Hb run req.
  assert (E : run
              = (if (to =? "") || (subject =? "") || (body =? "")
                 then ret (skipped "missing to, subject, or body")
                 else
                   resp <- fetch h req ;;
                   if negb (resp_ok resp)
                   then throw ("send-email failed: " ++ resp_text resp)
                   else ret (JObj [("sent", JBool true); ("to", JStr to);
                                   ("subject", JStr subject)])) w).
  { unfold run, executeActionStep.
    change (is_str (JStr "send_email") "send_sms") with false.
    change (is_str (JStr "send_email") "send_email") with true. cbv beta iota.
    rewrite bind_eq, Hto, bind_eq, Hs, bind_eq, Hb. reflexivity. }
  rewrite E. clear E. split.
  - intros [-> | [-> | ->]]; [reflexivity| |];
      rewrite ?orb_true_r; reflexivity.
  - intros H1 H2 H3. apply String.eqb_neq in H1, H2, H3. rewrite H1, H2, H3.
    cbn [orb]. rewrite bind_eq. unfold fetch.
    destruct (fetch_result h w req) as [msg|[|] status text json]; reflexivity.
Qed.

(** A [create_task] action. A store that refuses the insertion makes the
    action throw [create_task failed:] with the error of the store, and
    no task exists; otherwise one task is added to [tasks], pending, with
    the interpolated title, the due date and the entity id as text, and
    the action returns the id of that task. *)
Theorem create_task_action
    (h : Host) (config context : JSValue) (slug : string) (w : World)
    (title description due : string) (days : number) (entity : JSValue) :
  interpolated h (js_or (prop config "title") (JStr "Follow up")) context w
  = (Ret title, w) ->
  interpolated h (js_or (prop config "description") (JStr "")) context w
  = (Ret description, w) ->
  ToNumber h (js_or (prop config "dueInDays") (JNum (num 1))) = Ret days ->
  configured h ->
  due_date h w days = Ret due ->
  (if truthy (prop context "entityId")
   then exists text, ToString h (prop context "entityId") = Ret text /\ entity = JStr text
   else entity = JNull) ->
  let run := executeActionStep h (JStr "create_task") config context slug w in
  let record := Insert "tasks" (task_row config context title description due entity) true in
  (forall msg, store_fault h w record = Some msg ->
               run = (Throw ("create_task failed: " ++ msg), after (EStore record) w))
  /\ (store_fault h w record = None ->
      exists taskId task w',
        run = (Ret (JObj [("created", JBool true); ("taskId", taskId)]), w')
        /\ table "tasks" w' = (table "tasks" w ++ [task])%list
        /\ prop task "id" = taskId
        /\ prop task "title" = JStr title
        /\ prop task "due_date" = JStr due
        /\ prop task "status" = JStr "pending"
        /\ prop task "entity_id" = entity).
Proof.
  intros Ht Hd Hn Hc Hdue He run record.
  assert (E : run
              = (r <- request h record ;;
                 match snd r with
                 | Some msg => throw ("create_task failed: " ++ msg)
                 | None => ret (JObj [("created", JBool true); ("taskId", prop (fst r) "id")])
                 end) w).
  { unfold run, executeActionStep.
    change (is_str (JStr "create_task") "send_sms") with false.
    change (is_str (JStr "create_task") "send_email") with false.
    change (is_str (JStr "create_task") "create_task") with true. cbv beta iota.
    rewrite bind_eq, Ht, bind_eq, Hd, Hn. unfold lift at 1. rewrite bind_eq, Hc.
    unfold ret at 1. rewrite !bind_eq, Hdue.
    destruct (truthy (prop context "entityId")).
    - destruct He as (text & -> & ->). reflexivity.
    - subst entity. reflexivity. }
  rewrite E. clear E. rewrite bind_eq. split.
  - intros msg Hf. unfold request. rewrite Hf. reflexivity.
  - intro Hf. rewrite (request_accepted h _ _ Hf).
    unfold record at 1 2. cbn [apply_op fst snd prop assoc String.eqb Ascii.eqb Bool.eqb].
    eexists. eexists. eexists. split; [reflexivity|].
    unfold stored, record. cbn [apply_op snd]. rewrite table_set_table_same.
    split; [reflexivity|].
    unfold with_prop, task_row. cbn [obj_set String.eqb Ascii.eqb Bool.eqb].
    repeat split; reflexivity.
Qed.


(** A [webhook] action. Without a URL the action is skipped and nothing
    is sent. With one, the context is posted to it as JSON and the action
    returns [{ sent: true, status }] with the status of the answer,
    whether or not the answer is ok: only a request that cannot be made
    makes the action throw. *)
Theorem webhook_action
    (h : Host) (config context : JSValue) (slug : string) (w : World) (target : string) :
  ToString h (js_or (prop config "url") (JStr "")) = Ret target ->
  let run := executeActionStep h (JStr "webhook") config context slug w in
  let req := {| url := target; basic_auth := None; body := JsonBody context |} in
  (target = "" -> run = (Ret (skipped "no webhook URL"), w))
  /\ (target <> "" ->
      match fetch_result h w req with
      | NetworkError msg => run = (Throw msg, after (EFetch req) w)
      | Response _ status _ _ =>
          run = (Ret (JObj [("sent", JBool true); ("status", status)]),
                 after (EFetch req) w)
      end).
Proof.
  intros Ht run req.
  assert (E : run
              = (if target =? "" then ret (skipped "no webhook URL")
                 else resp <- fetch h req ;;
                      ret (JObj [("sent", JBool true); ("status", resp_status resp)])) w).
  { unfold run, executeActionStep.
    change (is_str (JStr "webhook") "send_sms") with false.
    change (is_str (JStr "webhook") "send_email") with false.
    change (is_str (JStr "webhook") "create_task") with false.
    change (is_str (JStr "webhook") "update_field") with false.
    change (is_str (JStr "webhook") "webhook") with true. cbv beta iota.
    rewrite Ht. reflexivity. }
  rewrite E. clear E. split.
  - intros ->. reflexivity.
  - intro H. apply String.eqb_neq in H. rewrite H, bind_eq. unfold fetch.
    destruct (fetch_result h w req); reflexivity.
Qed.

(** ** What a computation keeps *)

Section Keeps.
Variable h : Host.
Variable R : World -> World -> Prop.
Hypothesis R_refl : forall w, R w w.
Hypothesis R_trans : forall w1 w2 w3, R w1 w2 -> R w2 w3 -> R w1 w3.
Hypothesis R_effect : forall e w, R w (after e w).

Lemma keeps_ret {A : Type} (a : A) : keeps R (ret a).
Proof. intro w. apply R_refl. Qed.

Lemma keeps_throw {A : Type} (msg : string) : keeps R (@throw A msg).
Proof. intro w. apply R_refl. Qed.

Lemma keeps_lift {A : Type} (c : Outcome A) : keeps R (lift c).
Proof. intro w. apply R_refl. Qed.

Lemma keeps_bind {A B : Type} (c : M A) (k : A -> M B) :
  keeps R c -> (forall a, keeps R (k a)) -> keeps R (bind c k).
Proof.
  intros Hc Hk w. rewrite bind_eq. specialize (Hc w).
  destruct (c w) as [[a|msg] w1]; cbn [snd] in *; [|exact Hc].
  exact (R_trans _ _ _ Hc (Hk a w1)).
Qed.

Lemma keeps_try_catch {A : Type} (c : M A) (k : string -> M A) :
  keeps R c -> (forall msg, keeps R (k msg)) -> keeps R (try_catch c k).
Proof.
  intros Hc Hk w. unfold try_catch. specialize (Hc w).
  destruct (c w) as [[a|msg] w1]; cbn [snd] in *; [exact Hc|].
  exact (R_trans _ _ _ Hc (Hk msg w1)).
Qed.

Lemma keeps_fetch (req : HttpRequest) : keeps R (fetch h req).
Proof.
  intro w. unfold fetch.
  destruct (fetch_result h w req); cbn [snd]; apply (R_effect (EFetch req)).
Qed.

Lemma keeps_emit (e : Effect) : keeps R (emit e).
Proof. intro w. apply (R_effect e). Qed.

Lemma keeps_getSupabase : keeps R (getSupabase h).
Proof.
  destruct (getSupabase_cases h) as [H|H]; rewrite H;
    [apply keeps_ret | apply keeps_throw].
Qed.

Lemma keeps_request (op : StoreOp) :
  (forall w, R w (snd (apply_op h op w))) -> keeps R (request h op).
Proof.
  intros Hop w. unfold request.
  destruct (store_fault h w op); cbn [snd]; [apply (R_effect (EStore op))|].
  specialize (Hop (after (EStore op) w)). unfold after in Hop.
  destruct (apply_op h op _) as [data w2]; cbn [snd] in *.
  exact (R_trans _ _ _ (R_effect (EStore op) w) Hop).
Qed.

Lemma keeps_sendSms (ms to body : string) : keeps R (sendSms h ms to body).
Proof.
  unfold sendSms.
  destruct (_ || _); [apply keeps_throw|].
  destruct (match env h "TWILIO_DISABLED" with Some v => v =? "true" | None => false end);
    [apply keeps_throw|].
  apply keeps_bind; [apply keeps_fetch|]. intro resp.
  apply keeps_bind; [apply keeps_lift|]. intro data.
  destruct (negb (resp_ok resp));
    repeat (apply keeps_bind; [apply keeps_lift|]; intro);
    [apply keeps_throw | apply keeps_ret].
Qed.

End Keeps.

Lemma same_log_refl (w : World) : same_log w w.
Proof. reflexivity. Qed.

Lemma same_log_trans (w1 w2 w3 : World) : same_log w1 w2 -> same_log w2 w3 -> same_log w1 w3.
Proof. unfold same_log. congruence. Qed.

Lemma same_log_effect (e : Effect) (w : World) : same_log w (after e w).
Proof. reflexivity. Qed.

Lemma same_log_set_table (t : string) (rows : list JSValue) (w : World) :
  (t = "workflow_run_steps" ->
   List.length rows = List.length (table "workflow_run_steps" w)) ->
  same_log w (set_table t rows w).
Proof.
  intro H. unfold same_log, logged.
  destruct (String.eqb_spec t "workflow_run_steps") as [E|E].
  - subst t. rewrite table_set_table_same. apply H. reflexivity.
  - rewrite (table_set_table_other _ _ _ _ E). reflexivity.
Qed.

(** A request that is not an insertion of a step record leaves their
    number as it is. *)
Lemma same_log_apply_op (h : Host) (op : StoreOp) (w : World) :
  (forall row r, op <> Insert "workflow_run_steps" row r) ->
  same_log w (snd (apply_op h op w)).
Proof.
  intro H. destruct op as [t fs o|t row r|t u fs]; cbn [apply_op snd].
  - reflexivity.
  - assert (Ht : t <> "workflow_run_steps")
      by (intro E; subst t; exact (H row r eq_refl)).
    destruct r; cbn [snd]; apply same_log_set_table; intro E; contradiction.
  - apply same_log_set_table. intros ->. apply length_map.
Qed.

Ltac keeps_step :=
  first
    [ apply keeps_ret; [exact same_log_refl]
    | apply keeps_throw; [exact same_log_refl]
    | apply keeps_lift; [exact same_log_refl]
    | apply keeps_getSupabase; [exact same_log_refl]
    | apply keeps_fetch; [exact same_log_effect]
    | apply keeps_emit; [exact same_log_effect]
    | apply keeps_sendSms;
        [exact same_log_refl | exact same_log_trans | exact same_log_effect]
    | apply keeps_request;
        [ exact same_log_trans | exact same_log_effect
        | intro; apply same_log_apply_op; intros; discriminate ]
    | apply keeps_bind; [exact same_log_trans | | intro] ].

Lemma executeActionStep_same_log (h : Host) (actionType config context : JSValue)
    (slug : string) :
  keeps same_log (executeActionStep h actionType config context slug).
Proof.
  unfold executeActionStep, interpolated, eq_filter.
  repeat match goal with
         | |- keeps _ (if ?b then _ else _) => destruct b
         | |- keeps _ (match ?x with _ => _ end) => destruct x
         | |- keeps _ (fun w => (due_date _ w _, w)) => intro; exact (same_log_refl _)
         | |- _ => keeps_step
         end.
Qed.

Lemma executeWaitStep_same_log (h : Host) (config : JSValue) :
  keeps same_log (executeWaitStep h config).
Proof.
  unfold executeWaitStep.
  repeat match goal with
         | |- keeps _ (if ?b then _ else _) => destruct b
         | |- _ => keeps_step
         end.
Qed.

Lemma executeStep_same_log (h : Host) (step context : JSValue) (slug : string) :
  keeps same_log (executeStep h step context slug).
Proof.
  unfold executeStep.
  repeat match goal with
         | |- keeps _ (executeWaitStep _ _) => apply executeWaitStep_same_log
         | |- keeps _ (executeActionStep _ _ _ _ _) => apply executeActionStep_same_log
         | |- keeps _ (if ?b then _ else _) => destruct b
         | |- _ => keeps_step
         end.
Qed.

Lemma createWorkflowRun_same_log (h : Host) (params : JSValue) :
  keeps same_log (createWorkflowRun h params).
Proof.
  unfold createWorkflowRun.
  repeat match goal with
         | |- keeps _ (match ?x with _ => _ end) => destruct x
         | |- _ => keeps_step
         end.
Qed.

Lemma loadWorkflowSteps_same_log (h : Host) (automationId : JSValue) :
  keeps same_log (loadWorkflowSteps h automationId).
Proof.
  unfold loadWorkflowSteps, eq_filter.
  repeat match goal with
         | |- keeps _ (match ?x with _ => _ end) => destruct x
         | |- _ => keeps_step
         end.
Qed.

Lemma updateWorkflowRun_same_log (h : Host) (runId updates : JSValue) :
  keeps same_log (updateWorkflowRun h runId updates).
Proof.
  unfold updateWorkflowRun, eq_filter.
  repeat match goal with
         | |- keeps _ (match ?x with _ => _ end) => destruct x
         | |- _ => keeps_step
         end.
Qed.

Lemma complete_run_same_log (h : Host) (runId : JSValue) :
  keeps same_log (complete_run h runId).
Proof.
  unfold complete_run, now_iso. intro w. rewrite bind_eq.
  apply updateWorkflowRun_same_log.
Qed.

Lemma logStepExecution_returns (h : Host) (params : JSValue) (w w' : World) :
  logStepExecution h params w = (Ret tt, w') ->
  w' = stored h (Insert "workflow_run_steps" params false) w.
Proof.
  intro H. pose proof (returns_configured h _ _ _ _ H) as Hc.
  unfold logStepExecution in H. rewrite Hc in H.
  unfold bind at 1, ret at 1 in H. rewrite bind_eq in H.
  unfold request in H. destruct (store_fault h w _) eqn:E; [discriminate H|].
  unfold stored. cbn [apply_op snd fst] in *. inversion H. reflexivity.
Qed.

Section Loop.
Variable h : Host.
Variables (runId context : JSValue) (slug : string).

(** The [catch] block always throws. *)
Lemma catchStep_throws (step startedAt : JSValue) (errMsg : string) (w : World) :
  exists msg w', catchStep h runId step startedAt errMsg w = (Throw msg, w').
Proof.
  unfold catchStep.
  repeat (rewrite bind_eq;
          match goal with
          | |- context [match ?c with _ => _ end] =>
              destruct c as [[?|?] ?]; [|eexists; eexists; reflexivity]
          end).
  eexists; eexists; reflexivity.
Qed.

(** An iteration that returns has executed its step and logged it. *)
Lemma runStep_returns (step : JSValue) (st st' : LoopState) (w w' : World) :
  runStep h runId context slug step st w = (Ret st', w') ->
  exists r w1,
    executeStep h step context slug w = (Ret r, w1)
    /\ st' = {| stepsExecuted := S (stepsExecuted st); shouldContinue := snd r |}
    /\ w' = stored h
              (Insert "workflow_run_steps"
                 (step_log runId step "completed" [("result", fst r)]
                           (JStr (now h w)) (JStr (now h w1))) false) w1.
Proof.
  rewrite runStep_eq. intro H.
  destruct (tryStep h runId context slug step (JStr (now h w)) st w) as [[s|e] w2] eqn:Et.
  - inversion H; subst s w2; clear H. unfold tryStep in Et.
    destruct (ToString h (prop step "stepOrder")) as [order|m];
      [|discriminate Et].
    destruct (ToString h (stepTypeOf step)) as [kind|m]; [|discriminate Et].
    destruct (ToString h (actionTypeOf step)) as [action|m]; [|discriminate Et].
    unfold lift in Et. rewrite !bind_eq in Et.
    destruct (executeStep h step context slug w) as [[r|m] w1]; [|discriminate Et].
    exists r, w1. split; [reflexivity|].
    rewrite bind_eq in Et. unfold now_iso in Et. rewrite bind_eq in Et.
    destruct (logStepExecution h _ w1) as [[[]|m] w2] eqn:El; [|discriminate Et].
    apply logStepExecution_returns in El. subst w2. inversion Et.
    split; reflexivity.
  - destruct (catchStep_throws step (JStr (now h w)) e w2) as (m & w3 & Hc).
    rewrite Hc in H. discriminate H.
Qed.

Lemma logged_stored_insert (row : JSValue) (w : World) :
  logged (stored h (Insert "workflow_run_steps" row false) w) = S (logged w).
Proof.
  unfold logged. rewrite table_stored_insert, length_app. cbn [List.length]. lia.
Qed.

(** The loop: every step executed is logged once, and the loop stops
    early only on a Condition step that is false under [stopOnFalse]. *)
Lemma runSteps_returns (steps : list JSValue) :
  forall (st st' : LoopState) (w w' : World),
    shouldContinue st = true ->
    runSteps h runId context slug steps st w = (Ret st', w') ->
    logged w' = logged w + (stepsExecuted st' - stepsExecuted st)
    /\ (shouldContinue st' = true
        /\ stepsExecuted st' = stepsExecuted st + List.length steps
        \/ exists pre c post,
            steps = (pre ++ c :: post)%list
            /\ stepsExecuted st' = stepsExecuted st + S (List.length pre)
            /\ stepTypeOf c = JStr "Condition"
            /\ evaluateCondition h (configOf c) context = Ret false
            /\ truthy (prop (configOf c) "stopOnFalse") = true).
Proof.
  induction steps as [|step rest IH]; intros st st' w w' Hst H.
  - inversion H; subst st' w'. split; [lia|]. left. split; [exact Hst | cbn; lia].
  - rewrite (runSteps_cons _ _ _ _ _ _ _ _ Hst) in H.
    destruct (runStep h runId context slug step st w) as [[st1|m] w1] eqn:Er;
      [|discriminate H].
    destruct (runStep_returns _ _ _ _ _ Er) as (r & w0 & He & -> & ->).
    pose proof (executeStep_same_log h step context slug w) as Hk.
    rewrite He in Hk. cbn [snd] in Hk. unfold same_log in Hk.
    destruct (snd r) eqn:Es.
    + destruct (IH {| stepsExecuted := S (stepsExecuted st); shouldContinue := true |}
                   _ _ _ eq_refl H) as (Hl & Hcases).
      cbn [stepsExecuted] in *. rewrite logged_stored_insert in Hl.
      assert (Hle : S (stepsExecuted st) <= stepsExecuted st').
      { destruct Hcases as [[_ E] | (pre & c & post & _ & E & _)]; lia. }
      split; [lia|].
      destruct Hcases as [[Hc E] | (pre & c & post & -> & E & Hc)].
      * left. split; [exact Hc | cbn [List.length]; lia].
      * right. exists (step :: pre), c, post.
        split; [reflexivity|]. split; [cbn [List.length]; lia | exact Hc].
    + rewrite runSteps_stopped in H by reflexivity.
      inversion H; subst st' w'; clear H. cbn [stepsExecuted].
      rewrite logged_stored_insert. split; [lia|].
      right. exists [], step, rest. split; [reflexivity|].
      split; [cbn [List.length]; lia|].
      destruct r as [result continue]. cbn [snd] in Es. subst continue.
      clear - He. unfold executeStep in He.
      destruct (is_str (stepTypeOf step) "Trigger"); [discriminate He|].
      destruct (is_str (stepTypeOf step) "Wait").
      { rewrite bind_eq in He. destruct (executeWaitStep h _ w) as [[?|?] ?];
          discriminate He. }
      destruct (is_str (stepTypeOf step) "Action").
      { rewrite bind_eq in He. destruct (executeActionStep h _ _ _ _ w) as [[?|?] ?];
          discriminate He. }
      destruct (is_str (stepTypeOf step) "Condition") eqn:Ec.
      * rewrite bind_eq in He. unfold lift in He.
        destruct (evaluateCondition h (configOf step) context) as [passed|m];
          [|discriminate He].
        destruct passed; cbn [negb andb] in He; [discriminate He|].
        destruct (truthy (prop (configOf step) "stopOnFalse")); [|discriminate He].
        split; [|split; reflexivity].
        destruct (stepTypeOf step); try discriminate Ec.
        cbn [is_str] in Ec. apply String.eqb_eq in Ec. congruence.
      * rewrite bind_eq in He. unfold lift in He.
        destruct (ToString h (stepTypeOf step)); discriminate He.
Qed.

End Loop.

(** A run that returns was started. *)
Lemma runAutomation_returns (h : Host) (params : RunAutomationParams) (w w' : World)
    (result : JSValue) :
  runAutomation h params w = (Ret result, w') ->
  exists runId steps w2, run_started h params w runId steps w2.
Proof.
  unfold runAutomation, run_started. intro H.
  destruct (ToString h (automationName params)) as [name|m]; [|discriminate H].
  unfold lift in H. rewrite !bind_eq in H.
  destruct (createWorkflowRun h _ w) as [[run|m] w1] eqn:Ec; [|discriminate H].
  rewrite bind_eq in H.
  destruct (loadWorkflowSteps h _ w1) as [[steps|m] w2] eqn:El; [|discriminate H].
  exists (prop run "id"), steps, w2, name, run, w1. repeat split; assumption.
Qed.

Lemma run_started_same_log (h : Host) params w runId steps w2 :
  run_started h params w runId steps w2 -> logged w2 = logged w.
Proof.
  intros (name & run & w1 & _ & Hc & _ & Hl).
  pose proof (createWorkflowRun_same_log h
                (JObj [ ("org_id", orgId (event params));
                        ("automation_id", automationId params);
                        ("event_id", eventId (event params));
                        ("status", JStr "running") ]) w) as H1.
  pose proof (loadWorkflowSteps_same_log h (automationId params) w1) as H2.
  rewrite Hc in H1. rewrite Hl in H2. cbn [snd] in *. unfold same_log in *. congruence.
Qed.

(** For every run that returns, the number [stepsExecuted] it reports is
    the number of step records the run has added to the log, and it is at
    most the number of steps of the automation. *)
Theorem executed_steps_are_logged
    (h : Host) (params : RunAutomationParams) (w w' : World) (result : JSValue) :
  runAutomation h params w = (Ret result, w') ->
  exists runId steps w2 n,
    run_started h params w runId steps w2
    /\ result = run_result runId n
    /\ logged w' = logged w + n
    /\ n <= List.length steps.
Proof.
  intro H. destruct (runAutomation_returns h _ _ _ _ H) as (runId & steps & w2 & Hs).
  pose proof (run_started_same_log h _ _ _ _ _ Hs) as Hlog.
  rewrite (runAutomation_started h _ _ _ _ _ Hs) in H.
  destruct (runSteps h runId _ _ steps first_state w2) as [[st|m] w3] eqn:Er;
    [|discriminate H].
  pose proof (complete_run_same_log h runId w3) as Hc.
  destruct (complete_run h runId w3) as [[[]|m] w4]; [|discriminate H].
  inversion H; subst result w4; clear H. cbn [snd] in Hc. unfold same_log in Hc.
  destruct (runSteps_returns h _ _ _ steps first_state _ _ _ eq_refl Er) as (Hl & Hcases).
  cbn [first_state stepsExecuted] in *.
  exists runId, steps, w2, (stepsExecuted st).
  split; [exact Hs|]. split; [reflexivity|]. split; [lia|].
  destruct Hcases as [[_ E] | (pre & c & post & E1 & E2 & _)]; [lia|].
  subst steps. rewrite length_app. cbn [List.length]. lia.
Qed.

(** The only way a run ends early without failing: a run that returns
    has executed every step of the automation, unless one of them is a
    Condition step that evaluated to false with a truthy [stopOnFalse];
    then the steps up to that one are the ones executed. *)
Theorem early_stop_only_on_condition
    (h : Host) (params : RunAutomationParams) (w w2 w' : World)
    (runId result : JSValue) (steps : list JSValue) :
  run_started h params w runId steps w2 ->
  runAutomation h params w = (Ret result, w') ->
  exists n,
    result = run_result runId n
    /\ (n = List.length steps
        \/ exists pre c post,
            steps = (pre ++ c :: post)%list
            /\ n = S (List.length pre)
            /\ stepTypeOf c = JStr "Condition"
            /\ evaluateCondition h (configOf c) (initial_context (event params)) = Ret false
            /\ truthy (prop (configOf c) "stopOnFalse") = true).
Proof.
  intros Hs H. rewrite (runAutomation_started h _ _ _ _ _ Hs) in H.
  destruct (runSteps h runId _ _ steps first_state w2) as [[st|m] w3] eqn:Er;
    [|discriminate H].
  destruct (complete_run h runId w3) as [[[]|m] w4]; [|discriminate H].
  inversion H; subst result w4; clear H.
  destruct (runSteps_returns h _ _ _ steps first_state _ _ _ eq_refl Er) as (_ & Hcases).
  cbn [first_state stepsExecuted] in *.
  exists (stepsExecuted st). split; [reflexivity|].
  destruct Hcases as [[_ E] | (pre & c & post & E1 & E2 & E3)].
  - left. exact E.
  - right. exists pre, c, post. split; [exact E1|]. split; [exact E2 | exact E3].
Qed.

(** ** The router and the store helpers *)



Lemma not_configured (h : Host) :
  ~ configured h -> getSupabase h = throw "Missing SUPABASE_SERVICE_ROLE_KEY".
Proof. intro H. destruct (getSupabase_cases h) as [Hc|Hc]; [contradiction | exact Hc]. Qed.

(** Without the service key nothing reaches the store: every helper of
    supabase.ts throws [Missing SUPABASE_SERVICE_ROLE_KEY] before it sends
    a request, and so do the router and, past its first log line, the
    orchestrator; the world is as it was. *)
Theorem missing_service_key (h : Host) (w : World) :
  ~ configured h ->
  let failure {A : Type} : Outcome A * World :=
    (Throw "Missing SUPABASE_SERVICE_ROLE_KEY", w) in
  (forall automationId, loadWorkflowSteps h automationId w = failure)
  /\ (forall orgId triggerType triggerValue,
        loadMatchingAutomations h orgId triggerType triggerValue w = failure)
  /\ (forall params, createWorkflowRun h params w = failure)
  /\ (forall runId updates, updateWorkflowRun h runId updates w = failure)
  /\ (forall params, logStepExecution h params w = failure)
  /\ (forall event, emitEvent h event w = failure)
  /\ (forall e, processEvent h e w = failure)
  /\ (forall params name,
        ToString h (automationName params) = Ret name ->
        runAutomation h params w = failure).
Proof.
  intros H failure. apply not_configured in H.
  unfold loadWorkflowSteps, loadMatchingAutomations, createWorkflowRun,
    updateWorkflowRun, logStepExecution, emitEvent, processEvent, matchingAutomations,
    loadMatchingAutomations, runAutomation, createWorkflowRun.
  rewrite H. repeat split; try reflexivity.
  intros params name ->. reflexivity.
Qed.

(** The errors of the store are thrown on. When the store refuses the
    request of a helper, the helper throws the error of the store under
    its own name ([loadWorkflowSteps failed:], [createWorkflowRun failed:],
    [updateWorkflowRun failed:], [logStepExecution failed:],
    [emitEvent failed:]); the request was sent once and the tables are as
    they were. *)
Theorem store_errors_are_thrown (h : Host) (w : World) (msg : string) :
  configured h ->
  let refused (op : StoreOp) := store_fault h w op = Some msg in
  let failure {A : Type} (helper : string) (op : StoreOp) : Outcome A * World :=
    (Throw (helper ++ " failed: " ++ msg), after (EStore op) w) in
  (forall automationId id,
      ToString h automationId = Ret id ->
      let op := Select "workflow_steps" [("automation_id", id)] (Some "stepOrder") in
      refused op -> loadWorkflowSteps h automationId w = failure "loadWorkflowSteps" op)
  /\ (forall params,
        let op := Insert "workflow_runs" params true in
        refused op -> createWorkflowRun h params w = failure "createWorkflowRun" op)
  /\ (forall runId updates id,
        ToString h runId = Ret id ->
        let op := Update "workflow_runs" updates [("id", id)] in
        refused op -> updateWorkflowRun h runId updates w = failure "updateWorkflowRun" op)
  /\ (forall params,
        let op := Insert "workflow_run_steps" params false in
        refused op -> logStepExecution h params w = failure "logStepExecution" op)
  /\ (forall event entity,
        ToString h (entity_id event) = Ret entity ->
        let op := Insert "workflow_events" (event_row event entity) true in
        refused op -> emitEvent h event w = failure "emitEvent" op).
Proof.
  intros Hc refused failure. unfold refused, failure.
  unfold loadWorkflowSteps, createWorkflowRun, updateWorkflowRun, logStepExecution,
    emitEvent, eq_filter.
  rewrite Hc. split; [|split; [|split; [|split]]].
  - intros automationId id -> Hf. unfold bind, lift, ret. cbn [obind].
    unfold request. rewrite Hf. reflexivity.
  - intros params Hf. unfold bind, ret, request. rewrite Hf. reflexivity.
  - intros runId updates id -> Hf. unfold bind, lift, ret. cbn [obind].
    unfold request. rewrite Hf. reflexivity.
  - intros params Hf. unfold bind, ret, request. rewrite Hf. reflexivity.
  - intros event entity -> Hf. unfold bind, lift, ret, request. rewrite Hf. reflexivity.
Qed.

Lemma loadMatchingAutomations_world (h : Host) (orgId : JSValue) (triggerType : string)
    (triggerValue : JSValue) (w : World) :
  let w' := snd (loadMatchingAutomations h orgId triggerType triggerValue w) in
  db w' = db w
  /\ (w' = w \/ exists filters, w' = after (EStore (Select "automations" filters None)) w).
Proof.
  cbv zeta. unfold loadMatchingAutomations, eq_filter.
  destruct (getSupabase_cases h) as [Hc|Hc]; rewrite Hc;
    [|split; [reflexivity | left; reflexivity]].
  unfold bind, lift, ret, throw, request.
  destruct (ToString h orgId) as [org|m]; cbn [obind ToString snd];
    [|split; [reflexivity | left; reflexivity]].
  destruct (truthy triggerValue).
  - destruct (ToString h triggerValue) as [value|m]; cbn [obind snd];
      [|split; [reflexivity | left; reflexivity]].
    destruct (store_fault h w _); cbn [apply_op snd fst];
      (split; [reflexivity | right; eexists; reflexivity]).
  - destruct (store_fault h w _); cbn [apply_op snd fst];
      (split; [reflexivity | right; eexists; reflexivity]).
Qed.

(** When the query for the matching automations fails, the router fails
    with the same error and does nothing else: no automation is run and
    the event is not marked processed, the tables being as they were. *)
Theorem failed_query_leaves_event
    (h : Host) (e : WorkflowEventPayload) (w w1 : World) (msg : string) :
  matchingAutomations h e w = (Throw msg, w1) ->
  processEvent h e w = (Throw msg, w1)
  /\ db w1 = db w
  /\ (w1 = w \/ exists filters, w1 = after (EStore (Select "automations" filters None)) w).
Proof.
  intro H. split.
  - unfold processEvent. rewrite bind_eq, H. reflexivity.
  - unfold matchingAutomations in H.
    pose proof (loadMatchingAutomations_world h (orgId e) (triggerTypeOf (eventType e))
                  (js_or (prop (JObj (payload e)) "triggerValue") JUndefined) w) as L.
    rewrite H in L. exact L.
Qed.

(** ** Records written and read back *)

Lemma cell_text_ToString (h : Host) (v : JSValue) (s : string) :
  cell_text h v = Some s -> ToString h v = Ret s.
Proof.
  destruct v as [| |[|]|n|x|items|props]; cbn [cell_text ToString]; intro H;
    try discriminate H; inversion H; reflexivity.
Qed.



(** What an insertion that returns the new row answers and does. *)
Lemma insert_returning (h : Host) (t : string) (props : list (string * JSValue))
    (w : World) :
  store_fault h w (Insert t (JObj props) true) = None ->
  let w1 := after (EStore (Insert t (JObj props) true)) w in
  let id := new_id h w1 t in
  request h (Insert t (JObj props) true) w
  = (Ret (JObj [("id", id)], None),
     set_table t (table t w ++ [with_prop "id" id (JObj props)]) w1).
Proof.
  intros Hf w1 id. unfold request. rewrite Hf. reflexivity.
Qed.



(** An event, emitted and marked. After [emitEvent] and the router's
    final write on the id it returned, the table of events has one more
    row, the event: it has that id, the entity id as text, the type and
    the payload given, and [processed_at] set. *)
Theorem emitted_event_is_marked
    (h : Host) (event : CrmEvent) (w w1 w2 : World) (data : JSValue) :
  reliable h ->
  emitEvent h event w = (Ret data, w1) ->
  mark_processed h (prop data "id") w1 = (Ret tt, w2) ->
  cell_text h (prop data "id") <> None ->
  exists entity rows record,
    ToString h (entity_id event) = Ret entity
    /\ table "workflow_events" w2 = (rows ++ [record])%list
    /\ List.length rows = List.length (table "workflow_events" w)
    /\ prop record "id" = prop data "id"
    /\ prop record "processed_at" = JStr (now h w1)
    /\ prop record "entity_id" = JStr entity
    /\ prop record "event_type" = JStr (event_type event)
    /\ prop record "payload" = event_payload event.
Proof.
  intros Hr Hemit Hmark Hcell.
  pose proof (returns_configured h _ _ _ _ Hemit) as Hc.
  unfold emitEvent in Hemit. rewrite Hc in Hemit.
  unfold bind at 1, ret at 1 in Hemit. rewrite bind_eq in Hemit. unfold lift in Hemit.
  destruct (ToString h (entity_id event)) as [entity|m]; [|discriminate Hemit].
  rewrite bind_eq in Hemit. unfold event_row in Hemit.
  rewrite (insert_returning h _ _ _ (Hr _ _)) in Hemit. cbn [snd fst] in Hemit.
  inversion Hemit; subst data w1; clear Hemit.
  match type of Hmark with
  | context [new_id h ?ww "workflow_events"] => set (w0 := ww) in *
  end.
  set (id := new_id h w0 "workflow_events") in *.
  change (prop (JObj [("id", id)]) "id") with id in *.
  destruct (cell_text h id) as [text|] eqn:Es; [|contradiction Hcell; reflexivity].
  pose proof (cell_text_ToString h _ _ Es) as Htext.
  unfold mark_processed, eq_filter, now_iso in Hmark. rewrite Hc, Htext in Hmark.
  unfold bind, lift, ret in Hmark. cbn [obind] in Hmark.
  rewrite (request_accepted h _ _ (Hr _ _)) in Hmark.
  inversion Hmark; subst w2; clear Hmark.
  rewrite update_accepted_table, table_set_table_same, map_app. cbn [map].
  exists entity. eexists. eexists. split; [reflexivity|]. split; [reflexivity|].
  split; [rewrite length_map; reflexivity|].
  match goal with
  | |- context [row_matches h ?f ?r] => assert (Hm : row_matches h f r = true)
  end.
  { apply row_matches_cons. split; [exact Es | reflexivity]. }
  rewrite Hm. repeat split; reflexivity.
Qed.

(** ** The API routes *)

Lemma and_then_eq {A B : Type} (c : Route A) (k : A -> Route B) (calls : list Call) :
  and_then c k calls
  = match c calls with
    | (Ret a, calls') => k a calls'
    | (Throw msg, calls') => (Throw msg, calls')
    end.
Proof. reflexivity. Qed.

Lemma call_eq (r : Remote) (c : Call) (calls : list Call) :
  snd (call r c calls) = (calls ++ [c])%list.
Proof. unfold call. destruct (answer r calls c); reflexivity. Qed.

Section TriggerEventRoute.
Variable h : Host.
Variable r : Remote.

(** The invocation of the task returns whatever the service does, and
    makes one call. *)
Lemma invoke_returns (key : string) (body : JSValue) (calls : list Call) :
  exists result,
    TriggerEvent.invoke r key body calls
    = (Ret result, (calls ++ [TriggerEvent.trigger_call key body])%list).
Proof.
  unfold TriggerEvent.invoke, attempt. rewrite and_then_eq. unfold call.
  destruct (answer r calls _) as [msg|ok status text json];
    [eexists; reflexivity|].
  cbn [resp_ok resp_json resp_status]. destruct ok; [|eexists; reflexivity].
  unfold raise. destruct json; eexists; reflexivity.
Qed.

Lemma sbRest_returns (url key path verb : string) (body : JSValue)
    (headers : list (string * JSValue)) (calls : list Call) :
  exists c,
    snd (TriggerEvent.sbRest r url key path verb body headers calls) = (calls ++ [c])%list
    /\ call_url c = url ++ path /\ call_method c = verb
    /\ (forall msg, answer r calls c = NetworkError msg ->
        TriggerEvent.sbRest r url key path verb body headers calls
        = (Throw msg, (calls ++ [c])%list))
    /\ (forall ok status text json,
          answer r calls c = Response ok status text json ->
          TriggerEvent.sbRest r url key path verb body headers calls
          = (Ret {| TriggerEvent.ok := ok;
                    TriggerEvent.answer_status := status;
                    TriggerEvent.json :=
                      if text =? "" then JNull
                      else match json with Ret v => v | Throw _ => JNull end;
                    TriggerEvent.text := text |},
             (calls ++ [c])%list)).
Proof.
  unfold TriggerEvent.sbRest.
  exists {| call_url := url ++ path;
            call_method := verb;
            call_headers :=
              spread [ ("apikey", JStr key);
                       ("Authorization", JStr ("Bearer " ++ key));
                       ("Content-Type", JStr "application/json") ]
                     headers;
            call_body := if truthy body then Some body else None |}.
  rewrite and_then_eq.
  split; [|split; [reflexivity|split; [reflexivity|split]]].
  - unfold call. destruct (answer r calls _); reflexivity.
  - intros msg H. unfold call. rewrite H. reflexivity.
  - intros ok status text json H. unfold call. rewrite H. reflexivity.
Qed.

End TriggerEventRoute.

(** The guards of the route [trigger-event]. A preflight request is
    answered 200; another method than POST 405; a POST without the
    service key 500; a POST that lacks [orgId], [eventType] or
    [entityType] 400. In none of these cases does the route call the
    store or the task service. *)
Theorem trigger_event_guards (h : Host) (r : Remote) (req : Request) (calls : list Call) :
  let run := TriggerEvent.handler h r req calls in
  let refused code message :=
    (Ret (TriggerEvent.reply code (TriggerEvent.error message)), calls) in
  (method req = "OPTIONS" -> run = (Ret (TriggerEvent.reply 200 NoPayload), calls))
  /\ (method req <> "OPTIONS" -> method req <> "POST" ->
      run = refused 405 "Method not allowed")
  /\ (method req = "POST" ->
      variable h "SUPABASE_SERVICE_ROLE_KEY" = None ->
      run = refused 500 "Missing SUPABASE_SERVICE_ROLE_KEY")
  /\ (method req = "POST" ->
      variable h "SUPABASE_SERVICE_ROLE_KEY" <> None ->
      (exists field, In field ["orgId"; "eventType"; "entityType"]
                     /\ truthy (prop (js_or (req_body req) (JObj [])) field) = false) ->
      run = refused 400 "Missing required: orgId, eventType, entityType").
Proof.
  cbv zeta. unfold TriggerEvent.handler.
  split; [|split; [|split]].
  - intros ->. reflexivity.
  - intros H1 H2. apply String.eqb_neq in H1, H2. rewrite H1, H2. reflexivity.
  - intros -> ->. reflexivity.
  - intros -> Hk (field & Hin & Hf). cbn [String.eqb Ascii.eqb Bool.eqb negb].
    destruct (variable h "SUPABASE_SERVICE_ROLE_KEY") as [key|];
      [|contradiction Hk; reflexivity].
    unfold attempt. cbv zeta.
    destruct Hin as [<-|[<-|[<-|[]]]]; rewrite Hf; cbn [negb orb];
      rewrite ?orb_true_r; reflexivity.
Qed.

(** The route [trigger-event] always replies: whatever the request and
    whatever the store and the task service answer, it returns a reply
    with status 200, 400, 405 or 500 and the CORS headers, after two
    calls at most. *)
Theorem trigger_event_always_replies
    (h : Host) (r : Remote) (req : Request) (calls : list Call) :
  exists reply made,
    TriggerEvent.handler h r req calls = (Ret reply, (calls ++ made)%list)
    /\ List.length made <= 2
    /\ In (status reply) [200; 400; 405; 500]
    /\ reply_headers reply = TriggerEvent.cors.
Proof.
  unfold TriggerEvent.handler.
  destruct (method req =? "OPTIONS").
  { exists (TriggerEvent.reply 200 NoPayload), []. rewrite app_nil_r.
    repeat split; cbn; auto. }
  destruct (method req =? "POST"); cbn [negb].
  2:{ eexists; exists []. rewrite app_nil_r. split; [reflexivity|].
      repeat split; cbn; auto. }
  destruct (variable h "SUPABASE_SERVICE_ROLE_KEY") as [key|].
  2:{ eexists; exists []. rewrite app_nil_r. split; [reflexivity|].
      repeat split; cbn; auto 6. }
  unfold attempt. cbv zeta.
  set (body := js_or (req_body req) (JObj [])).
  destruct (negb (truthy (prop body "orgId")) || negb (truthy (prop body "eventType"))
            || negb (truthy (prop body "entityType"))).
  { eexists; exists []. rewrite app_nil_r. split; [reflexivity|].
    repeat split; cbn; auto. }
  rewrite and_then_eq. unfold raise at 1.
  destruct (ToString h (js_or (prop body "entityId") (JStr ""))) as [entity|msg].
  2:{ eexists; exists []. rewrite app_nil_r. split; [reflexivity|].
      repeat split; cbn; auto 6. }
  rewrite and_then_eq.
  destruct (sbRest_returns r (supabase_url h) key "/rest/v1/workflow_events" "POST"
              (TriggerEvent.event_record (prop body "orgId") (prop body "eventType")
                 (prop body "entityType") entity (prop body "payload"))
              [("Prefer", JStr "return=representation")] calls)
    as (c & _ & _ & _ & Hfail & Hanswer).
  destruct (answer r calls c) as [msg|ok status text json] eqn:Ea.
  { rewrite (Hfail msg eq_refl). eexists; exists [c]. split; [reflexivity|].
    repeat split; cbn; auto 6. }
  rewrite (Hanswer ok status text json eq_refl). cbn [TriggerEvent.ok].
  destruct ok; cbn [negb].
  2:{ eexists; exists [c]. split; [reflexivity|]. repeat split; cbn; auto 6. }
  rewrite and_then_eq.
  destruct (variable h "TRIGGER_SECRET_KEY") as [tkey|].
  - match goal with
    | |- context [TriggerEvent.invoke r tkey ?b ?cs] =>
        destruct (invoke_returns r tkey b cs) as (result & ->)
    end.
    eexists; eexists [c; _]. rewrite <- app_assoc. split; [reflexivity|].
    repeat split; cbn; auto.
  - eexists; exists [c]. split; [reflexivity|]. repeat split; cbn; auto.
Qed.

(** A failure of the task service does not fail the route. For a POST
    with its required fields, once the store has taken the event the
    route replies 200 with [ok: true] and the id of the row the store
    returned, whatever the invocation of the task gives: an error, an
    answer that is not ok and an answer that is not JSON all end in the
    [trigger] field. Without [TRIGGER_SECRET_KEY] the task is not invoked
    and the insertion is the only call. *)
Theorem trigger_failure_is_not_fatal
    (h : Host) (r : Remote) (req : Request) (calls : list Call)
    (key entity text : string) (status : JSValue) (json : Outcome JSValue) :
  method req = "POST" ->
  variable h "SUPABASE_SERVICE_ROLE_KEY" = Some key ->
  let body := js_or (req_body req) (JObj []) in
  truthy (prop body "orgId") = true ->
  truthy (prop body "eventType") = true ->
  truthy (prop body "entityType") = true ->
  ToString h (js_or (prop body "entityId") (JStr "")) = Ret entity ->
  let insertion :=
    {| call_url := supabase_url h ++ "/rest/v1/workflow_events";
       call_method := "POST";
       call_headers := [ ("apikey", JStr key);
                         ("Authorization", JStr ("Bearer " ++ key));
                         ("Content-Type", JStr "application/json");
                         ("Prefer", JStr "return=representation") ];
       call_body :=
         Some (TriggerEvent.event_record (prop body "orgId") (prop body "eventType")
                 (prop body "entityType") entity (prop body "payload")) |} in
  answer r calls insertion = Response true status text json ->
  let rows := if text =? "" then JNull
              else match json with Ret v => v | Throw _ => JNull end in
  let eventId := prop (first_item (js_or rows (JArr []))) "id" in
  exists trigger made,
    TriggerEvent.handler h r req calls
    = (Ret (TriggerEvent.reply 200
              (Json (JObj [("ok", JBool true); ("eventId", eventId);
                           ("trigger", trigger)]))),
       (calls ++ insertion :: made)%list)
    /\ match variable h "TRIGGER_SECRET_KEY" with
       | None =>
           made = []
           /\ trigger = JObj [ ("skipped", JBool true);
                               ("reason", JStr "TRIGGER_SECRET_KEY not configured") ]
       | Some triggerApiKey =>
           made = [ TriggerEvent.trigger_call triggerApiKey
                      (TriggerEvent.task_payload eventId (prop body "orgId")
                         (prop body "orgSlug") (prop body "eventType")
                         (prop body "entityType") (prop body "entityId")
                         (prop body "payload")) ]
       end.
Proof.
  intros Hm Hk body H1 H2 H3 He insertion Ha rows eventId.
  unfold TriggerEvent.handler. rewrite Hm, Hk.
  cbn [String.eqb Ascii.eqb Bool.eqb negb]. unfold attempt. cbv zeta.
  fold body. rewrite H1, H2, H3. cbn [negb orb].
  rewrite and_then_eq. unfold raise at 1. rewrite He.
  rewrite and_then_eq. unfold TriggerEvent.sbRest. rewrite and_then_eq.
  unfold call at 1.
  change (spread _ [("Prefer", JStr "return=representation")])
    with (call_headers insertion).
  change (if truthy (TriggerEvent.event_record _ _ _ _ _) then _ else None)
    with (call_body insertion).
  change {| call_url := supabase_url h ++ "/rest/v1/workflow_events";
            call_method := "POST";
            call_headers := call_headers insertion;
            call_body := call_body insertion |} with insertion.
  rewrite Ha. unfold pure at 1.
  cbn [TriggerEvent.ok TriggerEvent.json TriggerEvent.text resp_ok resp_text resp_json negb].
  fold rows. fold eventId. rewrite and_then_eq.
  destruct (variable h "TRIGGER_SECRET_KEY") as [tkey|].
  - match goal with
    | |- context [TriggerEvent.invoke r tkey ?b ?cs] =>
        destruct (invoke_returns r tkey b cs) as (result & ->)
    end.
    eexists; eexists. rewrite <- app_assoc. split; reflexivity.
  - eexists; exists []. split; [reflexivity|]. split; reflexivity.
Qed.

(** The status callback. A POST is always answered 200 with an empty
    body, whatever the request holds and whatever the store does, after
    one call at most. Without the service key, or without [MessageSid] or
    [MessageStatus], no call is made. Otherwise the one call patches the
    messages whose [twilio_sid] is the SID: it sets [status] to the
    status, [updated_at] to the time, and [error_code] and
    [error_message] only when the callback carries them. *)
Theorem twilio_status_replies (h : Host) (r : Remote) (req : Request) (calls : list Call) :
  method req = "POST" ->
  let body := js_or (req_body req) (JObj []) in
  let messageSid := prop body "MessageSid" in
  let messageStatus := prop body "MessageStatus" in
  let errorCode := prop body "ErrorCode" in
  let errorMessage := prop body "ErrorMessage" in
  (exists made,
      TwilioStatus.handler h r req calls = (Ret TwilioStatus.done, (calls ++ made)%list)
      /\ List.length made <= 1)
  /\ (variable h "SUPABASE_SERVICE_ROLE_KEY" = None
      \/ truthy messageSid = false \/ truthy messageStatus = false ->
      TwilioStatus.handler h r req calls = (Ret TwilioStatus.done, calls))
  /\ (forall key sid,
        variable h "SUPABASE_SERVICE_ROLE_KEY" = Some key ->
        truthy messageSid = true -> truthy messageStatus = true ->
        ToString h messageSid = Ret sid ->
        let update := TwilioStatus.updateBody messageStatus errorCode errorMessage
                        (clock r calls) in
        TwilioStatus.handler h r req calls
        = (Ret TwilioStatus.done, (calls ++ [TwilioStatus.update_call h key sid update])%list)
        /\ prop update "status" = messageStatus
        /\ prop update "updated_at" = JStr (clock r calls)
        /\ prop update "error_code"
           = (if truthy errorCode then errorCode else JUndefined)
        /\ prop update "error_message"
           = (if truthy errorMessage then errorMessage else JUndefined)).
Proof.
  intros Hm body messageSid messageStatus errorCode errorMessage.
  unfold TwilioStatus.handler. rewrite Hm.
  cbn [String.eqb Ascii.eqb Bool.eqb negb]. cbv zeta.
  fold body. fold messageSid messageStatus errorCode errorMessage.
  split; [|split].
  - destruct (variable h "SUPABASE_SERVICE_ROLE_KEY") as [key|];
      [|exists []; rewrite app_nil_r; split; [reflexivity | cbn; lia]].
    unfold attempt.
    destruct (negb (truthy messageSid) || negb (truthy messageStatus));
      [exists []; rewrite app_nil_r; split; [reflexivity | cbn; lia]|].
    rewrite and_then_eq. unfold raise at 1.
    destruct (ToString h messageSid) as [sid|msg];
      [|exists []; rewrite app_nil_r; split; [reflexivity | cbn; lia]].
    rewrite !and_then_eq. unfold call.
    destruct (answer r calls _); eexists [_]; split; try reflexivity; cbn; lia.
  - intros [H | [H | H]].
    + rewrite H. reflexivity.
    + destruct (variable h "SUPABASE_SERVICE_ROLE_KEY"); [|reflexivity].
      unfold attempt. rewrite H. reflexivity.
    + destruct (variable h "SUPABASE_SERVICE_ROLE_KEY"); [|reflexivity].
      unfold attempt. rewrite H, orb_true_r. reflexivity.
  - intros key sid Hk H1 H2 Hs. rewrite Hk. unfold attempt.
    rewrite H1, H2. cbn [negb orb].
    rewrite and_then_eq. unfold raise at 1. rewrite Hs.
    rewrite !and_then_eq. unfold call.
    split; [destruct (answer r calls _); reflexivity|].
    unfold TwilioStatus.updateBody, prop.
    rewrite !assoc_obj_set, !assoc_spread.
    cbn [String.eqb Ascii.eqb Bool.eqb].
    destruct (truthy errorCode), (truthy errorMessage);
      cbn [rev app assoc String.eqb Ascii.eqb Bool.eqb]; repeat split; reflexivity.
Qed.

Lemma hex_digit_inj (a b : nat) :
  a < 16 -> b < 16 -> hex_digit a = hex_digit b -> a = b.
Proof.
  intros Ha Hb.
  do 16 (destruct a as [|a]; [do 16 (destruct b as [|b]; [first [reflexivity | discriminate]|]); lia|]).
  lia.
Qed.

Lemma nat_of_ascii_bound (c : ascii) : nat_of_ascii c < 256.
Proof. apply nat_ascii_bounded. Qed.

Lemma percent_encoded_inj (c1 c2 : ascii) :
  percent_encoded c1 = percent_encoded c2 -> c1 = c2.
Proof.
  unfold percent_encoded.
  pose proof (nat_of_ascii_bound c1) as B1. pose proof (nat_of_ascii_bound c2) as B2.
  pose proof (Nat.div_mod_eq (nat_of_ascii c1) 16) as D1.
  pose proof (Nat.div_mod_eq (nat_of_ascii c2) 16) as D2.
  assert (Q1 : nat_of_ascii c1 / 16 < 16) by (apply Nat.Div0.div_lt_upper_bound; lia).
  assert (Q2 : nat_of_ascii c2 / 16 < 16) by (apply Nat.Div0.div_lt_upper_bound; lia).
  assert (M1 : nat_of_ascii c1 mod 16 < 16) by (apply Nat.mod_upper_bound; lia).
  assert (M2 : nat_of_ascii c2 mod 16 < 16) by (apply Nat.mod_upper_bound; lia).
  revert D1 D2 Q1 Q2 M1 M2.
  generalize (nat_of_ascii c1 / 16), (nat_of_ascii c1 mod 16),
    (nat_of_ascii c2 / 16), (nat_of_ascii c2 mod 16).
  intros q1 m1 q2 m2 D1 D2 Q1 Q2 M1 M2 H.
  injection H as H1 H2.
  apply hex_digit_inj in H1; [|assumption ..].
  apply hex_digit_inj in H2; [|assumption ..].
  rewrite <- (ascii_nat_embedding c1), <- (ascii_nat_embedding c2).
  f_equal. lia.
Qed.

Lemma hex_digit_unreserved (n : nat) : unreserved (hex_digit n) = true.
Proof. do 16 (destruct n as [|n]; [reflexivity|]). destruct n; reflexivity. Qed.

(** encodeURIComponent: the encoded text is made of unreserved characters
    and percent signs, text made of unreserved characters is kept as it
    is, and two texts with the same encoding are the same text. *)
Lemma encodeURIComponent_characters (s : string) (c : ascii) :
  In c (list_ascii_of_string (encodeURIComponent s)) ->
  unreserved c = true \/ c = "%"%char.
Proof.
  induction s as [|a rest IH]; intro H; [destruct H|].
  cbn [encodeURIComponent] in H. destruct (unreserved a) eqn:Ea.
  - cbn in H. destruct H as [<-|H]; [left; exact Ea | exact (IH H)].
  - unfold percent_encoded in H. cbn in H.
    destruct H as [<-|[<-|[<-|H]]];
      [right; reflexivity | left; apply hex_digit_unreserved ..| exact (IH H)].
Qed.

Lemma encodeURIComponent_unreserved (s : string) :
  forallb unreserved (list_ascii_of_string s) = true -> encodeURIComponent s = s.
Proof.
  induction s as [|a rest IH]; [reflexivity|].
  cbn [list_ascii_of_string forallb encodeURIComponent]. intro H.
  apply andb_prop in H. destruct H as [Ha Hrest].
  rewrite Ha, (IH Hrest). reflexivity.
Qed.

Lemma encodeURIComponent_inj (s1 : string) :
  forall s2, encodeURIComponent s1 = encodeURIComponent s2 -> s1 = s2.
Proof.
  induction s1 as [|a1 r1 IH]; intros [|a2 r2] H.
  - reflexivity.
  - cbn [encodeURIComponent] in H. destruct (unreserved a2); discriminate H.
  - cbn [encodeURIComponent] in H. destruct (unreserved a1); discriminate H.
  - cbn [encodeURIComponent] in H.
    destruct (unreserved a1) eqn:E1, (unreserved a2) eqn:E2.
    + cbn in H. inversion H. f_equal. apply IH. assumption.
    + unfold percent_encoded in H. cbn in H. inversion H. subst a1. discriminate E1.
    + unfold percent_encoded in H. cbn in H. inversion H. subst a2. discriminate E2.
    + unfold percent_encoded in H. cbn [append] in H.
      inversion H as [[H1 H2 H3]].
      assert (E : a1 = a2).
      { apply percent_encoded_inj. unfold percent_encoded. congruence. }
      subst a2. f_equal. apply IH. assumption.
Qed.

Lemma append_inj_l (p a b : string) : p ++ a = p ++ b -> a = b.
Proof.
  induction p as [|c p IH]; cbn [append]; intro H; [exact H|].
  inversion H. apply IH. assumption.
Qed.

(** The filter of the status callback cannot be bent by the SID. The URL
    the route patches is the messages endpoint followed by the encoded
    SID; the encoded SID is made of unreserved characters and percent
    signs only, so it holds none of the characters that structure a
    query ([&], [=], [?], [#], [/], a space); a SID of unreserved
    characters is written as it is; and two SIDs that give the same URL
    are the same SID. *)
Theorem status_filter_is_safe (h : Host) (key sid : string) (body : JSValue) :
  exists filter,
    call_url (TwilioStatus.update_call h key sid body)
    = supabase_url h ++ "/rest/v1/messages?twilio_sid=eq." ++ filter
    /\ (forall c, In c (list_ascii_of_string filter) ->
                  unreserved c = true \/ c = "%"%char)
    /\ (forallb unreserved (list_ascii_of_string sid) = true -> filter = sid)
    /\ (forall sid' key' body',
          call_url (TwilioStatus.update_call h key' sid' body')
          = call_url (TwilioStatus.update_call h key sid body) ->
          sid' = sid).
Proof.
  exists (encodeURIComponent sid). split; [reflexivity|].
  split; [apply encodeURIComponent_characters|].
  split; [apply encodeURIComponent_unreserved|].
  intros sid' key' body' H. cbn [TwilioStatus.update_call call_url] in H.
  apply append_inj_l, append_inj_l in H.
  exact (encodeURIComponent_inj _ _ H).
Qed.

Lemma assoc_org_map (h : Host) (key : string) :
  assoc key
    (spread []
       [ (env_or_empty h "TWILIO_MS_VECTOR",
          TwilioInbound.org_entry h "vector" "ORG_ID_VECTOR" 1);
         (env_or_empty h "TWILIO_MS_BMG", TwilioInbound.org_entry h "bmg" "ORG_ID_BMG" 2);
         (env_or_empty h "TWILIO_MS_STUCCO",
          TwilioInbound.org_entry h "stucco" "ORG_ID_STUCCO" 3) ])
  = if env_or_empty h "TWILIO_MS_STUCCO" =? key
    then Some (TwilioInbound.org_entry h "stucco" "ORG_ID_STUCCO" 3)
    else if env_or_empty h "TWILIO_MS_BMG" =? key
         then Some (TwilioInbound.org_entry h "bmg" "ORG_ID_BMG" 2)
         else if env_or_empty h "TWILIO_MS_VECTOR" =? key
              then Some (TwilioInbound.org_entry h "vector" "ORG_ID_VECTOR" 1)
              else None.
Proof.
  rewrite assoc_spread. cbn [rev app assoc].
  destruct (env_or_empty h "TWILIO_MS_STUCCO" =? key); [reflexivity|].
  destruct (env_or_empty h "TWILIO_MS_BMG" =? key); [reflexivity|].
  destruct (env_or_empty h "TWILIO_MS_VECTOR" =? key); reflexivity.
Qed.

(** The two tables of messaging services agree. The organisation that
    twilio-inbound finds for a messaging service is one whose messaging
    service, by twilio.ts, is that service; and the messaging service of
    an organisation leads back to that organisation when no other
    organisation is configured with the same service. *)
Theorem messaging_service_round_trip (h : Host) :
  (forall (sid slug : string) (orgId : JSValue),
      TwilioInbound.getOrgForMessagingService h (JStr sid)
      = Ret (Data (JObj [("slug", JStr slug); ("orgId", orgId)])) ->
      sid <> "" ->
      getMessagingServiceForOrg h slug = Ret sid)
  /\ (forall (slug variable sid : string),
        In (slug, variable) messaging_service_variables ->
        getMessagingServiceForOrg h slug = Ret sid ->
        (forall slug' variable',
            In (slug', variable') messaging_service_variables ->
            slug' <> slug -> env_or_empty h variable' <> sid) ->
        exists orgId,
          TwilioInbound.getOrgForMessagingService h (JStr sid)
          = Ret (Data (JObj [("slug", JStr slug); ("orgId", orgId)]))).
Proof.
  pose proof (getMessagingServiceForOrg_known h) as Hknown.
  split.
  - intros sid slug orgId H Hne.
    unfold TwilioInbound.getOrgForMessagingService, TwilioInbound.org_map in H.
    cbn [ToString obind] in H. unfold get, lookup_property in H.
    rewrite assoc_org_map in H.
    destruct (env_or_empty h "TWILIO_MS_STUCCO" =? sid) eqn:E3.
    { cbn in H. inversion H; subst slug. apply String.eqb_eq in E3.
      rewrite (Hknown "stucco" "TWILIO_MS_STUCCO") by (cbn; auto).
      rewrite E3. apply String.eqb_neq in Hne. rewrite Hne. reflexivity. }
    destruct (env_or_empty h "TWILIO_MS_BMG" =? sid) eqn:E2.
    { cbn in H. inversion H; subst slug. apply String.eqb_eq in E2.
      rewrite (Hknown "bmg" "TWILIO_MS_BMG") by (cbn; auto).
      rewrite E2. apply String.eqb_neq in Hne. rewrite Hne. reflexivity. }
    destruct (env_or_empty h "TWILIO_MS_VECTOR" =? sid) eqn:E1.
    { cbn in H. inversion H; subst slug. apply String.eqb_eq in E1.
      rewrite (Hknown "vector" "TWILIO_MS_VECTOR") by (cbn; auto).
      rewrite E1. apply String.eqb_neq in Hne. rewrite Hne. reflexivity. }
    unfold from_object_prototype in H.
    destruct (sid =? "__proto__"); [cbn in H; discriminate H|].
    unfold method_of in H. destruct (assoc sid object_prototype_methods);
      cbn in H; discriminate H.
  - intros slug variable sid Hin Hsid Hother.
    rewrite (Hknown slug variable Hin) in Hsid.
    destruct (env_or_empty h variable =? "") eqn:Ee; [discriminate Hsid|].
    injection Hsid as Hv.
    unfold TwilioInbound.getOrgForMessagingService, TwilioInbound.org_map.
    cbn [ToString obind]. unfold get, lookup_property. rewrite assoc_org_map.
    unfold messaging_service_variables in Hin. cbn [In] in Hin.
    destruct Hin as [Hin|[Hin|[Hin|[]]]]; inversion Hin; subst slug variable.
    + assert (N3 : (env_or_empty h "TWILIO_MS_STUCCO" =? sid) = false).
      { apply String.eqb_neq. apply (Hother "stucco"); [cbn; auto | discriminate]. }
      assert (N2 : (env_or_empty h "TWILIO_MS_BMG" =? sid) = false).
      { apply String.eqb_neq. apply (Hother "bmg"); [cbn; auto | discriminate]. }
      rewrite N3, N2, Hv, String.eqb_refl. eexists. reflexivity.
    + assert (N3 : (env_or_empty h "TWILIO_MS_STUCCO" =? sid) = false).
      { apply String.eqb_neq. apply (Hother "stucco"); [cbn; auto | discriminate]. }
      rewrite N3, Hv, String.eqb_refl. eexists. reflexivity.
    + rewrite Hv, String.eqb_refl. eexists. reflexivity.
Qed.

(* ================================================================== *)
(** * The statements on the examples *)
(* ================================================================== *)

(** C1 on a payload that names [orgId]: the payload's value is the one in
    the context. *)
Lemma initial_context_lookup_witness :
  NoDup (map fst (payload Example.hijacking_event))
  /\ prop (initial_context Example.hijacking_event) "orgId" = JStr "org-2".
Proof.
  assert (H : NoDup (map fst (payload Example.hijacking_event))).
  { repeat constructor; simpl; intuition discriminate. }
  split; [exact H|].
  exact (initial_context_lookup Example.hijacking_event "orgId" H).
Defined.

(** C1 as stated fails: a payload key named [orgId] replaces the run's own
    [orgId] in the context. *)
Lemma payload_replaces_orgId :
  prop (initial_context Example.hijacking_event) "orgId" = JStr "org-2"
  /\ orgId Example.hijacking_event = JStr "org-1"
  /\ prop (initial_context Example.hijacking_event) "orgId"
     <> orgId Example.hijacking_event.
Proof. repeat split. discriminate. Qed.

(** C2 on an event that carries the trigger value of the automation. *)
Lemma matching_automations_witness :
  fst (matchingAutomations Example.host
         (Example.stage_event [("triggerValue", JStr "won")]) Example.crm_world)
  = Ret [Example.won_automation]
  /\ cell_text Example.host (prop Example.won_automation "triggerValue") = Some "won".
Proof.
  split; [reflexivity|].
  destruct (matching_automations Example.host
              (Example.stage_event [("triggerValue", JStr "won")])
              Example.crm_world _ [Example.won_automation] eq_refl)
    as (org & _ & H).
  destruct (proj1 (H Example.won_automation) (or_introl eq_refl))
    as (_ & _ & _ & _ & Hvalue).
  destruct (Hvalue eq_refl) as (value & Hv & Hcell).
  inversion Hv. subst value. exact Hcell.
Defined.

(** C2 as stated fails: an event with no [triggerValue] is matched to a
    published automation whose [triggerValue] is present. *)
Lemma event_without_value_matches :
  fst (matchingAutomations Example.host (Example.stage_event []) Example.crm_world)
  = Ret [Example.won_automation]
  /\ prop Example.won_automation "triggerValue" = JStr "won"
  /\ prop (JObj (payload (Example.stage_event []))) "triggerValue" = JUndefined.
Proof. repeat split. Qed.

(** C5 on an operator outside the table. *)
Lemma evaluateCondition_table_witness :
  evaluateCondition Example.host
    (Example.condition "count" "matches" (JNum (num 5))) Example.count_context
  = Ret false.
Proof.
  exact (proj2 (proj2 (proj2 (proj2 (evaluateCondition_table Example.host))))
           (Example.condition "count" "matches" (JNum (num 5))) Example.count_context
           "count" "matches" eq_refl eq_refl eq_refl).
Defined.


(** C7 on one hour and two days. *)
Lemma executeWaitStep_total_witness :
  executeWaitStep Example.host
    (JObj [("delayHours", JNum (num 1)); ("delay_days", JNum (num 2))])
    Example.empty_world
  = (Ret (JObj [("waited", JBool true); ("seconds", JNum (num 176400))]),
     {| db := []; trace := [EWait (num 176400)] |}).
Proof.
  exact (proj1 (proj1 (executeWaitStep_total Example.host Example.empty_world)
                  (JObj [("delayHours", JNum (num 1)); ("delay_days", JNum (num 2))])
                  (num 0) (num 1) (num 2) eq_refl eq_refl eq_refl)
           eq_refl).
Defined.

(** C9 on a config without an operator. *)
Lemma evaluateCondition_default_operator_witness :
  evaluateCondition Example.host
    (JObj [("field", JStr "count"); ("value", JNum (num 5))]) Example.count_context
  = Ret true.
Proof.
  exact (proj1 (evaluateCondition_default_operator Example.host
                  (JObj [("field", JStr "count"); ("value", JNum (num 5))])
                  Example.count_context "count" "5" "5"
                  eq_refl eq_refl eq_refl eq_refl)).
Defined.

(** C10 on a negative delay next to one that is no number. *)
Lemma executeWaitStep_no_delay_witness :
  executeWaitStep Example.host
    (JObj [("delayMinutes", JNum (num (-5))); ("delayHours", JStr "soon")])
    Example.empty_world
  = (Ret (JObj [("waited", JBool false); ("reason", JStr "no delay configured")]),
     Example.empty_world).
Proof.
  refine (proj1 (executeWaitStep_no_delay Example.host
                   (JObj [("delayMinutes", JNum (num (-5))); ("delayHours", JStr "soon")])
                   Example.empty_world (num (-5)) nan (num 0)
                   eq_refl eq_refl eq_refl) _).
  left. repeat split; reflexivity.
Defined.

(** C10 as stated fails: the step is not total over arbitrary configs. A
    delay that is an object with an own [toString] property cannot be
    converted to a number, and the step throws the TypeError. *)
Lemma executeWaitStep_throws :
  fst (executeWaitStep Example.host
         (JObj [("delayMinutes", JObj [("toString", JNum (num 1))])])
         Example.empty_world)
  = Throw TypeError_message.
Proof. reflexivity. Qed.

Lemma sms_run_started (text slug : string) :
  run_started Example.host (Example.sms_run text slug) Example.sms_world
    (JNum (num 1))
    [Example.trigger_step; Example.condition_step; Example.reply_step; Example.wait_step]
    (Example.sms_run_loaded text slug).
Proof.
  exists "Opt out", (JObj [("id", JNum (num 1))]), (Example.sms_run_created text slug).
  split; [reflexivity|]. split; [reflexivity|]. split; [reflexivity|].
  reflexivity.
Qed.

Lemma example_host_reliable : reliable Example.host.
Proof. intros w op. reflexivity. Qed.



(** C8 on an inbound SMS for an organisation with no messaging service:
    the one matched automation fails, and the event is marked all the
    same, last. *)
Lemma processed_once_witness :
  exists result w3,
    processEvent Example.host (Example.sms_event "STOP" "nobody") Example.sms_world
    = (Ret result, w3)
    /\ prop result "matched" = JNum (num 1)
    /\ exists time,
         last (trace w3) (EWait nan)
         = EStore (Update "workflow_events" (JObj [("processed_at", JStr time)])
                          [("id", "7")]).
Proof.
  edestruct (processed_once Example.host (Example.sms_event "STOP" "nobody")
               Example.sms_world)
    with (automations := [Example.sms_automation]) (text := "7")
    as (result & w3 & Hrun & Hmatched & Htrace & _).
  - reflexivity.
  - intros a [<-|[]]. eexists. reflexivity.
  - reflexivity.
  - exists result, w3. split; [exact Hrun|]. split; [exact Hmatched|].
    eexists. rewrite Htrace, last_last. reflexivity.
Defined.

(** An automation without steps, on the example store. *)
Lemma empty_automation_completes_witness :
  fst (runAutomation Example.host Example.empty_run Example.sms_world)
  = Ret (run_result (JNum (num 1)) 0).
Proof.
  erewrite (empty_automation_completes Example.host Example.empty_run Example.sms_world)
    with (runId := JNum (num 1)) (id := "1").
  - reflexivity.
  - unfold run_started. eexists. eexists. eexists.
    split; [reflexivity|]. split; [reflexivity|]. split; reflexivity.
  - exact example_host_reliable.
  - reflexivity.
Defined.

(** A step of a type the runner does not know. *)
Lemma marker_and_unknown_steps_witness :
  executeStep Example.host (JObj [("stepType", JStr "Branch")]) (JObj []) "vector"
    Example.empty_world
  = (Ret (skipped "unknown stepType: Branch", true), Example.empty_world).
Proof.
  exact (proj2 (marker_and_unknown_steps Example.host (JObj [("stepType", JStr "Branch")])
                  (JObj []) "vector" Example.empty_world)
           "Branch" eq_refl eq_refl).
Defined.

(** An event type the table does not list. *)
Lemma trigger_type_mapping_witness : triggerTypeOf "invoice.paid" = "invoice.paid".
Proof. exact (proj1 (proj2 trigger_type_mapping) "invoice.paid" eq_refl). Defined.

(** A reply whose recipient resolves to nothing. *)
Lemma skipped_actions_witness :
  executeActionStep Example.host (JStr "send_sms")
    (JObj [("to", JStr "{{from}}"); ("body", JStr "Goodbye")]) (JObj []) "vector"
    Example.empty_world
  = (Ret (skipped "missing to or body"), Example.empty_world).
Proof.
  exact (proj1 (skipped_actions Example.host
                  (JObj [("to", JStr "{{from}}"); ("body", JStr "Goodbye")]) (JObj [])
                  "vector" Example.empty_world)
           "" "Goodbye" eq_refl eq_refl (or_introl eq_refl)).
Defined.

(** A nested path on an object, and on a string where an object is expected. *)
Lemma getNestedValue_paths_witness :
  getNestedValue (JObj [("contact", JObj [("name", JStr "Ann")])]) ("contact" ++ "." ++ "name")
  = Data (JStr "Ann")
  /\ getNestedValue (JObj [("contact", JStr "Ann")]) ("contact" ++ "." ++ "name")
     = Data JUndefined.
Proof.
  destruct getNestedValue_paths as (Hprimitive & Hpath & Hown & Hmissing).
  split.
  - rewrite (Hpath (JObj [("contact", JObj [("name", JStr "Ann")])])
                     (JObj [("name", JStr "Ann")]) "contact" "name" eq_refl).
    exact (Hown [("name", JStr "Ann")] "name" (JStr "Ann") eq_refl eq_refl).
  - rewrite (Hpath (JObj [("contact", JStr "Ann")]) (JStr "Ann") "contact" "name"
                     eq_refl).
    exact (Hprimitive (JStr "Ann") "name" eq_refl).
Defined.

(** A comparison on a field the context does not have. *)
Lemma missing_field_conditions_witness :
  evaluateCondition Example.host
    (Example.condition "score" "greater_than" (JNum (num 3))) Example.count_context
  = Ret false.
Proof.
  exact (proj1 (proj2 (proj2
           (missing_field_conditions Example.host
              (Example.condition "score" "greater_than" (JNum (num 3)))
              Example.count_context "score" "greater_than" eq_refl eq_refl eq_refl)))
           (or_introl eq_refl) (num 3) eq_refl).
Defined.

(** [not_equals] where [equals] is true. *)
Lemma complementary_operators_witness :
  evaluateCondition Example.host
    (JObj (obj_set "operator" (JStr "not_equals")
             [("field", JStr "count"); ("value", JNum (num 5))]))
    Example.count_context
  = Ret false.
Proof.
  apply (proj1 (complementary_operators Example.host
                  [("field", JStr "count"); ("value", JNum (num 5))]
                  Example.count_context true)).
  vm_compute. reflexivity.
Defined.

(** An SMS without credentials. *)
Lemma sendSms_guards_witness :
  sendSms Cases.bare_host "MG0001" "+15550100" "Goodbye" Example.empty_world
  = (Throw "Missing TWILIO_ACCOUNT_SID or TWILIO_AUTH_TOKEN", Example.empty_world).
Proof.
  exact (proj1 (sendSms_guards Cases.bare_host "MG0001" "+15550100" "Goodbye"
                  Example.empty_world)
           (or_introl eq_refl)).
Defined.

(** An SMS the service refuses. *)
Lemma sendSms_responses_witness :
  sendSms Cases.failing_host "MG0001" "+15550100" "Goodbye" Example.empty_world
  = (Throw "Twilio send failed: Service unavailable",
     after (EFetch (sms_request Cases.failing_host "MG0001" "+15550100" "Goodbye"))
           Example.empty_world).
Proof.
  refine (proj2 (proj2 (proj2
            (sendSms_responses Cases.failing_host "MG0001" "+15550100" "Goodbye"
               Example.empty_world _)))
            (JNum (num 503)) "unavailable" (JObj [("message", JStr "Service unavailable")])
            "Service unavailable" eq_refl _ _ eq_refl);
    [repeat split; discriminate | discriminate | discriminate].
Defined.

(** An organisation with a messaging service, one without, and one unknown. *)
Lemma getMessagingServiceForOrg_cases_witness :
  getMessagingServiceForOrg Example.host "vector" = Ret "MG0001"
  /\ getMessagingServiceForOrg Example.host "bmg"
     = Throw "No Messaging Service SID configured for org: bmg"
  /\ getMessagingServiceForOrg Example.host "acme"
     = Throw "No Messaging Service SID configured for org: acme".
Proof.
  destruct (getMessagingServiceForOrg_cases Example.host) as (Hknown & Hunknown & _).
  split; [|split].
  - exact (Hknown "vector" "TWILIO_MS_VECTOR" (or_introl eq_refl)).
  - exact (Hknown "bmg" "TWILIO_MS_BMG" (or_intror (or_introl eq_refl))).
  - exact (Hunknown "acme" eq_refl).
Defined.

(** A reply to an inbound SMS. *)
Lemma send_sms_action_witness :
  executeActionStep Example.host (JStr "send_sms") Cases.reply_config Cases.sms_context
    "vector" Example.empty_world
  = (Ret (JObj [("sent", JBool true); ("sid", JStr "SM0001"); ("status", JStr "queued")]),
     stored Example.host
       (Insert "messages"
          (message_row Cases.sms_context "+15550100" "Goodbye" (JStr "SM0001")
                       (JStr "queued")) false)
       (after (EFetch (sms_request Example.host "MG0001" "+15550100" "Goodbye"))
              Example.empty_world)).
Proof.
  refine (proj2 (proj2
            (send_sms_action Example.host Cases.reply_config Cases.sms_context "vector"
               Example.empty_world "+15550100" "Goodbye" eq_refl eq_refl _ _))
            "MG0001" (JStr "SM0001") (JStr "queued") _ eq_refl eq_refl eq_refl);
    discriminate.
Defined.

(** An e-mail the CRM refuses to send. *)
Lemma send_email_action_witness :
  executeActionStep Cases.failing_host (JStr "send_email") Cases.email_config
    Cases.sms_context "vector" Example.empty_world
  = (Throw "send-email failed: unavailable",
     after (EFetch (email_request Cases.failing_host "ops@example.com"
                      "SMS from +15550100" "STOP"))
           Example.empty_world).
Proof.
  refine (proj2
            (send_email_action Cases.failing_host Cases.email_config Cases.sms_context
               "vector" Example.empty_world "ops@example.com" "SMS from +15550100" "STOP"
               eq_refl eq_refl eq_refl) _ _ _);
    discriminate.
Defined.

(** A task the store refuses. *)
Lemma create_task_action_witness :
  fst (executeActionStep Cases.refusing_host (JStr "create_task") Cases.task_config
         Cases.sms_context "vector" Example.empty_world)
  = Throw "create_task failed: timeout".
Proof.
  rewrite (proj1
             (create_task_action Cases.refusing_host Cases.task_config Cases.sms_context
                "vector" Example.empty_world "Call +15550100" "" "2026-01-02" (num 2)
                (JStr "c-9") eq_refl eq_refl eq_refl eq_refl eq_refl
                (ex_intro _ "c-9" (conj eq_refl eq_refl)))
             "timeout" eq_refl).
  reflexivity.
Defined.


(** A webhook that answers with an error status. *)
Lemma webhook_action_witness :
  executeActionStep Cases.failing_host (JStr "webhook")
    (JObj [("url", JStr "https://hooks.example.com/sms")]) Cases.sms_context "vector"
    Example.empty_world
  = (Ret (JObj [("sent", JBool true); ("status", JNum (num 503))]),
     after (EFetch {| url := "https://hooks.example.com/sms"; basic_auth := None;
                      body := JsonBody Cases.sms_context |})
           Example.empty_world).
Proof.
  refine (proj2
            (webhook_action Cases.failing_host
               (JObj [("url", JStr "https://hooks.example.com/sms")]) Cases.sms_context
               "vector" Example.empty_world "https://hooks.example.com/sms" eq_refl) _).
  discriminate.
Defined.

(** The run of the four steps on an inbound STOP. *)
Lemma executed_steps_are_logged_witness :
  exists runId steps w2 n,
    run_started Example.host (Example.sms_run "STOP" "vector") Example.sms_world
                runId steps w2
    /\ run_result (JNum (num 1)) 4 = run_result runId n
    /\ logged (snd (runAutomation Example.host (Example.sms_run "STOP" "vector")
                      Example.sms_world))
       = logged Example.sms_world + n
    /\ n <= List.length steps.
Proof.
  apply (executed_steps_are_logged Example.host (Example.sms_run "STOP" "vector")
           Example.sms_world).
  vm_compute. reflexivity.
Defined.

(** The run that stops at its condition. *)
Lemma early_stop_only_on_condition_witness :
  exists n,
    run_result (JNum (num 1)) 2 = run_result (JNum (num 1)) n
    /\ (n = 4
        \/ exists pre c post,
            [Example.trigger_step; Example.condition_step; Example.reply_step;
             Example.wait_step] = (pre ++ c :: post)%list
            /\ n = S (List.length pre)
            /\ stepTypeOf c = JStr "Condition"
            /\ evaluateCondition Example.host (configOf c)
                 (initial_context (Example.sms_event "hello" "vector")) = Ret false
            /\ truthy (prop (configOf c) "stopOnFalse") = true).
Proof.
  apply (early_stop_only_on_condition Example.host (Example.sms_run "hello" "vector")
           Example.sms_world (Example.sms_run_loaded "hello" "vector")
           (snd (runAutomation Example.host (Example.sms_run "hello" "vector")
                   Example.sms_world))
           (JNum (num 1)) (run_result (JNum (num 1)) 2) _
           (sms_run_started "hello" "vector")).
  vm_compute. reflexivity.
Defined.


Lemma bare_host_not_configured : ~ configured Cases.bare_host.
Proof.
  intro H. apply (f_equal (fun c => fst (c Example.empty_world))) in H.
  discriminate H.
Qed.

(** The router without the service key. *)
Lemma missing_service_key_witness :
  processEvent Cases.bare_host (Example.sms_event "STOP" "vector") Example.sms_world
  = (Throw "Missing SUPABASE_SERVICE_ROLE_KEY", Example.sms_world).
Proof.
  exact (proj1 (proj2 (proj2 (proj2 (proj2 (proj2 (proj2
           (missing_service_key Cases.bare_host Example.sms_world
              bare_host_not_configured)))))))
           (Example.sms_event "STOP" "vector")).
Defined.

(** A run record the store refuses. *)
Lemma store_errors_are_thrown_witness :
  createWorkflowRun Cases.refusing_host (Example.sms_run_record "STOP" "vector")
    Example.sms_world
  = (Throw "createWorkflowRun failed: timeout",
     after (EStore (Insert "workflow_runs" (Example.sms_run_record "STOP" "vector") true))
           Example.sms_world).
Proof.
  exact (proj1 (proj2
           (store_errors_are_thrown Cases.refusing_host Example.sms_world "timeout"
              eq_refl))
           (Example.sms_run_record "STOP" "vector") eq_refl).
Defined.

(** The router when the store refuses the query. *)
Lemma failed_query_leaves_event_witness :
  fst (processEvent Cases.refusing_host (Example.sms_event "STOP" "vector")
         Example.sms_world)
  = Throw "loadMatchingAutomations failed: timeout"
  /\ db (snd (processEvent Cases.refusing_host (Example.sms_event "STOP" "vector")
                Example.sms_world))
     = db Example.sms_world.
Proof.
  destruct (failed_query_leaves_event Cases.refusing_host
              (Example.sms_event "STOP" "vector") Example.sms_world
              (snd (matchingAutomations Cases.refusing_host
                      (Example.sms_event "STOP" "vector") Example.sms_world))
              "loadMatchingAutomations failed: timeout" eq_refl)
    as (Hrun & Hdb & _).
  rewrite Hrun. split; [reflexivity | exact Hdb].
Defined.


(** An event emitted and marked. *)
Lemma emitted_event_is_marked_witness :
  exists entity rows record,
    ToString Example.host (entity_id Cases.sms_crm_event) = Ret entity
    /\ table "workflow_events"
         (snd (mark_processed Example.host (JNum (num 2))
                 (snd (emitEvent Example.host Cases.sms_crm_event Example.sms_world))))
       = (rows ++ [record])%list
    /\ prop record "id" = JNum (num 2)
    /\ prop record "entity_id" = JStr "9"
    /\ prop record "processed_at" = JStr "T1".
Proof.
  destruct (emitted_event_is_marked Example.host Cases.sms_crm_event Example.sms_world
              (snd (emitEvent Example.host Cases.sms_crm_event Example.sms_world))
              (snd (mark_processed Example.host (JNum (num 2))
                      (snd (emitEvent Example.host Cases.sms_crm_event
                              Example.sms_world))))
              (JObj [("id", JNum (num 2))]) example_host_reliable)
    as (entity & rows & record & He & Ht & _ & Hid & Hp & Hent & _).
  - reflexivity.
  - reflexivity.
  - discriminate.
  - exists entity, rows, record. split; [exact He|]. split; [exact Ht|].
    split; [exact Hid|]. split; [|exact Hp].
    rewrite Hent. inversion He. reflexivity.
Defined.

(** A request that names no event type. *)
Lemma trigger_event_guards_witness :
  TriggerEvent.handler Example.host Cases.remote
    {| method := "POST"; req_body := JObj [("orgId", JNum (num 1))] |} []
  = (Ret (TriggerEvent.reply 400
            (TriggerEvent.error "Missing required: orgId, eventType, entityType")), []).
Proof.
  refine (proj2 (proj2 (proj2
            (trigger_event_guards Example.host Cases.remote
               {| method := "POST"; req_body := JObj [("orgId", JNum (num 1))] |} [])))
            eq_refl _ _).
  - discriminate.
  - exists "eventType". split; [cbn; auto | reflexivity].
Defined.

(** An event whose task cannot be invoked: the event is stored and the
    reply is 200. *)
Lemma trigger_failure_is_not_fatal_witness :
  exists trigger made,
    TriggerEvent.handler Cases.triggering_host Cases.remote Cases.inbound_request []
    = (Ret (TriggerEvent.reply 200
              (Json (JObj [ ("ok", JBool true); ("eventId", JNum (num 42));
                            ("trigger", trigger) ]))),
       made)
    /\ List.length made = 2.
Proof.
  edestruct (trigger_failure_is_not_fatal Cases.triggering_host Cases.remote
               Cases.inbound_request [] "service-role-key" "SM0001")
    as (trigger & made & Hrun & Hmade);
    [reflexivity .. |].
  cbn in Hmade. subst made. exists trigger. eexists. split; [exact Hrun | reflexivity].
Defined.

(** A delivery failure reported by the SMS service. *)
Lemma twilio_status_replies_witness :
  TwilioStatus.handler Example.host Cases.remote Cases.status_request []
  = (Ret TwilioStatus.done,
     [ TwilioStatus.update_call Example.host "service-role-key" "SM0001"
         (JObj [ ("status", JStr "undelivered"); ("error_code", JStr "30003");
                 ("updated_at", JStr "2026-01-01T00:00:00.000Z") ]) ]).
Proof.
  exact (proj1 (proj2 (proj2
           (twilio_status_replies Example.host Cases.remote Cases.status_request []
              eq_refl))
           "service-role-key" "SM0001" eq_refl eq_refl eq_refl eq_refl)).
Defined.

(** A message SID is written into the filter as it is. *)
Lemma status_filter_is_safe_witness :
  exists filter,
    call_url (TwilioStatus.update_call Example.host "service-role-key" "SM0001" JNull)
    = supabase_url Example.host ++ "/rest/v1/messages?twilio_sid=eq." ++ filter
    /\ filter = "SM0001".
Proof.
  destruct (status_filter_is_safe Example.host "service-role-key" "SM0001" JNull)
    as (filter & Hurl & _ & Hsame & _).
  exists filter. split; [exact Hurl | exact (Hsame eq_refl)].
Defined.

(** The messaging service of [vector] and back. *)
Lemma messaging_service_round_trip_witness :
  exists orgId,
    TwilioInbound.getOrgForMessagingService Example.host (JStr "MG0001")
    = Ret (Data (JObj [("slug", JStr "vector"); ("orgId", orgId)])).
Proof.
  refine (proj2 (messaging_service_round_trip Example.host)
            "vector" "TWILIO_MS_VECTOR" "MG0001" (or_introl eq_refl) eq_refl _).
  intros slug' variable' [H|[H|[H|[]]]] Hne; inversion H; subst;
    [contradiction Hne; reflexivity | discriminate | discriminate].
Defined.
